(** * QtSsh: the session state machine of [SshClient] (src/qtssh/sshclient.cpp)

    A shallow embedding of the client's handlers.  The object is a record
    of its members; every handler is a function on that record.  The SSH
    protocol engine (libssh2) and the clock are an oracle: for each library
    function a stream of the values its successive calls return.  What a
    handler does to the outside (signals, log lines at warning level and
    above, commands to the socket, close requests to channels) is appended
    to a trace kept with the record.

    The handlers are given twice.  First each function as sshclient.cpp
    writes it, a command to the socket being recorded and nothing more;
    the properties of what one handler computes are stated on these.
    Then the same handlers in their environment (suffix [_in]): the
    socket reacts inside the call and changes state between the handlers,
    [Q_ASSERT] depends on the build, and libssh2 reads through the handles
    it is given; the properties of the Error state, of the failures and
    the teardown, and of whole runs are stated on these. *)

From Stdlib Require Import ZArith List String Ascii Bool Lia Permutation.
Import ListNotations.
Open Scope string_scope.
Open Scope list_scope.
Open Scope Z_scope.

(** ** Constants of libssh2.h used by the client *)

Definition LIBSSH2_ERROR_SOCKET_SEND : Z := -7.
Definition LIBSSH2_ERROR_EAGAIN : Z := -37.
Definition LIBSSH2_HOSTKEY_TYPE_RSA : Z := 1.
Definition LIBSSH2_HOSTKEY_TYPE_DSS : Z := 2.
Definition LIBSSH2_KNOWNHOST_TYPE_PLAIN : Z := 1.
Definition LIBSSH2_KNOWNHOST_KEYENC_RAW : Z := Z.shiftl 1 16.
Definition LIBSSH2_KNOWNHOST_KEY_SSHRSA : Z := Z.shiftl 2 18.
Definition LIBSSH2_KNOWNHOST_KEY_SSHDSS : Z := Z.shiftl 3 18.

(** sshclient.cpp, lines 17-25 and 329. *)
Definition MAX_LOST_KEEP_ALIVE : Z := 6.
Definition ConnectionTimeout : Z := 60000.

(** ** Machine integers

    [int] is 32 bits and [qint64] 64 bits, both two's complement; a result
    out of range wraps. *)

Definition wrap_signed (bits : Z) (z : Z) : Z :=
  (z + 2 ^ (bits - 1)) mod 2 ^ bits - 2 ^ (bits - 1).

Definition int32 (z : Z) : Z := wrap_signed 32 z.
Definition int64 (z : Z) : Z := wrap_signed 64 z.

Definition INT_MAX : Z := 2 ^ 31 - 1.

(** A pointer is its address; [nullptr] is address 0. *)
Definition nullptr : Z := 0.

(** ** Data model *)

(** Modelled from the spec: the enumeration is declared in sshclient.h,
    which is not among the sources.  These are the twelve states of the
    specification's table, under the names sshclient.cpp uses; the
    [switch] of [_ssh_processEvent] has one label for each. *)
Inductive SshState : Type :=
| Unconnected
| SocketConnection
| WaitingSocketConnection
| Initialize
| HandShake
| GetAuthenticationMethodes
| Authentication
| Ready
| DisconnectingChannel
| DisconnectingSession
| FreeSession
| Error.

Definition SshState_eqb (a b : SshState) : bool :=
  match a, b with
  | Unconnected, Unconnected
  | SocketConnection, SocketConnection
  | WaitingSocketConnection, WaitingSocketConnection
  | Initialize, Initialize
  | HandShake, HandShake
  | GetAuthenticationMethodes, GetAuthenticationMethodes
  | Authentication, Authentication
  | Ready, Ready
  | DisconnectingChannel, DisconnectingChannel
  | DisconnectingSession, DisconnectingSession
  | FreeSession, FreeSession
  | Error, Error => true
  | _, _ => false
  end.

(** Modelled from the spec: [SshKey] is declared in a header that is not
    among the sources.  The specification's host key record has a type
    (RSA, DSS or unknown), a hash and the raw key; the names are those
    sshclient.cpp uses. *)
Inductive KeyType : Type := UnknownType | Rsa | Dss.

Record SshKey : Type := mkSshKey {
  key_hash : list Byte.byte;
  key_bytes : list Byte.byte;
  key_type : KeyType
}.

(** [QAbstractSocket::SocketState]. *)
Inductive SocketState : Type :=
| UnconnectedState
| HostLookupState
| ConnectingState
| ConnectedState
| BoundState
| ClosingState
| ListeningState.

(** A [QTimer]: running or not, its interval in milliseconds, one-shot. *)
Record QTimer : Type := mkTimer {
  timer_active : bool;
  timer_interval : Z;
  timer_singleShot : bool
}.

Definition timer_start (msec : Z) (t : QTimer) : QTimer :=
  mkTimer true msec (timer_singleShot t).

Definition timer_stop (t : QTimer) : QTimer :=
  mkTimer false (timer_interval t) (timer_singleShot t).

Definition timer_setSingleShot (b : bool) (t : QTimer) : QTimer :=
  mkTimer (timer_active t) (timer_interval t) b.

(** The signals of [SshClient]. *)
Inductive Signal : Type :=
| sshEvent
| sshStateChanged (s : SshState)
| sshReady
| sshDataReceived
| sshError
| sshDisconnected.

(** What a handler does to its environment.  The logging category is
    declared with threshold [QtWarningMsg] (line 15), so [qCDebug] lines
    print nothing and are left out. *)
Inductive Effect : Type :=
| Emit (s : Signal)
| Warning (msg : string)
| Critical (msg : string)
| SocketConnectToHost (host : string) (port : Z)
| SocketDisconnectFromHost
| ChannelClose (channel : Z)
| KnownhostReadfile (file : string).

(** Modelled from the spec: the mutex [channelCreationInProgress] is
    declared in sshclient.h, which is not among the sources.  The
    specification calls it a binary lock; a [QMutex] constructed by default
    is not recursive.  So the mutex is a boolean (taken or free),
    [tryLock] succeeds exactly when it is free and then takes it, and
    [unlock] frees it. *)
Definition QMutex_tryLock (locked : bool) : bool * bool := (negb locked, true).
Definition QMutex_unlock (locked : bool) : bool := false.

(** The members of [SshClient] that the handlers read or write.
    [m_socket] is the state of the [QTcpSocket] as [m_socket.state()]
    reports it: the socket changes it, the handlers only read it and send
    the socket commands (recorded in [trace]). *)
Record SshClient : Type := mkClient {
  m_sshState : SshState;
  m_authenticationMethodes : list string;
  m_hostname : string;
  m_port : Z;
  m_username : string;
  m_knowhostFiles : string;
  m_session : Z;
  m_knownHosts : Z;
  m_hostKey : SshKey;
  m_lastProofOfLive : Z;
  m_channels : list Z;
  m_keepalive : QTimer;
  m_connectionTimeout : QTimer;
  m_socket : SocketState;
  channelCreationInProgress : bool;
  currentLockerForChannelCreation : Z;
  trace : list Effect
}.

Definition set_sshState_field (v : SshState) (c : SshClient) : SshClient :=
  let '(mkClient _ b d e f g h i j k l m n o p q r) := c in
  mkClient v b d e f g h i j k l m n o p q r.

Definition set_authenticationMethodes (v : list string) (c : SshClient) : SshClient :=
  let '(mkClient a _ d e f g h i j k l m n o p q r) := c in
  mkClient a v d e f g h i j k l m n o p q r.

Definition set_hostname (v : string) (c : SshClient) : SshClient :=
  let '(mkClient a b _ e f g h i j k l m n o p q r) := c in
  mkClient a b v e f g h i j k l m n o p q r.

Definition set_port (v : Z) (c : SshClient) : SshClient :=
  let '(mkClient a b d _ f g h i j k l m n o p q r) := c in
  mkClient a b d v f g h i j k l m n o p q r.

Definition set_username (v : string) (c : SshClient) : SshClient :=
  let '(mkClient a b d e _ g h i j k l m n o p q r) := c in
  mkClient a b d e v g h i j k l m n o p q r.

Definition set_knowhostFiles (v : string) (c : SshClient) : SshClient :=
  let '(mkClient a b d e f _ h i j k l m n o p q r) := c in
  mkClient a b d e f v h i j k l m n o p q r.

Definition set_session (v : Z) (c : SshClient) : SshClient :=
  let '(mkClient a b d e f g _ i j k l m n o p q r) := c in
  mkClient a b d e f g v i j k l m n o p q r.

Definition set_knownHosts (v : Z) (c : SshClient) : SshClient :=
  let '(mkClient a b d e f g h _ j k l m n o p q r) := c in
  mkClient a b d e f g h v j k l m n o p q r.

Definition set_hostKey (v : SshKey) (c : SshClient) : SshClient :=
  let '(mkClient a b d e f g h i _ k l m n o p q r) := c in
  mkClient a b d e f g h i v k l m n o p q r.

Definition set_lastProofOfLive (v : Z) (c : SshClient) : SshClient :=
  let '(mkClient a b d e f g h i j _ l m n o p q r) := c in
  mkClient a b d e f g h i j v l m n o p q r.

Definition set_channels (v : list Z) (c : SshClient) : SshClient :=
  let '(mkClient a b d e f g h i j k _ m n o p q r) := c in
  mkClient a b d e f g h i j k v m n o p q r.

Definition set_keepalive (v : QTimer) (c : SshClient) : SshClient :=
  let '(mkClient a b d e f g h i j k l _ n o p q r) := c in
  mkClient a b d e f g h i j k l v n o p q r.

Definition set_connectionTimeout (v : QTimer) (c : SshClient) : SshClient :=
  let '(mkClient a b d e f g h i j k l m _ o p q r) := c in
  mkClient a b d e f g h i j k l m v o p q r.

Definition set_socket (v : SocketState) (c : SshClient) : SshClient :=
  let '(mkClient a b d e f g h i j k l m n _ p q r) := c in
  mkClient a b d e f g h i j k l m n v p q r.

Definition set_channelCreationInProgress (v : bool) (c : SshClient) : SshClient :=
  let '(mkClient a b d e f g h i j k l m n o _ q r) := c in
  mkClient a b d e f g h i j k l m n o v q r.

Definition set_currentLocker (v : Z) (c : SshClient) : SshClient :=
  let '(mkClient a b d e f g h i j k l m n o p _ r) := c in
  mkClient a b d e f g h i j k l m n o p v r.

(** Append one effect to the trace (oldest first). *)
Definition effect (x : Effect) (c : SshClient) : SshClient :=
  let '(mkClient a b d e f g h i j k l m n o p q r) := c in
  mkClient a b d e f g h i j k l m n o p q (r ++ [x]).

Definition emit (s : Signal) : SshClient -> SshClient := effect (Emit s).
Definition qCWarning (msg : string) : SshClient -> SshClient := effect (Warning msg).
Definition qCCritical (msg : string) : SshClient -> SshClient := effect (Critical msg).

(** [m_socket.disconnectFromHost()]: the command alone.  What the socket
    does with it is [socket_disconnectFromHost_in] below. *)
Definition socket_disconnectFromHost : SshClient -> SshClient :=
  effect SocketDisconnectFromHost.

(** Modelled from the spec: the initial values of the members are given in
    sshclient.h, which is not among the sources.  The specification has the
    session constructed empty and unconnected, its engine handle null
    outside the connected window, the lock free and the registry empty. *)
Definition new_client : SshClient :=
  mkClient Unconnected [] "" 0 "" "" nullptr nullptr
           (mkSshKey [] [] UnknownType) 0 []
           (mkTimer false 0 false) (mkTimer false 0 false)
           UnconnectedState false nullptr [].

(** ** The protocol engine as an oracle

    A stream gives the values returned by the successive calls of one
    library function. *)

Definition Stream (A : Type) : Type := nat -> A.

Definition shd {A} (s : Stream A) : A := s O.
Definition stl {A} (s : Stream A) : Stream A := fun n => s (S n).
Definition scons {A} (x : A) (s : Stream A) : Stream A :=
  fun n => match n with O => x | S m => s m end.
Definition sconst {A} (x : A) : Stream A := fun _ => x.

Fixpoint sprepend {A} (l : list A) (s : Stream A) : Stream A :=
  match l with
  | [] => s
  | x :: l' => scons x (sprepend l' s)
  end.

(** One stream per library function whose result the client looks at.
    [libssh2_session_hostkey] yields the key bytes (pointer and length)
    with the key type, or nothing for a null pointer;
    [libssh2_userauth_list] yields the comma-separated list, or nothing
    for a null pointer; [libssh2_keepalive_send] yields its return code
    with the value stored in [seconds_to_next]. *)
Record Engine : Type := mkEngine {
  libssh2_session_init_ex : Stream Z;
  libssh2_knownhost_init : Stream Z;
  libssh2_session_handshake : Stream Z;
  libssh2_session_hostkey : Stream (option (list Byte.byte * Z));
  libssh2_hostkey_hash : Stream (list Byte.byte);
  libssh2_userauth_list : Stream (option string);
  libssh2_session_last_error : Stream Z;
  libssh2_userauth_publickey_frommemory : Stream Z;
  libssh2_userauth_password_ex : Stream Z;
  libssh2_userauth_authenticated : Stream Z;
  libssh2_session_disconnect_ex : Stream Z;
  libssh2_session_free : Stream Z;
  libssh2_keepalive_send : Stream (Z * Z);
  currentMSecsSinceEpoch : Stream Z
}.

(** Calling a function takes the head of its stream. *)

Definition call_session_init_ex (e : Engine) : Z * Engine :=
  let '(mkEngine a b c d f g h i j k l m n o) := e in
  (shd a, mkEngine (stl a) b c d f g h i j k l m n o).

Definition call_knownhost_init (e : Engine) : Z * Engine :=
  let '(mkEngine a b c d f g h i j k l m n o) := e in
  (shd b, mkEngine a (stl b) c d f g h i j k l m n o).

Definition call_session_handshake (e : Engine) : Z * Engine :=
  let '(mkEngine a b c d f g h i j k l m n o) := e in
  (shd c, mkEngine a b (stl c) d f g h i j k l m n o).

Definition call_session_hostkey (e : Engine) : option (list Byte.byte * Z) * Engine :=
  let '(mkEngine a b c d f g h i j k l m n o) := e in
  (shd d, mkEngine a b c (stl d) f g h i j k l m n o).

Definition call_hostkey_hash (e : Engine) : list Byte.byte * Engine :=
  let '(mkEngine a b c d f g h i j k l m n o) := e in
  (shd f, mkEngine a b c d (stl f) g h i j k l m n o).

Definition call_userauth_list (e : Engine) : option string * Engine :=
  let '(mkEngine a b c d f g h i j k l m n o) := e in
  (shd g, mkEngine a b c d f (stl g) h i j k l m n o).

Definition call_session_last_error (e : Engine) : Z * Engine :=
  let '(mkEngine a b c d f g h i j k l m n o) := e in
  (shd h, mkEngine a b c d f g (stl h) i j k l m n o).

Definition call_userauth_publickey_frommemory (e : Engine) : Z * Engine :=
  let '(mkEngine a b c d f g h i j k l m n o) := e in
  (shd i, mkEngine a b c d f g h (stl i) j k l m n o).

Definition call_userauth_password_ex (e : Engine) : Z * Engine :=
  let '(mkEngine a b c d f g h i j k l m n o) := e in
  (shd j, mkEngine a b c d f g h i (stl j) k l m n o).

Definition call_userauth_authenticated (e : Engine) : Z * Engine :=
  let '(mkEngine a b c d f g h i j k l m n o) := e in
  (shd k, mkEngine a b c d f g h i j (stl k) l m n o).

Definition call_session_disconnect_ex (e : Engine) : Z * Engine :=
  let '(mkEngine a b c d f g h i j k l m n o) := e in
  (shd l, mkEngine a b c d f g h i j k (stl l) m n o).

Definition call_session_free (e : Engine) : Z * Engine :=
  let '(mkEngine a b c d f g h i j k l m n o) := e in
  (shd m, mkEngine a b c d f g h i j k l (stl m) n o).

Definition call_keepalive_send (e : Engine) : (Z * Z) * Engine :=
  let '(mkEngine a b c d f g h i j k l m n o) := e in
  (shd n, mkEngine a b c d f g h i j k l m (stl n) o).

Definition call_currentMSecsSinceEpoch (e : Engine) : Z * Engine :=
  let '(mkEngine a b c d f g h i j k l m n o) := e in
  (shd o, mkEngine a b c d f g h i j k l m n (stl o)).

(** An engine that answers 0 (success, or a null pointer) to everything. *)
Definition quiet_engine : Engine :=
  mkEngine (sconst 0) (sconst 0) (sconst 0) (sconst None) (sconst [])
           (sconst None) (sconst 0) (sconst 0) (sconst 0) (sconst 0)
           (sconst 0) (sconst 0) (sconst (0, 0)) (sconst 0).

(** ** Small helpers of Qt *)

(** [QByteArray::split(',')]: the pieces between the separators; an empty
    array gives one empty piece. *)
Fixpoint split (sep : ascii) (s : string) : list string :=
  match s with
  | EmptyString => [EmptyString]
  | String ch rest =>
      if Ascii.eqb ch sep then EmptyString :: split sep rest
      else match split sep rest with
           | [] => [String ch EmptyString]
           | piece :: pieces => String ch piece :: pieces
           end
  end.

(** [QList::removeOne]: drop the first occurrence, if there is one. *)
Fixpoint removeOne (x : Z) (l : list Z) : list Z :=
  match l with
  | [] => []
  | y :: l' => if Z.eqb x y then l' else y :: removeOne x l'
  end.

(** Conversion of an [int] to [bool]. *)
Definition bool_of_int (z : Z) : bool := negb (Z.eqb z 0).

(** ** The handlers *)

(** lines 284-296 *)
Definition sshState (c : SshClient) : SshState := m_sshState c.

Definition setSshState (s : SshState) (c : SshClient) : SshClient :=
  if negb (SshState_eqb (m_sshState c) s)
  then emit (sshStateChanged s) (set_sshState_field s c)
  else c.

(** lines 101-110.  [tryLock] is evaluated first, and locks the mutex when
    it was free; the owner is compared only when it fails. *)
Definition takeChannelCreationMutex (identifier : Z) (c : SshClient)
  : bool * SshClient :=
  let '(tryLock, locked) := QMutex_tryLock (channelCreationInProgress c) in
  let c := set_channelCreationInProgress locked c in
  if negb tryLock && negb (Z.eqb (currentLockerForChannelCreation c) identifier)
  then (false, c)
  else (true, set_currentLocker identifier c).

(** lines 112-123 *)
Definition releaseChannelCreationMutex (identifier : Z) (c : SshClient)
  : SshClient :=
  if Z.eqb (currentLockerForChannelCreation c) identifier
  then set_currentLocker nullptr
         (set_channelCreationInProgress
            (QMutex_unlock (channelCreationInProgress c)) c)
  else qCCritical "Trying to release channel mutex but it doesn't host it" c.

(** lines 163-179.  The port is a [quint16]. *)
Definition connectToHost (user host : string) (port : Z)
           (methodes : list string) (c : SshClient) : Z * SshClient :=
  if negb (SshState_eqb (sshState c) Unconnected)
  then (0, qCCritical "Allready connected" c)
  else
    let c := set_authenticationMethodes methodes c in
    let c := set_hostname host c in
    let c := set_port port c in
    let c := set_username user c in
    let c := setSshState SocketConnection c in
    let c := emit sshEvent c in
    (0, c).

(** lines 193-210 *)
Definition disconnectFromHost (c : SshClient) : SshClient :=
  if SshState_eqb (m_sshState c) Unconnected then c
  else
    let c := if Nat.eqb (List.length (m_channels c)) 0
             then setSshState DisconnectingSession c
             else setSshState DisconnectingChannel c in
    emit sshEvent c.

(** line 230 *)
Definition setKownHostFile (file : string) (c : SshClient) : SshClient :=
  set_knowhostFiles file c.

(** lines 259-282.  [keepalive] and the products are [int]; the clock and
    [m_lastProofOfLive] are [qint64], and [/] truncates toward zero. *)
Definition _sendKeepAlive (c : SshClient) (e : Engine) : SshClient * Engine :=
  if negb (Z.eqb (m_session c) nullptr) then
    let '((ret, keepalive), e) := call_keepalive_send e in
    if Z.eqb ret LIBSSH2_ERROR_SOCKET_SEND then
      (socket_disconnectFromHost (qCWarning "Connection I/O error !!!" c), e)
    else
      let '(now, e) := call_currentMSecsSinceEpoch e in
      if Z.quot (int64 (now - m_lastProofOfLive c)) 1000
         >? int32 (MAX_LOST_KEEP_ALIVE * keepalive)
      then (socket_disconnectFromHost (qCWarning "Connection lost !!!" c), e)
      else
        let keepalive := int32 (keepalive - 1) in
        let keepalive := if keepalive <? 2 then 2 else keepalive in
        (set_keepalive (timer_start (int32 (keepalive * 1000)) (m_keepalive c)) c, e)
  else (c, e).

(** lines 299-321 *)
Definition unregisterChannel (channel : Z) (c : SshClient) : SshClient :=
  let c := set_channels (removeOne channel (m_channels c)) c in
  if SshState_eqb (sshState c) DisconnectingChannel
     && Nat.eqb (List.length (m_channels c)) 0
  then
    let c := set_keepalive (timer_stop (m_keepalive c)) c in
    let c := setSshState DisconnectingSession c in
    emit sshEvent c
  else c.

Definition registerChannel (channel : Z) (c : SshClient) : SshClient :=
  set_channels (m_channels c ++ [channel]) c.

(** lines 333-371: the slots connected to the socket and to the connection
    timer. *)
Definition _connection_socketTimeout (c : SshClient) : SshClient :=
  let c := socket_disconnectFromHost c in
  let c := qCWarning "ssh socket connection timeout" c in
  let c := setSshState Error c in
  emit sshEvent c.

Definition _connection_socketError (c : SshClient) : SshClient :=
  let c := qCWarning "ssh socket connection error:" c in
  let c := setSshState Error c in
  emit sshEvent c.

Definition _connection_socketConnected (c : SshClient) : SshClient :=
  if SshState_eqb (m_sshState c) WaitingSocketConnection
  then emit sshEvent (setSshState Initialize c)
  else
    let c := qCWarning "Unknown conenction on socket" c in
    let c := setSshState Error c in
    emit sshEvent c.

Definition _connection_socketDisconnected (c : SshClient) : SshClient :=
  let c := qCWarning "ssh socket disconnected" c in
  let c := setSshState FreeSession c in
  emit sshEvent c.

(** ** [_ssh_processEvent] (lines 373-649)

    How one call of the handler ends.  [Done] and [WouldBlock] are both a
    plain return; [WouldBlock] marks the returns taken because a library
    call answered [LIBSSH2_ERROR_EAGAIN].  [Fault] means that the handler
    does not go on as written: a [Q_ASSERT] that aborts, [QList::first] on
    an empty list (an abort in a debug build, undefined behaviour in a
    release build), or, for the handlers in their environment, a call of
    libssh2 with a null handle.  [OutOfFuel] means that the authentication
    loop was still running after the given number of iterations. *)
Inductive Outcome : Type :=
| Done (c : SshClient) (e : Engine)
| WouldBlock (c : SshClient) (e : Engine)
| Fault
| OutOfFuel.

(** The end of one [case] block: control falls through to the next label,
    or the handler is left. *)
Inductive Step : Type :=
| Fallthrough (c : SshClient) (e : Engine)
| Leave (r : Outcome).

Definition andThen (s : Step) (k : SshClient -> Engine -> Outcome) : Outcome :=
  match s with
  | Fallthrough c e => k c e
  | Leave r => r
  end.

(** [QList::first]: defined on a non-empty list only. *)
Definition first (l : list string) : option string := hd_error l.

(** [QList::removeFirst]. *)
Definition removeFirst (l : list string) : list string := tl l.

Definition case_Unconnected (c : SshClient) (e : Engine) : Outcome :=
  Done (qCWarning "Unknown data on socket" c) e.

Definition case_SocketConnection (c : SshClient) (e : Engine) : Step :=
  let c := set_connectionTimeout
             (timer_start ConnectionTimeout (m_connectionTimeout c)) c in
  let c := effect (SocketConnectToHost (m_hostname c) (m_port c)) c in
  let c := setSshState WaitingSocketConnection c in
  Fallthrough c e.

Definition case_WaitingSocketConnection (c : SshClient) (e : Engine) : Outcome :=
  Done (qCWarning "Unknown data on socket" c) e.

(** Setting the two callbacks and the non-blocking mode only configures the
    engine; the result of reading the known-hosts file is not looked at.
    [Q_ASSERT(m_knownHosts)] is taken as in a debug build; the build with
    [QT_NO_DEBUG] is in [case_Initialize_in]. *)
Definition case_Initialize (c : SshClient) (e : Engine) : Step :=
  let '(session, e) := call_session_init_ex e in
  let c := set_session session c in
  if Z.eqb (m_session c) nullptr then
    let c := qCCritical "libssh error during session init" c in
    let c := setSshState Error c in
    let c := socket_disconnectFromHost c in
    Leave (Done c e)
  else
    let '(knownHosts, e) := call_knownhost_init e in
    let c := set_knownHosts knownHosts c in
    if Z.eqb (m_knownHosts c) nullptr then Leave Fault
    else
      let c := if negb (Nat.eqb (String.length (m_knowhostFiles c)) 0)
               then effect (KnownhostReadfile (m_knowhostFiles c)) c
               else c in
      let c := setSshState HandShake c in
      Fallthrough c e.

Definition hostkey_type (type : Z) : KeyType :=
  if Z.eqb type LIBSSH2_HOSTKEY_TYPE_RSA then Rsa
  else if Z.eqb type LIBSSH2_HOSTKEY_TYPE_DSS then Dss
  else UnknownType.

(** The result of [libssh2_knownhost_check] is not looked at. *)
Definition case_HandShake (c : SshClient) (e : Engine) : Step :=
  let '(ret, e) := call_session_handshake e in
  if Z.eqb ret LIBSSH2_ERROR_EAGAIN then Leave (WouldBlock c e)
  else if negb (Z.eqb ret 0) then
    let c := qCCritical "Handshake error" c in
    let c := setSshState Error c in
    let c := socket_disconnectFromHost c in
    Leave (Done c e)
  else
    let '(fingerprint, e) := call_session_hostkey e in
    match fingerprint with
    | None =>
        let c := qCCritical "Fingerprint error" c in
        let c := setSshState Error c in
        let c := socket_disconnectFromHost c in
        Leave (Done c e)
    | Some (key, type) =>
        let '(hash, e) := call_hostkey_hash e in
        let c := set_hostKey (mkSshKey hash key (hostkey_type type)) c in
        let c := setSshState GetAuthenticationMethodes c in
        Fallthrough c e
    end.

Definition case_GetAuthenticationMethodes (c : SshClient) (e : Engine) : Step :=
  if Nat.eqb (List.length (m_authenticationMethodes c)) 0 then
    let '(alist, e) := call_userauth_list e in
    match alist with
    | None =>
        let '(ret, e) := call_session_last_error e in
        if Z.eqb ret LIBSSH2_ERROR_EAGAIN then Leave (WouldBlock c e)
        else
          let c := setSshState Error c in
          let c := socket_disconnectFromHost c in
          Leave (Done c e)
    | Some alist =>
        let c := set_authenticationMethodes (split "," alist) c in
        let c := setSshState Authentication c in
        Fallthrough c e
    end
  else Fallthrough (setSshState Authentication c) e.

(** The [while] loop of the Authentication case (lines 497-555).  It ends
    by [break] or because the list is empty ([LoopEnd]), or leaves the
    handler. *)
Inductive Loop : Type :=
| LoopEnd (c : SshClient) (e : Engine)
| LoopLeave (r : Outcome).

(** The second [if] of the loop body, reached from the top of the body or
    after the publickey block. *)
Definition try_password (again : SshClient -> Engine -> Loop)
           (c : SshClient) (e : Engine) : Loop :=
  match first (m_authenticationMethodes c) with
  | None => LoopLeave Fault
  | Some method =>
      if String.eqb method "password" then
        let '(ret, e) := call_userauth_password_ex e in
        if Z.eqb ret LIBSSH2_ERROR_EAGAIN then LoopLeave (WouldBlock c e)
        else if ret <? 0 then
          let c := qCWarning "Authentication with password failed" c in
          let c := set_authenticationMethodes
                     (removeFirst (m_authenticationMethodes c)) c in
          LoopLeave (Done c e)
        else if Z.eqb ret 0 then LoopEnd (setSshState Ready c) e
        else again c e
      else again c e
  end.

Fixpoint authentication_loop (fuel : nat) (c : SshClient) (e : Engine) : Loop :=
  match fuel with
  | O => LoopLeave OutOfFuel
  | S fuel =>
      if Nat.eqb (List.length (m_authenticationMethodes c)) 0 then LoopEnd c e
      else
        match first (m_authenticationMethodes c) with
        | None => LoopLeave Fault
        | Some method =>
            if String.eqb method "publickey" then
              let '(ret, e) := call_userauth_publickey_frommemory e in
              if Z.eqb ret LIBSSH2_ERROR_EAGAIN then LoopLeave (WouldBlock c e)
              else
                let c := if ret <? 0 then
                           set_authenticationMethodes
                             (removeFirst (m_authenticationMethodes c))
                             (qCWarning "Authentication with publickey failed:" c)
                         else c in
                if Z.eqb ret 0 then
                  LoopEnd (setSshState Ready (qCWarning "Authenticated with publickey" c)) e
                else try_password (authentication_loop fuel) c e
            else try_password (authentication_loop fuel) c e
        end
  end.

Definition case_Authentication (fuel : nat) (c : SshClient) (e : Engine) : Step :=
  match authentication_loop fuel c e with
  | LoopLeave r => Leave r
  | LoopEnd c e =>
      let '(authenticated, e) := call_userauth_authenticated e in
      if negb (Z.eqb authenticated 0) then
        let c := set_connectionTimeout (timer_stop (m_connectionTimeout c)) c in
        let c := set_keepalive (timer_setSingleShot true (m_keepalive c)) c in
        let c := set_keepalive (timer_start 1000 (m_keepalive c)) c in
        let c := setSshState Ready c in
        let c := emit sshReady c in
        Fallthrough c e
      else
        let c := qCWarning "Authentication failed" c in
        let c := setSshState Error c in
        Leave (Done c e)
  end.

Definition case_Ready (c : SshClient) (e : Engine) : Outcome :=
  let '(now, e) := call_currentMSecsSinceEpoch e in
  let c := set_lastProofOfLive now c in
  let c := emit sshDataReceived c in
  Done c e.

Definition case_DisconnectingChannel (c : SshClient) (e : Engine) : Outcome :=
  if Z.of_nat (List.length (m_channels c)) >? 0
  then Done (fold_left (fun c ch => effect (ChannelClose ch) c) (m_channels c) c) e
  else Done (setSshState DisconnectingSession c) e.

(** [libssh2_session_disconnect_ex] is called with [m_session] as it is
    (line 601); the engine answers here whatever the handle, and the call
    with a null session is in [case_DisconnectingSession_in]. *)
Definition case_DisconnectingSession (c : SshClient) (e : Engine) : Step :=
  let '(ret, e) := call_session_disconnect_ex e in
  if Z.eqb ret LIBSSH2_ERROR_EAGAIN then Leave (WouldBlock c e)
  else
    match m_socket c with
    | ConnectedState => Fallthrough (socket_disconnectFromHost c) e
    | _ => Fallthrough (emit sshEvent (setSshState FreeSession c)) e
    end.

Definition case_FreeSession (c : SshClient) (e : Engine) : Outcome :=
  let c := if negb (Z.eqb (m_knownHosts c) nullptr)
           then set_knownHosts nullptr c else c in
  let finish c e :=
    let c := set_session nullptr c in
    let c := emit sshDisconnected c in
    Done (setSshState Unconnected c) e in
  if negb (Z.eqb (m_session c) nullptr) then
    let '(ret, e) := call_session_free e in
    if Z.eqb ret LIBSSH2_ERROR_EAGAIN then WouldBlock c e
    else finish c e
  else finish c e.

Definition case_Error (c : SshClient) (e : Engine) : Outcome :=
  let c := match m_socket c with
           | UnconnectedState => c
           | _ => socket_disconnectFromHost c
           end in
  let c := qCWarning "ssh socket connection error" c in
  Done (emit sshError c) e.

(** The [switch]: enter at the label of the current state and run through
    the blocks that fall through. *)
Definition from_Ready := case_Ready.

Definition from_Authentication (fuel : nat) (c : SshClient) (e : Engine) : Outcome :=
  andThen (case_Authentication fuel c e) from_Ready.

Definition from_GetAuthenticationMethodes (fuel : nat) (c : SshClient) (e : Engine) : Outcome :=
  andThen (case_GetAuthenticationMethodes c e) (from_Authentication fuel).

Definition from_HandShake (fuel : nat) (c : SshClient) (e : Engine) : Outcome :=
  andThen (case_HandShake c e) (from_GetAuthenticationMethodes fuel).

Definition from_Initialize (fuel : nat) (c : SshClient) (e : Engine) : Outcome :=
  andThen (case_Initialize c e) (from_HandShake fuel).

Definition _ssh_processEvent (fuel : nat) (c : SshClient) (e : Engine) : Outcome :=
  match m_sshState c with
  | Unconnected => case_Unconnected c e
  | SocketConnection => andThen (case_SocketConnection c e) case_WaitingSocketConnection
  | WaitingSocketConnection => case_WaitingSocketConnection c e
  | Initialize => from_Initialize fuel c e
  | HandShake => from_HandShake fuel c e
  | GetAuthenticationMethodes => from_GetAuthenticationMethodes fuel c e
  | Authentication => from_Authentication fuel c e
  | Ready => from_Ready c e
  | DisconnectingChannel => case_DisconnectingChannel c e
  | DisconnectingSession => andThen (case_DisconnectingSession c e) case_FreeSession
  | FreeSession => case_FreeSession c e
  | Error => case_Error c e
  end.

(** ** Known hosts (lines 224-252)

    The two library calls are functions of their arguments: the store
    handle, the host name or file name, and for an insertion the key bytes
    and the type mask. *)

Definition LIBSSH2_KNOWNHOST_FILE_OPENSSH : Z := 1.

Section KnownHosts.

Variable libssh2_knownhost_writefile : Z -> string -> Z -> Z.
Variable libssh2_knownhost_add : Z -> string -> list Byte.byte -> Z -> Z.

Definition saveKnownHosts (file : string) (c : SshClient) : bool :=
  let res := Z.eqb (libssh2_knownhost_writefile (m_knownHosts c) file
                      LIBSSH2_KNOWNHOST_FILE_OPENSSH) 0 in
  res.

Definition addKnownHost (hostname : string) (key : SshKey) (c : SshClient) : bool :=
  let typemask := Z.lor LIBSSH2_KNOWNHOST_TYPE_PLAIN LIBSSH2_KNOWNHOST_KEYENC_RAW in
  let add typemask :=
    bool_of_int (libssh2_knownhost_add (m_knownHosts c) hostname
                   (key_bytes key) typemask) in
  match key_type key with
  | Dss => add (Z.lor typemask LIBSSH2_KNOWNHOST_KEY_SSHDSS)
  | Rsa => add (Z.lor typemask LIBSSH2_KNOWNHOST_KEY_SSHRSA)
  | UnknownType => false
  end.

End KnownHosts.

(** ** Runs of several calls *)

(** A sequence of calls on the channel-creation mutex. *)
Inductive ArbiterCall : Type :=
| Acquire (identifier : Z)
| Release (identifier : Z).

Definition arbiter_call (op : ArbiterCall) (c : SshClient) : SshClient :=
  match op with
  | Acquire A => snd (takeChannelCreationMutex A c)
  | Release A => releaseChannelCreationMutex A c
  end.

Definition arbiter_run (ops : list ArbiterCall) (c : SshClient) : SshClient :=
  fold_left (fun c op => arbiter_call op c) ops c.

(** [A] owns the lock: it is taken and [A] is the recorded locker. *)
Definition owns (c : SshClient) (A : Z) : Prop :=
  channelCreationInProgress c = true /\ currentLockerForChannelCreation c = A.

(** The callers' side of the same run: the identities that were told they
    have the lock ([takeChannelCreationMutex] answered true) and have not
    given it back since by a release that the client carried out. *)
Definition holders_after (op : ArbiterCall) (c : SshClient) (holders : list Z)
  : list Z :=
  match op with
  | Acquire A =>
      if fst (takeChannelCreationMutex A c)
      then A :: List.remove Z.eq_dec A holders
      else holders
  | Release A =>
      if Z.eqb (currentLockerForChannelCreation c) A
      then List.remove Z.eq_dec A holders
      else holders
  end.

Fixpoint holders_run (ops : list ArbiterCall) (c : SshClient) (holders : list Z)
  : list Z :=
  match ops with
  | [] => holders
  | op :: ops => holders_run ops (arbiter_call op c) (holders_after op c holders)
  end.

(** The callers that hold the lock are: nobody when the mutex is free, the
    recorded locker when it is taken. *)
Definition arbiter_inv (c : SshClient) (holders : list Z) : Prop :=
  holders = if channelCreationInProgress c
            then [currentLockerForChannelCreation c] else [].

(** Channels unregistering one after the other. *)
Definition unregister_all (order : list Z) (c : SshClient) : SshClient :=
  fold_left (fun c ch => unregisterChannel ch c) order c.

(** The library call with which the step of the current state begins, when
    that call can answer [LIBSSH2_ERROR_EAGAIN]: its answer and the engine
    after it.  In GetAuthenticationMethodes it is the error code asked for
    after [libssh2_userauth_list] gave a null pointer. *)
Definition step_call (c : SshClient) (e : Engine) : option (Z * Engine) :=
  match m_sshState c with
  | HandShake => Some (call_session_handshake e)
  | GetAuthenticationMethodes =>
      if Nat.eqb (List.length (m_authenticationMethodes c)) 0 then
        match call_userauth_list e with
        | (None, e) => Some (call_session_last_error e)
        | (Some _, _) => None
        end
      else None
  | Authentication =>
      match first (m_authenticationMethodes c) with
      | Some method =>
          if String.eqb method "publickey"
          then Some (call_userauth_publickey_frommemory e)
          else if String.eqb method "password"
               then Some (call_userauth_password_ex e)
               else None
      | None => None
      end
  | DisconnectingSession => Some (call_session_disconnect_ex e)
  | FreeSession =>
      if negb (Z.eqb (m_session c) nullptr)
      then Some (call_session_free e) else None
  | _ => None
  end.

(** The step's call answers would-block [n] times in a row; the result is
    the engine after these answers. *)
Fixpoint would_block_times (n : nat) (c : SshClient) (e : Engine) : option Engine :=
  match n with
  | O => Some e
  | S n =>
      match step_call c e with
      | Some (ret, e) =>
          if Z.eqb ret LIBSSH2_ERROR_EAGAIN then would_block_times n c e else None
      | None => None
      end
  end.

(** Two clients that differ at most in the known-hosts handle, which the
    step of FreeSession clears before it frees the session. *)
Definition same_but_knownHosts (c' c : SshClient) : Prop :=
  c' = c \/ (m_sshState c = FreeSession /\ c' = set_knownHosts nullptr c).

(** The handler run again, up to [n] more times, as long as it returns on
    a would-block. *)
Fixpoint retry (fuel n : nat) (c : SshClient) (e : Engine) : Outcome :=
  match _ssh_processEvent fuel c e with
  | WouldBlock c' e' =>
      match n with
      | O => WouldBlock c' e'
      | S n => retry fuel n c' e'
      end
  | r => r
  end.

(** What the event loop delivers to the client without a call of its
    public interface: the queued [sshEvent] or the socket's [readyRead],
    the three notifications of the socket, and the two timers. *)
Inductive Delivery : Type :=
| ProcessEvent
| SocketConnected
| SocketDisconnected
| SocketError
| ConnectionTimeout_timeout
| Keepalive_timeout.

Definition deliver (fuel : nat) (d : Delivery) (c : SshClient) (e : Engine) : Outcome :=
  match d with
  | ProcessEvent => _ssh_processEvent fuel c e
  | SocketConnected => Done (_connection_socketConnected c) e
  | SocketDisconnected => Done (_connection_socketDisconnected c) e
  | SocketError => Done (_connection_socketError c) e
  | ConnectionTimeout_timeout => Done (_connection_socketTimeout c) e
  | Keepalive_timeout => let '(c, e) := _sendKeepAlive c e in Done c e
  end.

(** The state in which a handler leaves the client, when it returns. *)
Definition state_after (r : Outcome) : option SshState :=
  match r with
  | Done c _ | WouldBlock c _ => Some (m_sshState c)
  | Fault | OutOfFuel => None
  end.

(** ** Sample clients and engines *)

(** A client with a session, whose last proof of life is [last]. *)
Definition live_client (last : Z) : SshClient :=
  set_lastProofOfLive last (set_session 1 new_client).

(** An engine whose keepalive probe answers [ret] and advertises [i]
    seconds, at clock time [now]. *)
Definition probe_engine (ret i now : Z) : Engine :=
  mkEngine (sconst 0) (sconst 0) (sconst 0) (sconst None) (sconst [])
           (sconst None) (sconst 0) (sconst 0) (sconst 0) (sconst 0)
           (sconst 0) (sconst 0) (sconst (ret, i)) (sconst now).

(** A client in state [s] with the candidate methods [methodes], a
    session and a known-hosts store. *)
Definition client_in (s : SshState) (methodes : list string) : SshClient :=
  set_authenticationMethodes methodes
    (set_knownHosts 1 (set_session 1 (set_sshState_field s new_client))).

(** A client that tears down with the channels 1, 2 and 3 registered. *)
Definition teardown_client : SshClient :=
  set_channels [1; 2; 3] (client_in DisconnectingChannel []).

(** An engine with scripted answers for the handshake and for the two
    authentication calls (0 after the script), whose
    [libssh2_userauth_authenticated] answers [authenticated]. *)
Definition scripted_engine (handshake publickey password : list Z)
           (authenticated : Z) : Engine :=
  mkEngine (sconst 1) (sconst 1) (sprepend handshake (sconst 0))
           (sconst (Some ([], LIBSSH2_HOSTKEY_TYPE_RSA))) (sconst [])
           (sconst None) (sconst 0)
           (sprepend publickey (sconst 0)) (sprepend password (sconst 0))
           (sconst authenticated) (sconst 0) (sconst 0)
           (sconst (0, 5)) (sconst 0).

(** An engine whose handshake, authentication, disconnect and free calls
    each answer would-block once and 0 afterwards. *)
Definition blocking_engine : Engine :=
  mkEngine (sconst 1) (sconst 1) (scons LIBSSH2_ERROR_EAGAIN (sconst 0))
           (sconst (Some ([], LIBSSH2_HOSTKEY_TYPE_RSA))) (sconst [])
           (sconst None) (sconst 0)
           (scons LIBSSH2_ERROR_EAGAIN (sconst 0))
           (scons LIBSSH2_ERROR_EAGAIN (sconst 0))
           (sconst 1)
           (scons LIBSSH2_ERROR_EAGAIN (sconst 0))
           (scons LIBSSH2_ERROR_EAGAIN (sconst 0))
           (sconst (0, 5)) (sconst 0).

(** ** The rest of the interface *)

(** lines 181-190.  Each [wait.exec()] runs the nested event loop until a
    handler has emitted [sshStateChanged]; what the handlers run in the
    meantime have done to the client is the next function of [execs].  The
    result is nothing when the loop is still waiting after all of them. *)
Fixpoint waitForState (state : SshState) (execs : list (SshClient -> SshClient))
         (c : SshClient) {struct execs} : option (bool * SshClient) :=
  if negb (SshState_eqb (sshState c) Error)
     && negb (SshState_eqb (sshState c) state)
  then match execs with
       | [] => None
       | exec :: execs => waitForState state execs (exec c)
       end
  else Some (SshState_eqb (sshState c) state, c).

(** The calls of the public interface that change the client. *)
Inductive Request : Type :=
| ConnectToHost (user host : string) (port : Z) (methodes : list string)
| DisconnectFromHost
| RegisterChannel (channel : Z)
| UnregisterChannel (channel : Z)
| TakeChannelCreationMutex (identifier : Z)
| ReleaseChannelCreationMutex (identifier : Z)
| SetKownHostFile (file : string).

Definition request (r : Request) (c : SshClient) : SshClient :=
  match r with
  | ConnectToHost user host port methodes =>
      snd (connectToHost user host port methodes c)
  | DisconnectFromHost => disconnectFromHost c
  | RegisterChannel channel => registerChannel channel c
  | UnregisterChannel channel => unregisterChannel channel c
  | TakeChannelCreationMutex identifier =>
      snd (takeChannelCreationMutex identifier c)
  | ReleaseChannelCreationMutex identifier =>
      releaseChannelCreationMutex identifier c
  | SetKownHostFile file => setKownHostFile file c
  end.

(** Everything that can happen to a client: a delivery of the event loop
    or a call of the interface. *)
Inductive Input : Type :=
| Delivered (d : Delivery)
| Requested (r : Request).

Definition step (fuel : nat) (i : Input) (c : SshClient) (e : Engine) : Outcome :=
  match i with
  | Delivered d => deliver fuel d c e
  | Requested r => Done (request r c) e
  end.

(** A run: the inputs one after the other, as long as the handlers
    return.  The socket is as the first client has it throughout; the
    runs in which it moves are [run_in]. *)
Fixpoint run (fuel : nat) (inputs : list Input) (c : SshClient) (e : Engine)
  : Outcome :=
  match inputs with
  | [] => Done c e
  | i :: inputs =>
      match step fuel i c e with
      | Done c' e' | WouldBlock c' e' => run fuel inputs c' e'
      | Fault => Fault
      | OutOfFuel => OutOfFuel
      end
  end.

(** The client a handler leaves, when it returns. *)
Definition client_after (r : Outcome) : option SshClient :=
  match r with
  | Done c _ | WouldBlock c _ => Some c
  | Fault | OutOfFuel => None
  end.

(** The states in which the session exists: from the handshake to Ready. *)
Definition session_open (s : SshState) : bool :=
  match s with
  | HandShake | GetAuthenticationMethodes | Authentication | Ready => true
  | _ => false
  end.

(** A candidate that the authentication loop knows. *)
Definition recognized (method : string) : bool :=
  String.eqb method "publickey" || String.eqb method "password".

(** ** What a pass leaves alone *)

(** An effect other than the error signal and the queued process event. *)
Definition quiet (x : Effect) : Prop :=
  x <> Emit sshError /\ x <> Emit sshEvent.

(** The trace of [c'] is the trace of [c] followed by quiet effects. *)
Definition extends_quietly (c c' : SshClient) : Prop :=
  exists added : list Effect,
    trace c' = trace c ++ added /\ Forall quiet added.

(** What the authentication loop leaves alone. *)
Definition loop_frame (c c' : SshClient) : Prop :=
  m_session c' = m_session c /\ m_knownHosts c' = m_knownHosts c
  /\ m_hostKey c' = m_hostKey c
  /\ m_connectionTimeout c' = m_connectionTimeout c
  /\ extends_quietly c c'.

(** The loop, however it ends, keeps [loop_frame]; the state changes only
    when it ends by [break], to Ready. *)
Definition loop_post (c : SshClient) (r : Loop) : Prop :=
  match r with
  | LoopEnd c' _ =>
      loop_frame c c' /\ (m_sshState c' = m_sshState c \/ m_sshState c' = Ready)
  | LoopLeave (Done c' _) | LoopLeave (WouldBlock c' _) =>
      loop_frame c c' /\ m_sshState c' = m_sshState c
  | LoopLeave Fault | LoopLeave OutOfFuel => True
  end.

(** What a pass that began between the handshake and the authentication
    leaves: the handles, a state in which the session is open or Error,
    the connection timer unless Ready was reached, and a trace extended by
    quiet effects. *)
Definition pass_post (c c' : SshClient) : Prop :=
  m_session c' = m_session c /\ m_knownHosts c' = m_knownHosts c
  /\ (session_open (m_sshState c') = true \/ m_sshState c' = Error)
  /\ (timer_active (m_connectionTimeout c')
      = timer_active (m_connectionTimeout c) \/ m_sshState c' = Ready)
  /\ extends_quietly c c'.

(** Every answer of the two authentication calls is zero or negative, as
    the return codes of libssh2 are. *)
Definition nonpositive_answers (e : Engine) : Prop :=
  (forall k : nat, libssh2_userauth_publickey_frommemory e k <= 0)
  /\ (forall k : nat, libssh2_userauth_password_ex e k <= 0).

(** The handler changed neither the state nor the two handles, or it left
    a state that is neither Unconnected nor one with the session open. *)
Definition keeps_handles (c c' : SshClient) : Prop :=
  (m_sshState c' = m_sshState c /\ m_session c' = m_session c
   /\ m_knownHosts c' = m_knownHosts c)
  \/ (m_sshState c' <> Unconnected /\ session_open (m_sshState c') = false).

(** The same, and the connection timer is as it was or running. *)
Definition step_frame (c c' : SshClient) : Prop :=
  keeps_handles c c'
  /\ (m_connectionTimeout c' = m_connectionTimeout c
      \/ timer_active (m_connectionTimeout c') = true).

(** ** What a listener and a caller can rely on *)

(** The state a listener of [sshStateChanged] believes the client to be
    in: the one of the last signal, or [init] when there was none. *)
Fixpoint last_state (init : SshState) (tr : list Effect) : SshState :=
  match tr with
  | [] => init
  | Emit (sshStateChanged s) :: tr => last_state s tr
  | _ :: tr => last_state init tr
  end.

(** No [sshStateChanged] signal repeats the state of the one before it,
    the first one does not carry [init]. *)
Fixpoint changes_only (init : SshState) (tr : list Effect) : Prop :=
  match tr with
  | [] => True
  | Emit (sshStateChanged s) :: tr => s <> init /\ changes_only s tr
  | _ :: tr => changes_only init tr
  end.

Definition signals_state (c : SshClient) : Prop :=
  last_state Unconnected (trace c) = m_sshState c
  /\ changes_only Unconnected (trace c).

(** What belongs to the callers: the lock and its owner, the registry, the
    target of the connection and the known-hosts file name. *)
Definition caller_frame (c c' : SshClient) : Prop :=
  channelCreationInProgress c' = channelCreationInProgress c
  /\ currentLockerForChannelCreation c' = currentLockerForChannelCreation c
  /\ m_channels c' = m_channels c
  /\ m_hostname c' = m_hostname c /\ m_port c' = m_port c
  /\ m_username c' = m_username c
  /\ m_knowhostFiles c' = m_knowhostFiles c.

(** [c'] was obtained from [c] without touching what belongs to the
    callers and with every state change signalled. *)
Definition kept (c c' : SshClient) : Prop :=
  caller_frame c c' /\ (signals_state c -> signals_state c').

(** An effect that is not a state-change signal. *)
Definition not_state_signal (x : Effect) : Prop :=
  forall s : SshState, x <> Emit (sshStateChanged s).

Definition outcome_kept (c : SshClient) (r : Outcome) : Prop :=
  match client_after r with
  | Some c' => kept c c'
  | None => True
  end.

Definition step_kept (c : SshClient) (s : Step) : Prop :=
  match s with
  | Fallthrough c' _ => kept c c'
  | Leave r => outcome_kept c r
  end.

Definition loop_kept (c : SshClient) (l : Loop) : Prop :=
  match l with
  | LoopEnd c' _ => kept c c'
  | LoopLeave r => outcome_kept c r
  end.

(** ** The handlers in their environment

    The handlers above record the commands they send to the socket and go
    on; they are what each function of sshclient.cpp does by itself.  What
    follows puts them where they run.

    - The socket reacts inside the call.  [QTcpSocket::connected],
      [QTcpSocket::disconnected] and [QAbstractSocket::error] are connected
      to their slots without [Qt::QueuedConnection] (lines 64-67), so a
      slot runs before [m_socket.disconnectFromHost()] or
      [m_socket.connectToHost()] returns when the socket emits its signal
      there.
    - [Q_ASSERT] expands to nothing when the program is compiled with
      [QT_NO_DEBUG].
    - libssh2 reads through the handle it is given: a call with a null
      session or a null known-hosts collection is a [Fault]. *)

(** The signal the socket emitted inside [m_socket.connectToHost()]. *)
Inductive Emitted : Type :=
| NoSignal
| ErrorSignal
| ConnectedSignal.

(** What the sources do not decide.  [bytesToWrite] tells whether the
    socket still has bytes to write when it is asked to disconnect, and
    [connectToHost_reaction] the state in which [m_socket.connectToHost()]
    leaves the socket and the signal emitted inside that call; both are
    functions of the client at that moment, whose trace holds everything
    that happened before, so that they can answer differently each time.
    [QT_NO_DEBUG] is the build. *)
Record World : Type := mkWorld {
  bytesToWrite : SshClient -> bool;
  connectToHost_reaction : SshClient -> SocketState * Emitted;
  QT_NO_DEBUG : bool
}.

(** [m_socket.disconnectFromHost()] with the socket's reaction.
    [QAbstractSocket] is part of Qt and not among the sources; this is its
    documented behaviour.  An unconnected socket does nothing; one that is
    looking up the host or connecting notes the request and returns; any
    other enters ClosingState and, when nothing is left to write, goes on
    to UnconnectedState and emits [disconnected()], whose slot runs
    here. *)
Definition socket_disconnectFromHost_in (w : World) (c : SshClient) : SshClient :=
  let c := socket_disconnectFromHost c in
  match m_socket c with
  | UnconnectedState | HostLookupState | ConnectingState => c
  | _ =>
      if bytesToWrite w c then set_socket ClosingState c
      else _connection_socketDisconnected (set_socket UnconnectedState c)
  end.

(** [m_socket.connectToHost(m_hostname, m_port)] with the socket's
    reaction, which is left to the world. *)
Definition socket_connectToHost_in (w : World) (c : SshClient) : SshClient :=
  let c := effect (SocketConnectToHost (m_hostname c) (m_port c)) c in
  let '(state, emitted) := connectToHost_reaction w c in
  let c := set_socket state c in
  match emitted with
  | NoSignal => c
  | ErrorSignal => _connection_socketError c
  | ConnectedSignal => _connection_socketConnected c
  end.

(** lines 259-282 *)
Definition _sendKeepAlive_in (w : World) (c : SshClient) (e : Engine)
  : SshClient * Engine :=
  if negb (Z.eqb (m_session c) nullptr) then
    let '((ret, keepalive), e) := call_keepalive_send e in
    if Z.eqb ret LIBSSH2_ERROR_SOCKET_SEND then
      (socket_disconnectFromHost_in w (qCWarning "Connection I/O error !!!" c), e)
    else
      let '(now, e) := call_currentMSecsSinceEpoch e in
      if Z.quot (int64 (now - m_lastProofOfLive c)) 1000
         >? int32 (MAX_LOST_KEEP_ALIVE * keepalive)
      then (socket_disconnectFromHost_in w (qCWarning "Connection lost !!!" c), e)
      else
        let keepalive := int32 (keepalive - 1) in
        let keepalive := if keepalive <? 2 then 2 else keepalive in
        (set_keepalive (timer_start (int32 (keepalive * 1000)) (m_keepalive c)) c, e)
  else (c, e).

(** lines 333-339 *)
Definition _connection_socketTimeout_in (w : World) (c : SshClient) : SshClient :=
  let c := socket_disconnectFromHost_in w c in
  let c := qCWarning "ssh socket connection timeout" c in
  let c := setSshState Error c in
  emit sshEvent c.

(** lines 383-388 *)
Definition case_SocketConnection_in (w : World) (c : SshClient) (e : Engine) : Step :=
  let c := set_connectionTimeout
             (timer_start ConnectionTimeout (m_connectionTimeout c)) c in
  let c := socket_connectToHost_in w c in
  let c := setSshState WaitingSocketConnection c in
  Fallthrough c e.

(** lines 396-420.  With [QT_NO_DEBUG] the handler goes on after a null
    [libssh2_knownhost_init]; [libssh2_knownhost_readfile] is then called
    with the null collection when a file name is set. *)
Definition case_Initialize_in (w : World) (c : SshClient) (e : Engine) : Step :=
  let '(session, e) := call_session_init_ex e in
  let c := set_session session c in
  if Z.eqb (m_session c) nullptr then
    let c := qCCritical "libssh error during session init" c in
    let c := setSshState Error c in
    let c := socket_disconnectFromHost_in w c in
    Leave (Done c e)
  else
    let '(knownHosts, e) := call_knownhost_init e in
    let c := set_knownHosts knownHosts c in
    if Z.eqb (m_knownHosts c) nullptr && negb (QT_NO_DEBUG w) then Leave Fault
    else if negb (Nat.eqb (String.length (m_knowhostFiles c)) 0) then
      if Z.eqb (m_knownHosts c) nullptr then Leave Fault
      else
        let c := effect (KnownhostReadfile (m_knowhostFiles c)) c in
        Fallthrough (setSshState HandShake c) e
    else Fallthrough (setSshState HandShake c) e.

(** lines 422-466.  [libssh2_knownhost_check] is called with
    [m_knownHosts] after the host key was stored. *)
Definition case_HandShake_in (w : World) (c : SshClient) (e : Engine) : Step :=
  if Z.eqb (m_session c) nullptr then Leave Fault
  else
    let '(ret, e) := call_session_handshake e in
    if Z.eqb ret LIBSSH2_ERROR_EAGAIN then Leave (WouldBlock c e)
    else if negb (Z.eqb ret 0) then
      let c := qCCritical "Handshake error" c in
      let c := setSshState Error c in
      let c := socket_disconnectFromHost_in w c in
      Leave (Done c e)
    else
      let '(fingerprint, e) := call_session_hostkey e in
      match fingerprint with
      | None =>
          let c := qCCritical "Fingerprint error" c in
          let c := setSshState Error c in
          let c := socket_disconnectFromHost_in w c in
          Leave (Done c e)
      | Some (key, type) =>
          let '(hash, e) := call_hostkey_hash e in
          let c := set_hostKey (mkSshKey hash key (hostkey_type type)) c in
          if Z.eqb (m_knownHosts c) nullptr then Leave Fault
          else Fallthrough (setSshState GetAuthenticationMethodes c) e
      end.

(** lines 468-493 *)
Definition case_GetAuthenticationMethodes_in (w : World) (c : SshClient)
           (e : Engine) : Step :=
  if Nat.eqb (List.length (m_authenticationMethodes c)) 0 then
    if Z.eqb (m_session c) nullptr then Leave Fault
    else
      let '(alist, e) := call_userauth_list e in
      match alist with
      | None =>
          let '(ret, e) := call_session_last_error e in
          if Z.eqb ret LIBSSH2_ERROR_EAGAIN then Leave (WouldBlock c e)
          else
            let c := setSshState Error c in
            let c := socket_disconnectFromHost_in w c in
            Leave (Done c e)
      | Some alist =>
          let c := set_authenticationMethodes (split "," alist) c in
          let c := setSshState Authentication c in
          Fallthrough c e
      end
  else Fallthrough (setSshState Authentication c) e.

(** lines 495-573.  The case sends the socket no command.  With a null
    session the first call of the library is a [Fault]: the attempt for a
    first candidate that the loop knows, or
    [libssh2_userauth_authenticated] when the list is empty; on a
    candidate it does not know the loop makes no call. *)
Definition case_Authentication_in (fuel : nat) (c : SshClient) (e : Engine) : Step :=
  if Z.eqb (m_session c) nullptr then
    match first (m_authenticationMethodes c) with
    | Some method =>
        if recognized method then Leave Fault else case_Authentication fuel c e
    | None => Leave Fault
    end
  else case_Authentication fuel c e.

(** lines 599-615 *)
Definition case_DisconnectingSession_in (w : World) (c : SshClient) (e : Engine)
  : Step :=
  if Z.eqb (m_session c) nullptr then Leave Fault
  else
    let '(ret, e) := call_session_disconnect_ex e in
    if Z.eqb ret LIBSSH2_ERROR_EAGAIN then Leave (WouldBlock c e)
    else
      match m_socket c with
      | ConnectedState => Fallthrough (socket_disconnectFromHost_in w c) e
      | _ => Fallthrough (emit sshEvent (setSshState FreeSession c)) e
      end.

(** lines 640-647 *)
Definition case_Error_in (w : World) (c : SshClient) (e : Engine) : Outcome :=
  let c := match m_socket c with
           | UnconnectedState => c
           | _ => socket_disconnectFromHost_in w c
           end in
  let c := qCWarning "ssh socket connection error" c in
  Done (emit sshError c) e.

Definition from_Authentication_in (fuel : nat) (c : SshClient) (e : Engine)
  : Outcome :=
  andThen (case_Authentication_in fuel c e) from_Ready.

Definition from_GetAuthenticationMethodes_in (w : World) (fuel : nat)
           (c : SshClient) (e : Engine) : Outcome :=
  andThen (case_GetAuthenticationMethodes_in w c e) (from_Authentication_in fuel).

Definition from_HandShake_in (w : World) (fuel : nat) (c : SshClient) (e : Engine)
  : Outcome :=
  andThen (case_HandShake_in w c e) (from_GetAuthenticationMethodes_in w fuel).

Definition from_Initialize_in (w : World) (fuel : nat) (c : SshClient) (e : Engine)
  : Outcome :=
  andThen (case_Initialize_in w c e) (from_HandShake_in w fuel).

Definition _ssh_processEvent_in (w : World) (fuel : nat) (c : SshClient)
           (e : Engine) : Outcome :=
  match m_sshState c with
  | Unconnected => case_Unconnected c e
  | SocketConnection =>
      andThen (case_SocketConnection_in w c e) case_WaitingSocketConnection
  | WaitingSocketConnection => case_WaitingSocketConnection c e
  | Initialize => from_Initialize_in w fuel c e
  | HandShake => from_HandShake_in w fuel c e
  | GetAuthenticationMethodes => from_GetAuthenticationMethodes_in w fuel c e
  | Authentication => from_Authentication_in fuel c e
  | Ready => from_Ready c e
  | DisconnectingChannel => case_DisconnectingChannel c e
  | DisconnectingSession =>
      andThen (case_DisconnectingSession_in w c e) case_FreeSession
  | FreeSession => case_FreeSession c e
  | Error => case_Error_in w c e
  end.

(** A delivery of the event loop.  The socket is in ConnectedState when
    it emits [connected()] and in UnconnectedState when it emits
    [disconnected()]. *)
Definition deliver_in (w : World) (fuel : nat) (d : Delivery) (c : SshClient)
           (e : Engine) : Outcome :=
  match d with
  | ProcessEvent => _ssh_processEvent_in w fuel c e
  | SocketConnected =>
      Done (_connection_socketConnected (set_socket ConnectedState c)) e
  | SocketDisconnected =>
      Done (_connection_socketDisconnected (set_socket UnconnectedState c)) e
  | SocketError => Done (_connection_socketError c) e
  | ConnectionTimeout_timeout => Done (_connection_socketTimeout_in w c) e
  | Keepalive_timeout => let '(c, e) := _sendKeepAlive_in w c e in Done c e
  end.

(** Everything that can happen to a client: a delivery, a call of the
    interface, or the socket changing its state by itself between two
    handlers (the host is found, the connection is under way, the last
    bytes are written, an error closes it). *)
Inductive Event : Type :=
| Handled (i : Input)
| SocketState_changed (s : SocketState).

Definition step_in (w : World) (fuel : nat) (ev : Event) (c : SshClient)
           (e : Engine) : Outcome :=
  match ev with
  | Handled (Delivered d) => deliver_in w fuel d c e
  | Handled (Requested r) => Done (request r c) e
  | SocketState_changed s => Done (set_socket s c) e
  end.

Fixpoint run_in (w : World) (fuel : nat) (events : list Event) (c : SshClient)
         (e : Engine) : Outcome :=
  match events with
  | [] => Done c e
  | ev :: events =>
      match step_in w fuel ev c e with
      | Done c' e' | WouldBlock c' e' => run_in w fuel events c' e'
      | Fault => Fault
      | OutOfFuel => OutOfFuel
      end
  end.

(** The socket emits [disconnected()] inside a [disconnectFromHost()]
    called on the client [c]. *)
Definition closes_at_once (w : World) (c : SshClient) : bool :=
  match m_socket c with
  | UnconnectedState | HostLookupState | ConnectingState => false
  | _ => negb (bytesToWrite w (socket_disconnectFromHost c))
  end.

(** The socket is unconnected, looking up the host or connecting: asked
    to disconnect, it emits nothing. *)
Definition socket_idle (c : SshClient) : Prop :=
  m_socket c = UnconnectedState \/ m_socket c = HostLookupState
  \/ m_socket c = ConnectingState.

(** A world whose socket has nothing left to write and starts a lookup
    when asked to connect, in a debug build. *)
Definition prompt_world : World :=
  mkWorld (fun _ => false) (fun _ => (HostLookupState, NoSignal)) false.

(** A client in state [s] as [client_in], on a connected socket. *)
Definition connected_client (s : SshState) (methodes : list string) : SshClient :=
  set_socket ConnectedState (client_in s methodes).

(** What a pass that began between Initialize and Authentication leaves,
    with the socket reacting: the session open, or Error, or FreeSession
    when the socket's [disconnected()] slot ran inside the pass; no
    [sshError] among the effects it added, and a process event queued
    exactly when it ends in FreeSession. *)
Definition pass_post_in (c c' : SshClient) : Prop :=
  (session_open (m_sshState c') = true
   \/ m_sshState c' = Error \/ m_sshState c' = FreeSession)
  /\ exists added : list Effect,
       trace c' = trace c ++ added
       /\ ~ In (Emit sshError) added
       /\ (In (Emit sshEvent) added <-> m_sshState c' = FreeSession).

(** The handles and the state, with the socket reacting and in either
    build: both handles are null in state Unconnected; while the session
    is open the session handle is not null, and the known-hosts handle is
    not null either, except in HandShake in a build without [Q_ASSERT]. *)
Definition handles_inv_in (w : World) (c : SshClient) : Prop :=
  (m_sshState c = Unconnected ->
   m_session c = nullptr /\ m_knownHosts c = nullptr)
  /\ (session_open (m_sshState c) = true -> m_session c <> nullptr)
  /\ (session_open (m_sshState c) = true ->
      QT_NO_DEBUG w = false \/ m_sshState c <> HandShake ->
      m_knownHosts c <> nullptr).

(** The two handles are the same in [c] and [c']. *)
Definition same_handles (c c' : SshClient) : Prop :=
  m_session c' = m_session c /\ m_knownHosts c' = m_knownHosts c.

(** The world of [prompt_world] in a build with [QT_NO_DEBUG]. *)
Definition release_world : World :=
  mkWorld (fun _ => false) (fun _ => (HostLookupState, NoSignal)) true.

(** An engine that has no memory left for the known-hosts collection and
    whose handshake would block. *)
Definition starved_engine : Engine :=
  mkEngine (sconst 1) (sconst 0) (sconst LIBSSH2_ERROR_EAGAIN)
           (sconst None) (sconst []) (sconst None) (sconst 0)
           (sconst 0) (sconst 0) (sconst 0) (sconst 0) (sconst 0)
           (sconst (0, 5)) (sconst 0).

(** * Properties *)

(** ** Basic facts on the model *)

Lemma wrap_signed_small (bits z : Z) :
  0 < bits -> - 2 ^ (bits - 1) <= z < 2 ^ (bits - 1) -> wrap_signed bits z = z.
Proof.
  intros Hb Hz. unfold wrap_signed.
  assert (Hp : 2 ^ bits = 2 * 2 ^ (bits - 1)).
  { replace bits with (Z.succ (bits - 1)) at 1 by lia.
    rewrite Z.pow_succ_r by lia. reflexivity. }
  rewrite Z.mod_small by lia. lia.
Qed.

Lemma int32_small (z : Z) : - 2 ^ 31 <= z <= INT_MAX -> int32 z = z.
Proof.
  intros H. unfold int32. apply wrap_signed_small; [lia|].
  unfold INT_MAX in H. simpl (32 - 1). lia.
Qed.

Lemma int64_small (z : Z) : - 2 ^ 63 <= z < 2 ^ 63 -> int64 z = z.
Proof.
  intros H. unfold int64. apply wrap_signed_small; [lia|].
  simpl (64 - 1). lia.
Qed.

Lemma SshState_eqb_eq (a b : SshState) : SshState_eqb a b = true <-> a = b.
Proof.
  split.
  - destruct a, b; simpl; intros H; try reflexivity; discriminate H.
  - intros ->. destruct b; reflexivity.
Qed.

Lemma SshState_eqb_neq (a b : SshState) : SshState_eqb a b = false <-> a <> b.
Proof.
  split.
  - intros H Heq. apply SshState_eqb_eq in Heq. congruence.
  - intros H. destruct (SshState_eqb a b) eqn:E; [|reflexivity].
    apply SshState_eqb_eq in E. contradiction.
Qed.

Lemma setSshState_state (s : SshState) (c : SshClient) :
  m_sshState (setSshState s c) = s.
Proof.
  unfold setSshState. destruct (SshState_eqb (m_sshState c) s) eqn:E; simpl.
  - apply SshState_eqb_eq in E. exact E.
  - destruct c; reflexivity.
Qed.

(** [setSshState] touches the state and the trace only. *)
Lemma setSshState_frame (s : SshState) (c : SshClient) :
  let c' := setSshState s c in
  m_authenticationMethodes c' = m_authenticationMethodes c
  /\ m_hostname c' = m_hostname c /\ m_port c' = m_port c
  /\ m_username c' = m_username c /\ m_channels c' = m_channels c
  /\ m_keepalive c' = m_keepalive c /\ m_session c' = m_session c.
Proof.
  unfold setSshState. destruct (negb (SshState_eqb (m_sshState c) s));
    destruct c; simpl; repeat split; reflexivity.
Qed.

(** Effects leave the state alone. *)
Lemma effect_state (x : Effect) (c : SshClient) :
  m_sshState (effect x c) = m_sshState c.
Proof. destruct c; reflexivity. Qed.

Lemma emit_state (s : Signal) (c : SshClient) :
  m_sshState (emit s c) = m_sshState c.
Proof. apply effect_state. Qed.

Lemma qCWarning_state (msg : string) (c : SshClient) :
  m_sshState (qCWarning msg c) = m_sshState c.
Proof. apply effect_state. Qed.

Lemma qCCritical_state (msg : string) (c : SshClient) :
  m_sshState (qCCritical msg c) = m_sshState c.
Proof. apply effect_state. Qed.

Lemma socket_disconnectFromHost_state (c : SshClient) :
  m_sshState (socket_disconnectFromHost c) = m_sshState c.
Proof. apply effect_state. Qed.

Create Rewrite HintDb session_state.
#[local] Hint Rewrite setSshState_state emit_state qCWarning_state
  qCCritical_state socket_disconnectFromHost_state effect_state : session_state.

(** The state a handler leaves, by rewriting through the setters above. *)
Ltac state_of_handler := simpl; autorewrite with session_state; try reflexivity.

(** ** Where the socket does not react

    On a socket that is unconnected, looking up the host or connecting,
    [m_socket.disconnectFromHost()] emits nothing, and the handlers in
    their environment are the handlers as written. *)

Lemma socket_disconnectFromHost_in_idle (w : World) (c : SshClient) :
  socket_idle c ->
  socket_disconnectFromHost_in w c = socket_disconnectFromHost c.
Proof.
  intros H. unfold socket_disconnectFromHost_in.
  replace (m_socket (socket_disconnectFromHost c)) with (m_socket c)
    by (destruct c; reflexivity).
  destruct H as [H|[H|H]]; rewrite H; reflexivity.
Qed.

Lemma sendKeepAlive_in_idle (w : World) (c : SshClient) (e : Engine) :
  socket_idle c -> _sendKeepAlive_in w c e = _sendKeepAlive c e.
Proof.
  intros H. unfold _sendKeepAlive_in, _sendKeepAlive.
  assert (Hw : forall msg : string,
             socket_disconnectFromHost_in w (qCWarning msg c)
             = socket_disconnectFromHost (qCWarning msg c)).
  { intros msg. apply socket_disconnectFromHost_in_idle.
    unfold socket_idle. destruct c; exact H. }
  rewrite !Hw. reflexivity.
Qed.

Lemma case_Error_in_idle (w : World) (c : SshClient) (e : Engine) :
  socket_idle c -> case_Error_in w c e = case_Error c e.
Proof.
  intros H. unfold case_Error_in, case_Error.
  rewrite (socket_disconnectFromHost_in_idle w c H). reflexivity.
Qed.

(** ** C3: connectToHost *)

(** C3, as the code has it: [connectToHost] returns 0 whether or not the
    request is accepted.  In a state other than Unconnected it only logs a
    critical line: host name, port, user name, method list and session
    state are unchanged.  In state Unconnected it stores the four
    parameters, moves the state to SocketConnection and queues an
    [sshEvent]. *)
Theorem connectToHost_contract :
  forall (user host : string) (port : Z) (methodes : list string) (c : SshClient),
    let r := connectToHost user host port methodes c in
    fst r = 0
    /\ (m_sshState c <> Unconnected ->
        snd r = qCCritical "Allready connected" c
        /\ m_hostname (snd r) = m_hostname c
        /\ m_port (snd r) = m_port c
        /\ m_username (snd r) = m_username c
        /\ m_authenticationMethodes (snd r) = m_authenticationMethodes c
        /\ m_sshState (snd r) = m_sshState c)
    /\ (m_sshState c = Unconnected ->
        m_hostname (snd r) = host
        /\ m_port (snd r) = port
        /\ m_username (snd r) = user
        /\ m_authenticationMethodes (snd r) = methodes
        /\ m_sshState (snd r) = SocketConnection
        /\ trace (snd r)
           = trace c ++ [Emit (sshStateChanged SocketConnection); Emit sshEvent]).
Proof.
  intros user host port methodes c r. subst r. unfold connectToHost, sshState.
  destruct (SshState_eqb (m_sshState c) Unconnected) eqn:E; simpl.
  - apply SshState_eqb_eq in E. split; [reflexivity|]. split.
    + intros H. contradiction.
    + intros _. destruct c; simpl in *. subst.
      cbn. rewrite <- app_assoc. repeat split; reflexivity.
  - apply SshState_eqb_neq in E. split; [reflexivity|]. split.
    + intros _. destruct c; simpl. repeat split; reflexivity.
    + intros H. contradiction.
Qed.

Lemma connectToHost_contract_witness :
  let c := set_sshState_field Ready new_client in
  m_sshState c <> Unconnected
  /\ snd (connectToHost "user" "host" 22 ["password"] c)
     = qCCritical "Allready connected" c
  /\ m_sshState (snd (connectToHost "user" "host" 22 ["password"] new_client))
     = SocketConnection.
Proof.
  intros c.
  assert (Hc : m_sshState c <> Unconnected) by (subst c; simpl; discriminate).
  split; [exact Hc|]. split.
  - apply (connectToHost_contract "user" "host" 22 ["password"] c). exact Hc.
  - apply (connectToHost_contract "user" "host" 22 ["password"] new_client).
    reflexivity.
Defined.

(** C3, as the claim has it, fails: the value returned to a rejected
    request (state Ready) is the value returned to an accepted one. *)
Lemma connectToHost_indication_not_distinct :
  m_sshState (set_sshState_field Ready new_client) <> Unconnected
  /\ m_sshState new_client = Unconnected
  /\ fst (connectToHost "user" "host" 22 [] (set_sshState_field Ready new_client))
     = fst (connectToHost "user" "host" 22 [] new_client).
Proof.
  split; [simpl; discriminate|]. split; reflexivity.
Qed.

(** ** C6: disconnectFromHost *)

(** C6: [disconnectFromHost] changes nothing in state Unconnected (so
    calling it again changes nothing either); in any other state it moves
    the state to DisconnectingSession when no channel is registered and to
    DisconnectingChannel when at least one is. *)
Theorem disconnectFromHost_contract :
  forall c : SshClient,
    (m_sshState c = Unconnected ->
     disconnectFromHost c = c
     /\ disconnectFromHost (disconnectFromHost c) = disconnectFromHost c)
    /\ (m_sshState c <> Unconnected -> m_channels c = [] ->
        m_sshState (disconnectFromHost c) = DisconnectingSession)
    /\ (m_sshState c <> Unconnected -> m_channels c <> [] ->
        m_sshState (disconnectFromHost c) = DisconnectingChannel).
Proof.
  intros c. unfold disconnectFromHost.
  destruct (SshState_eqb (m_sshState c) Unconnected) eqn:E.
  - apply SshState_eqb_eq in E. split; [|split].
    + intros _. rewrite E. simpl. split; reflexivity.
    + intros H. contradiction.
    + intros H. contradiction.
  - split; [|split].
    + intros H. apply SshState_eqb_neq in E. contradiction.
    + intros _ Hch. rewrite Hch. simpl.
      pose proof (setSshState_state DisconnectingSession c) as Hs.
      destruct (setSshState DisconnectingSession c); simpl in *. exact Hs.
    + intros _ Hch. destruct (m_channels c) as [|ch chs] eqn:Ech; [congruence|].
      simpl.
      pose proof (setSshState_state DisconnectingChannel c) as Hs.
      destruct (setSshState DisconnectingChannel c); simpl in *. exact Hs.
Qed.

Lemma disconnectFromHost_contract_witness :
  disconnectFromHost new_client = new_client
  /\ m_sshState (disconnectFromHost (set_sshState_field Ready new_client))
     = DisconnectingSession
  /\ m_sshState (disconnectFromHost
                   (registerChannel 7 (set_sshState_field Ready new_client)))
     = DisconnectingChannel.
Proof.
  split; [|split].
  - apply (disconnectFromHost_contract new_client). reflexivity.
  - apply (disconnectFromHost_contract (set_sshState_field Ready new_client)).
    + simpl. discriminate.
    + reflexivity.
  - apply (disconnectFromHost_contract
             (registerChannel 7 (set_sshState_field Ready new_client))).
    + simpl. discriminate.
    + simpl. discriminate.
Defined.

(** ** C10: known hosts *)

(** C10: for a key of type Rsa or Dss, [addKnownHost] returns the result of
    [libssh2_knownhost_add] converted to [bool]: false when the library
    returns 0 (entry inserted) and true when it returns anything else
    (failure).  [saveKnownHosts] has the opposite polarity: it returns true
    exactly when [libssh2_knownhost_writefile] returns 0. *)
Theorem addKnownHost_polarity :
  forall (writefile : Z -> string -> Z -> Z)
         (add : Z -> string -> list Byte.byte -> Z -> Z)
         (hostname file : string) (key : SshKey) (c : SshClient),
    key_type key <> UnknownType ->
    let typemask :=
      Z.lor (Z.lor LIBSSH2_KNOWNHOST_TYPE_PLAIN LIBSSH2_KNOWNHOST_KEYENC_RAW)
            (match key_type key with
             | Dss => LIBSSH2_KNOWNHOST_KEY_SSHDSS
             | _ => LIBSSH2_KNOWNHOST_KEY_SSHRSA
             end) in
    let added := add (m_knownHosts c) hostname (key_bytes key) typemask in
    let written :=
      writefile (m_knownHosts c) file LIBSSH2_KNOWNHOST_FILE_OPENSSH in
    addKnownHost add hostname key c = bool_of_int added
    /\ (added = 0 -> addKnownHost add hostname key c = false)
    /\ (added <> 0 -> addKnownHost add hostname key c = true)
    /\ (saveKnownHosts writefile file c = true <-> written = 0).
Proof.
  intros writefile add hostname file key c Hkey typemask added written.
  assert (Hadd : addKnownHost add hostname key c = bool_of_int added).
  { unfold addKnownHost. subst added typemask.
    destruct (key_type key); [contradiction| reflexivity | reflexivity]. }
  split; [exact Hadd|]. rewrite Hadd. unfold bool_of_int.
  split; [|split].
  - intros ->. reflexivity.
  - intros H. apply Z.eqb_neq in H. rewrite H. reflexivity.
  - unfold saveKnownHosts. fold written. apply Z.eqb_eq.
Qed.

Lemma addKnownHost_polarity_witness :
  let key := mkSshKey [] [] Rsa in
  addKnownHost (fun _ _ _ _ => 0) "host" key new_client = false
  /\ addKnownHost (fun _ _ _ _ => -1) "host" key new_client = true
  /\ saveKnownHosts (fun _ _ _ => 0) "known_hosts" new_client = true.
Proof.
  intros key.
  assert (Hkey : key_type key <> UnknownType) by (subst key; simpl; discriminate).
  destruct (addKnownHost_polarity (fun _ _ _ => 0) (fun _ _ _ _ => 0)
              "host" "known_hosts" key new_client Hkey) as (_ & Hins & _ & Hsave).
  destruct (addKnownHost_polarity (fun _ _ _ => 0) (fun _ _ _ _ => -1)
              "host" "known_hosts" key new_client Hkey) as (_ & _ & Hfail & _).
  split; [|split].
  - apply Hins. reflexivity.
  - apply Hfail. discriminate.
  - apply Hsave. reflexivity.
Defined.

(** ** C4: the keepalive probe *)

(** C4: the session exists, the probe is sent without
    [LIBSSH2_ERROR_SOCKET_SEND], the engine advertises an interval of
    [i > 0] seconds, and the elapsed whole seconds are
    [(now - m_lastProofOfLive) / 1000].  Then the transport is
    disconnected exactly when the elapsed seconds exceed [6 * i], and
    otherwise the keepalive timer is started again at [max (i - 1) 2]
    seconds; so [6 * i + 1] elapsed seconds disconnect, [6 * i - 1]
    reschedule, and [i <= 3] gives 2 seconds.  The code computes in
    machine integers: the difference of the two timestamps is taken as a
    [qint64] and the delay in milliseconds as an [int], and the statement
    is for the values that fit them. *)
Theorem sendKeepAlive_deadline :
  forall (c : SshClient) (e : Engine) (ret i now : Z),
    m_session c <> nullptr ->
    shd (libssh2_keepalive_send e) = (ret, i) ->
    ret <> LIBSSH2_ERROR_SOCKET_SEND ->
    shd (currentMSecsSinceEpoch e) = now ->
    0 < i -> 1000 * (i - 1) <= INT_MAX ->
    - 2 ^ 63 <= now - m_lastProofOfLive c < 2 ^ 63 ->
    let elapsed := Z.quot (now - m_lastProofOfLive c) 1000 in
    let c' := fst (_sendKeepAlive c e) in
    (elapsed > MAX_LOST_KEEP_ALIVE * i ->
     c' = socket_disconnectFromHost (qCWarning "Connection lost !!!" c))
    /\ (elapsed <= MAX_LOST_KEEP_ALIVE * i ->
        c' = set_keepalive
               (timer_start (1000 * Z.max (i - 1) 2) (m_keepalive c)) c)
    /\ (In SocketDisconnectFromHost (trace c') <->
        In SocketDisconnectFromHost (trace c) \/ elapsed > MAX_LOST_KEEP_ALIVE * i)
    /\ (elapsed = 6 * i + 1 -> trace c' =
          trace c ++ [Warning "Connection lost !!!"; SocketDisconnectFromHost])
    /\ (elapsed = 6 * i - 1 ->
        trace c' = trace c /\ timer_active (m_keepalive c') = true
        /\ timer_interval (m_keepalive c') = 1000 * Z.max (i - 1) 2)
    /\ (elapsed <= MAX_LOST_KEEP_ALIVE * i -> i <= 3 ->
        timer_interval (m_keepalive c') = 2000).
Proof.
  intros c e ret i now Hs Hsend Hret Hnow Hi Hfit Hdiff elapsed c'.
  unfold INT_MAX in Hfit.
  assert (Hlost : elapsed > MAX_LOST_KEEP_ALIVE * i ->
                  c' = socket_disconnectFromHost (qCWarning "Connection lost !!!" c)).
  { intros Hgt. subst c'. unfold _sendKeepAlive.
    apply Z.eqb_neq in Hs. rewrite Hs. simpl negb. cbv iota.
    destruct e; simpl in Hsend, Hnow. unfold call_keepalive_send.
    rewrite Hsend. apply Z.eqb_neq in Hret. rewrite Hret.
    unfold call_currentMSecsSinceEpoch. rewrite Hnow.
    rewrite int64_small by lia.
    unfold MAX_LOST_KEEP_ALIVE in *. rewrite int32_small by (unfold INT_MAX; lia).
    fold elapsed.
    destruct (elapsed >? 6 * i) eqn:E; [reflexivity|].
    rewrite Z.gtb_ltb in E. apply Z.ltb_ge in E. lia. }
  assert (Hkeep : elapsed <= MAX_LOST_KEEP_ALIVE * i ->
                  c' = set_keepalive
                         (timer_start (1000 * Z.max (i - 1) 2) (m_keepalive c)) c).
  { intros Hle. subst c'. unfold _sendKeepAlive.
    apply Z.eqb_neq in Hs. rewrite Hs. simpl negb. cbv iota.
    destruct e; simpl in Hsend, Hnow. unfold call_keepalive_send.
    rewrite Hsend. apply Z.eqb_neq in Hret. rewrite Hret.
    unfold call_currentMSecsSinceEpoch. rewrite Hnow.
    rewrite int64_small by lia.
    unfold MAX_LOST_KEEP_ALIVE in *. rewrite int32_small by (unfold INT_MAX; lia).
    fold elapsed.
    destruct (elapsed >? 6 * i) eqn:E.
    { rewrite Z.gtb_ltb in E. apply Z.ltb_lt in E. lia. }
    rewrite (int32_small (i - 1)) by (unfold INT_MAX; lia).
    destruct (i - 1 <? 2) eqn:E2; simpl fst.
    - apply Z.ltb_lt in E2. rewrite Z.max_r by lia.
      rewrite int32_small by (unfold INT_MAX; lia). reflexivity.
    - apply Z.ltb_ge in E2. rewrite Z.max_l by lia.
      rewrite int32_small by (unfold INT_MAX; lia).
      rewrite (Z.mul_comm (i - 1) 1000). reflexivity. }
  split; [exact Hlost|]. split; [exact Hkeep|].
  unfold MAX_LOST_KEEP_ALIVE in *.
  split; [|split; [|split]].
  - destruct (Z_gt_le_dec elapsed (6 * i)) as [Hgt|Hle].
    + rewrite (Hlost Hgt). destruct c; simpl. split.
      * intros _. right. exact Hgt.
      * intros _. apply in_or_app. right. left. reflexivity.
    + rewrite (Hkeep Hle). split.
      * intros H. left. destruct c; exact H.
      * intros [H|H]; [destruct c; exact H | lia].
  - intros Heq. rewrite Hlost by lia. destruct c; simpl.
    rewrite <- app_assoc. reflexivity.
  - intros Heq. rewrite Hkeep by lia. destruct c; simpl.
    repeat split; reflexivity.
  - intros Hle H3. rewrite (Hkeep Hle). rewrite Z.max_r by lia.
    destruct c; reflexivity.
Qed.

Lemma sendKeepAlive_deadline_witness :
  fst (_sendKeepAlive (live_client 0) (probe_engine 0 5 31000))
  = socket_disconnectFromHost (qCWarning "Connection lost !!!" (live_client 0))
  /\ timer_interval
       (m_keepalive (fst (_sendKeepAlive (live_client 0) (probe_engine 0 3 17000))))
     = 2000.
Proof.
  assert (Hs : m_session (live_client 0) <> nullptr) by (simpl; discriminate).
  assert (Hr : 0 <> LIBSSH2_ERROR_SOCKET_SEND) by discriminate.
  split.
  - destruct (sendKeepAlive_deadline (live_client 0) (probe_engine 0 5 31000)
                0 5 31000 Hs eq_refl Hr eq_refl ltac:(lia) ltac:(unfold INT_MAX; lia)
                ltac:(simpl; lia)) as (Hlost & _).
    apply Hlost. vm_compute. reflexivity.
  - destruct (sendKeepAlive_deadline (live_client 0) (probe_engine 0 3 17000)
                0 3 17000 Hs eq_refl Hr eq_refl ltac:(lia) ltac:(unfold INT_MAX; lia)
                ltac:(simpl; lia)) as (_ & _ & _ & _ & _ & Hfloor).
    apply Hfloor; [vm_compute; discriminate | lia].
Defined.

(** Past that bound the [int] product wraps: an advertised interval of
    2147485 seconds starts the timer with a negative number of
    milliseconds. *)
Example sendKeepAlive_delay_wraps :
  timer_interval
    (m_keepalive (fst (_sendKeepAlive (live_client 0) (probe_engine 0 2147485 0))))
  = -2147483296.
Proof. reflexivity. Qed.

(** ** C5: the channel-creation mutex *)

Lemma remove_single (A : Z) : List.remove Z.eq_dec A [A] = [].
Proof. simpl. destruct (Z.eq_dec A A); [reflexivity | contradiction]. Qed.

Lemma arbiter_inv_step (op : ArbiterCall) (c : SshClient) (holders : list Z) :
  arbiter_inv c holders ->
  arbiter_inv (arbiter_call op c) (holders_after op c holders).
Proof.
  unfold arbiter_inv. intros ->. destruct op as [A|A]; simpl.
  - unfold takeChannelCreationMutex.
    destruct c as [? ? ? ? ? ? ? ? ? ? ? ? ? ? locked owner ?]; simpl.
    destruct locked; simpl.
    + destruct (Z.eqb owner A) eqn:E; simpl.
      * apply Z.eqb_eq in E. subst.
        destruct (Z.eq_dec A A); [reflexivity | contradiction].
      * reflexivity.
    + reflexivity.
  - unfold releaseChannelCreationMutex.
    destruct c as [? ? ? ? ? ? ? ? ? ? ? ? ? ? locked owner ?]; simpl.
    destruct (Z.eqb owner A) eqn:E; simpl.
    + apply Z.eqb_eq in E. subst.
      destruct locked; [apply remove_single | reflexivity].
    + reflexivity.
Qed.

Lemma arbiter_inv_run (ops : list ArbiterCall) :
  forall (c : SshClient) (holders : list Z),
    arbiter_inv c holders ->
    arbiter_inv (arbiter_run ops c) (holders_run ops c holders).
Proof.
  induction ops as [|op ops IH]; intros c holders Hinv; simpl.
  - exact Hinv.
  - apply IH. apply arbiter_inv_step. exact Hinv.
Qed.

(** C5: in every run of acquire and release calls on a new client, at most
    one identity holds the lock, and it is the recorded owner.  In any
    state, [acquire A] succeeds and makes [A] the owner when the lock is
    free, succeeds and changes nothing when [A] owns it, and otherwise
    fails at once and changes nothing; [release B] while another identity
    [A] owns the lock logs a critical line and changes nothing else, so
    that [A] still owns it and the session state is unchanged. *)
Theorem channelCreationMutex_arbiter :
  (forall ops : list ArbiterCall,
      let c := arbiter_run ops new_client in
      let holders := holders_run ops new_client [] in
      (List.length holders <= 1)%nat /\ (forall A, In A holders <-> owns c A))
  /\ (forall (c : SshClient) (A : Z),
         channelCreationInProgress c = false ->
         fst (takeChannelCreationMutex A c) = true
         /\ owns (snd (takeChannelCreationMutex A c)) A)
  /\ (forall (c : SshClient) (A : Z),
         owns c A -> takeChannelCreationMutex A c = (true, c))
  /\ (forall (c : SshClient) (A B : Z),
         owns c A -> A <> B -> takeChannelCreationMutex B c = (false, c))
  /\ (forall (c : SshClient) (A B : Z),
         owns c A -> A <> B ->
         releaseChannelCreationMutex B c
         = qCCritical "Trying to release channel mutex but it doesn't host it" c
         /\ owns (releaseChannelCreationMutex B c) A
         /\ m_sshState (releaseChannelCreationMutex B c) = m_sshState c).
Proof.
  split; [|split; [|split; [|split]]].
  - intros ops c holders.
    assert (Hinv : arbiter_inv c holders).
    { apply arbiter_inv_run. reflexivity. }
    unfold arbiter_inv in Hinv. unfold owns. rewrite Hinv.
    destruct (channelCreationInProgress c); simpl.
    + split; [lia|]. intros A. split.
      * intros [H|[]]. split; [reflexivity | exact H].
      * intros [_ H]. left. exact H.
    + split; [lia|]. intros A. split.
      * intros [].
      * intros [H _]. discriminate H.
  - intros c A Hfree. unfold takeChannelCreationMutex, owns.
    destruct c; simpl in *. subst. simpl. repeat split; reflexivity.
  - intros c A [Hl Ho]. unfold takeChannelCreationMutex.
    destruct c; simpl in *. subst. simpl. rewrite Z.eqb_refl. reflexivity.
  - intros c A B [Hl Ho] Hne. unfold takeChannelCreationMutex.
    destruct c; simpl in *. subst. simpl.
    apply Z.eqb_neq in Hne. rewrite Hne. reflexivity.
  - intros c A B [Hl Ho] Hne. unfold releaseChannelCreationMutex, owns.
    rewrite Ho. apply Z.eqb_neq in Hne. rewrite Hne.
    destruct c; simpl in *. subst. repeat split; reflexivity.
Qed.

Lemma channelCreationMutex_arbiter_witness :
  let c := snd (takeChannelCreationMutex 11 new_client) in
  owns c 11
  /\ takeChannelCreationMutex 11 c = (true, c)
  /\ takeChannelCreationMutex 12 c = (false, c)
  /\ owns (releaseChannelCreationMutex 12 c) 11.
Proof.
  intros c.
  destruct channelCreationMutex_arbiter as (_ & Hfree & Hagain & Hother & Hrelease).
  assert (Hown : owns c 11) by (apply (Hfree new_client 11); reflexivity).
  assert (Hne : 11 <> 12) by lia.
  split; [exact Hown|]. split; [|split].
  - apply Hagain. exact Hown.
  - apply (Hother c 11 12 Hown Hne).
  - apply (Hrelease c 11 12 Hown Hne).
Defined.

(** ** C7: unregistering channels during the teardown *)

Lemma removeOne_In (x : Z) (l : list Z) :
  In x l -> Permutation l (x :: removeOne x l).
Proof.
  induction l as [|y l IH]; intros Hin; simpl.
  - destruct Hin.
  - destruct (Z.eqb x y) eqn:E.
    + apply Z.eqb_eq in E. subst. apply Permutation_refl.
    + destruct Hin as [H|H].
      * apply Z.eqb_neq in E. congruence.
      * eapply Permutation_trans; [|apply perm_swap].
        apply perm_skip. apply IH. exact H.
Qed.

Lemma removeOne_Permutation (x : Z) (rest l : list Z) :
  Permutation (x :: rest) l -> Permutation rest (removeOne x l).
Proof.
  intros Hp. apply Permutation_cons_inv with (a := x).
  eapply Permutation_trans; [exact Hp|].
  apply removeOne_In. eapply Permutation_in; [exact Hp|]. left. reflexivity.
Qed.

Lemma close_all_state (chs : list Z) (c : SshClient) :
  m_sshState (fold_left (fun c ch => effect (ChannelClose ch) c) chs c)
  = m_sshState c.
Proof.
  revert c. induction chs as [|ch chs IH]; intros c; simpl.
  - reflexivity.
  - rewrite IH. destruct c; reflexivity.
Qed.

Lemma processEvent_DisconnectingChannel_stays (fuel : nat) (c : SshClient) (e : Engine) :
  m_sshState c = DisconnectingChannel -> m_channels c <> [] ->
  state_after (_ssh_processEvent fuel c e) = Some DisconnectingChannel.
Proof.
  intros Hs Hch. unfold _ssh_processEvent. rewrite Hs.
  unfold case_DisconnectingChannel.
  destruct (m_channels c) as [|ch chs] eqn:E; [congruence|].
  replace (Z.of_nat (List.length (ch :: chs)) >? 0) with true.
  - unfold state_after. rewrite close_all_state. rewrite Hs. reflexivity.
  - symmetry. rewrite Z.gtb_ltb. apply Z.ltb_lt. cbn [List.length]. lia.
Qed.

Lemma unregisterChannel_last (ch : Z) (c : SshClient) :
  m_sshState c = DisconnectingChannel ->
  removeOne ch (m_channels c) = [] ->
  let c' := unregisterChannel ch c in
  m_sshState c' = DisconnectingSession /\ m_channels c' = []
  /\ timer_active (m_keepalive c') = false
  /\ trace c' = trace c ++ [Emit (sshStateChanged DisconnectingSession); Emit sshEvent].
Proof.
  intros Hs Hr. unfold unregisterChannel, sshState.
  destruct c; simpl in *. subst. rewrite Hr. cbn.
  rewrite <- app_assoc. repeat split; reflexivity.
Qed.

Lemma unregisterChannel_bookkeeping (ch : Z) (c : SshClient) :
  m_sshState c <> DisconnectingChannel \/ removeOne ch (m_channels c) <> [] ->
  unregisterChannel ch c = set_channels (removeOne ch (m_channels c)) c.
Proof.
  intros H. unfold unregisterChannel, sshState.
  destruct c as [st ? ? ? ? ? ? ? ? ? chs ? ? ? ? ? ?]; simpl in *.
  destruct H as [H|H].
  - apply SshState_eqb_neq in H. rewrite H. reflexivity.
  - destruct (removeOne ch chs); [congruence|].
    rewrite andb_false_r. reflexivity.
Qed.

Lemma unregister_all_teardown (order : list Z) :
  forall c : SshClient,
    m_sshState c = DisconnectingChannel -> order <> [] ->
    Permutation order (m_channels c) ->
    (forall k : nat, (k < List.length order)%nat ->
       let ck := unregister_all (firstn k order) c in
       m_sshState ck = DisconnectingChannel /\ m_channels ck <> [])
    /\ (let c' := unregister_all order c in
        m_sshState c' = DisconnectingSession /\ m_channels c' = []
        /\ timer_active (m_keepalive c') = false
        /\ trace c' = trace c
             ++ [Emit (sshStateChanged DisconnectingSession); Emit sshEvent]).
Proof.
  induction order as [|x rest IH]; intros c Hs Hne Hp; [congruence|].
  assert (Hhere : m_channels c <> []).
  { intros H. rewrite H in Hp. apply Permutation_sym, Permutation_nil in Hp.
    discriminate Hp. }
  pose proof (removeOne_Permutation _ _ _ Hp) as Hrest.
  destruct rest as [|y rest'].
  - apply Permutation_nil in Hrest. split.
    + intros k Hk. simpl in Hk. assert (k = 0%nat) by lia. subst k.
      simpl. split; assumption.
    + simpl. apply unregisterChannel_last; assumption.
  - assert (Hnext : removeOne x (m_channels c) <> []).
    { intros H. rewrite H in Hrest. apply Permutation_sym, Permutation_nil in Hrest.
      discriminate Hrest. }
    pose proof (unregisterChannel_bookkeeping x c (or_intror Hnext)) as Hstep.
    assert (Hs1 : m_sshState (unregisterChannel x c) = DisconnectingChannel).
    { rewrite Hstep. destruct c; exact Hs. }
    assert (Hp1 : Permutation (y :: rest') (m_channels (unregisterChannel x c))).
    { rewrite Hstep. destruct c; exact Hrest. }
    destruct (IH (unregisterChannel x c) Hs1 ltac:(discriminate) Hp1) as [IHpre IHfin].
    split.
    + intros k Hk. destruct k as [|k].
      * simpl. split; assumption.
      * apply (IHpre k). simpl in Hk |- *. lia.
    + change (unregister_all (x :: y :: rest') c)
        with (unregister_all (y :: rest') (unregisterChannel x c)).
      destruct IHfin as (H1 & H2 & H3 & H4). repeat split; try assumption.
      rewrite H4. rewrite Hstep. destruct c; reflexivity.
Qed.

(** C7: the session is in DisconnectingChannel with a non-empty registry,
    and the channels unregister in any order (a permutation of the
    registry).  After every proper part of the sequence the state is still
    DisconnectingChannel, the registry is not empty, and a process event
    leaves the state as it is; the last unregister call stops the
    keepalive timer, moves the state to DisconnectingSession and queues an
    [sshEvent].  In any other state an unregister call only removes the
    channel from the registry. *)
Theorem unregisterChannel_teardown :
  (forall (c : SshClient) (order : list Z),
      m_sshState c = DisconnectingChannel -> m_channels c <> [] ->
      Permutation order (m_channels c) ->
      (forall k : nat, (k < List.length order)%nat ->
         let ck := unregister_all (firstn k order) c in
         m_sshState ck = DisconnectingChannel /\ m_channels ck <> []
         /\ (forall (fuel : nat) (e : Engine),
               state_after (_ssh_processEvent fuel ck e) = Some DisconnectingChannel))
      /\ (let c' := unregister_all order c in
          m_sshState c' = DisconnectingSession /\ m_channels c' = []
          /\ timer_active (m_keepalive c') = false
          /\ trace c' = trace c
               ++ [Emit (sshStateChanged DisconnectingSession); Emit sshEvent]))
  /\ (forall (c : SshClient) (channel : Z),
         m_sshState c <> DisconnectingChannel ->
         unregisterChannel channel c
         = set_channels (removeOne channel (m_channels c)) c).
Proof.
  split.
  - intros c order Hs Hch Hp.
    assert (Hne : order <> []).
    { intros H. subst order. apply Permutation_nil in Hp. congruence. }
    destruct (unregister_all_teardown order c Hs Hne Hp) as [Hpre Hfin].
    split; [|exact Hfin].
    intros k Hk ck. destruct (Hpre k Hk) as [H1 H2].
    split; [exact H1|]. split; [exact H2|].
    intros fuel e. apply processEvent_DisconnectingChannel_stays; assumption.
  - intros c channel Hs. apply unregisterChannel_bookkeeping. left. exact Hs.
Qed.

Lemma unregisterChannel_teardown_witness :
  m_sshState (unregister_all [3; 1] teardown_client) = DisconnectingChannel
  /\ m_sshState (unregister_all [3; 1; 2] teardown_client) = DisconnectingSession
  /\ unregisterChannel 2 (set_channels [1; 2] (client_in Ready []))
     = set_channels [1] (client_in Ready []).
Proof.
  destruct unregisterChannel_teardown as [Hteardown Hother].
  assert (Hp : Permutation [3; 1; 2] (m_channels teardown_client)).
  { simpl. eapply perm_trans; [apply perm_swap | apply perm_skip, perm_swap]. }
  destruct (Hteardown teardown_client [3; 1; 2] eq_refl ltac:(discriminate) Hp)
    as [Hpre Hfin].
  split; [|split].
  - apply (Hpre 2%nat). simpl. lia.
  - apply Hfin.
  - apply (Hother (set_channels [1; 2] (client_in Ready [])) 2). discriminate.
Defined.

(** ** C9 and C2: the authentication loop *)

Lemma eqb_neq_false (a b : string) : a <> b -> String.eqb a b = false.
Proof. intros H. apply String.eqb_neq. exact H. Qed.

(** A first candidate that is neither "publickey" nor "password" keeps the
    loop turning: no branch of the body removes it or leaves the loop. *)
Lemma authentication_loop_unrecognized (fuel : nat) :
  forall (c : SshClient) (e : Engine) (method : string) (rest : list string),
    m_authenticationMethodes c = method :: rest ->
    method <> "publickey" -> method <> "password" ->
    authentication_loop fuel c e = LoopLeave OutOfFuel.
Proof.
  induction fuel as [|fuel IH]; intros c e method rest Hm Hpk Hpw.
  - reflexivity.
  - simpl. unfold try_password. rewrite Hm. simpl.
    rewrite (eqb_neq_false _ _ Hpk), (eqb_neq_false _ _ Hpw).
    apply (IH c e method rest Hm Hpk Hpw).
Qed.

(** C9: in state Authentication with "publickey" as first candidate, a
    publickey attempt that fails outright (negative, not would-block) logs
    the failure and removes the candidate, and the same iteration goes on
    at the second test of the loop body with the rest of the list, where
    [QList::first] is read again.  When "publickey" was the only candidate
    that list is empty: [first] has no value there and the handler ends in
    [Fault].  When "password" is left and accepted, the read has a value
    and the loop ends with the rest as the list and the failure logged.
    The fault comes from that read alone: with the same list an attempt
    that blocks makes the handler return, and one that succeeds ends the
    loop. *)
Theorem publickey_failure_reads_empty_list :
  forall (fuel : nat) (c : SshClient) (e : Engine) (ret : Z) (rest : list string),
    m_sshState c = Authentication ->
    m_authenticationMethodes c = "publickey" :: rest ->
    shd (libssh2_userauth_publickey_frommemory e) = ret ->
    ret < 0 -> ret <> LIBSSH2_ERROR_EAGAIN ->
    let c1 := set_authenticationMethodes rest
                (qCWarning "Authentication with publickey failed:" c) in
    let e1 := snd (call_userauth_publickey_frommemory e) in
    authentication_loop (S fuel) c e
    = try_password (authentication_loop fuel) c1 e1
    /\ (rest = [] ->
        first (m_authenticationMethodes c1) = None
        /\ authentication_loop (S fuel) c e = LoopLeave Fault
        /\ _ssh_processEvent (S fuel) c e = Fault)
    /\ (forall rest' : list string,
          rest = "password" :: rest' ->
          shd (libssh2_userauth_password_ex e1) = 0 ->
          authentication_loop (S fuel) c e
          = LoopEnd (setSshState Ready c1) (snd (call_userauth_password_ex e1)))
    /\ (forall e0 : Engine,
          shd (libssh2_userauth_publickey_frommemory e0) = LIBSSH2_ERROR_EAGAIN ->
          _ssh_processEvent (S fuel) c e0
          = WouldBlock c (snd (call_userauth_publickey_frommemory e0)))
    /\ (forall e0 : Engine,
          shd (libssh2_userauth_publickey_frommemory e0) = 0 ->
          authentication_loop (S fuel) c e0
          = LoopEnd (setSshState Ready (qCWarning "Authenticated with publickey" c))
                    (snd (call_userauth_publickey_frommemory e0))).
Proof.
  intros fuel c e ret rest Hs Hm Hret Hneg Hblock c1 e1.
  assert (Hstep : authentication_loop (S fuel) c e
                  = try_password (authentication_loop fuel) c1 e1).
  { subst c1 e1. simpl. rewrite Hm. simpl.
    destruct e; simpl in Hret. unfold call_userauth_publickey_frommemory.
    rewrite Hret. apply Z.eqb_neq in Hblock. rewrite Hblock.
    apply Z.ltb_lt in Hneg. rewrite Hneg.
    replace (Z.eqb ret 0) with false
      by (symmetry; apply Z.eqb_neq; apply Z.ltb_lt in Hneg; lia).
    destruct c; simpl in *. subst. reflexivity. }
  assert (Hm1 : m_authenticationMethodes c1 = rest)
    by (subst c1; destruct c; reflexivity).
  split; [exact Hstep|]. split; [|split; [|split]].
  - intros ->.
    assert (Hfault : authentication_loop (S fuel) c e = LoopLeave Fault).
    { rewrite Hstep. unfold try_password. rewrite Hm1. reflexivity. }
    split; [rewrite Hm1; reflexivity|]. split; [exact Hfault|].
    unfold _ssh_processEvent, from_Authentication, case_Authentication.
    rewrite Hs, Hfault. reflexivity.
  - intros rest' -> Hpw. rewrite Hstep. unfold try_password. rewrite Hm1. simpl.
    destruct e1; simpl in Hpw. unfold call_userauth_password_ex.
    rewrite Hpw. reflexivity.
  - intros e0 H0.
    unfold _ssh_processEvent, from_Authentication, case_Authentication.
    rewrite Hs. simpl. rewrite Hm. simpl.
    destruct e0; simpl in H0. unfold call_userauth_publickey_frommemory.
    rewrite H0. reflexivity.
  - intros e0 H0. simpl. rewrite Hm. simpl.
    destruct e0; simpl in H0. unfold call_userauth_publickey_frommemory.
    rewrite H0. reflexivity.
Qed.

Lemma publickey_failure_reads_empty_list_witness :
  first (removeFirst ["publickey"]) = None
  /\ _ssh_processEvent 1 (client_in Authentication ["publickey"])
                       (scripted_engine [] [-18] [] 0) = Fault.
Proof.
  split; [reflexivity|].
  refine (proj2 (proj2 (proj1 (proj2
            (publickey_failure_reads_empty_list 0
               (client_in Authentication ["publickey"])
               (scripted_engine [] [-18] [] 0) (-18) []
               eq_refl eq_refl eq_refl _ _)) eq_refl))).
  - lia.
  - discriminate.
Defined.

(** C2, where the code departs from it: in state Authentication with a
    first candidate that is neither "publickey" nor "password", the loop
    never ends, whatever the engine answers: for every number of
    iterations allowed, the handler is still in the loop. *)
Theorem authentication_unrecognized_method_loops :
  forall (fuel : nat) (c : SshClient) (e : Engine)
         (method : string) (rest : list string),
    m_sshState c = Authentication ->
    m_authenticationMethodes c = method :: rest ->
    method <> "publickey" -> method <> "password" ->
    _ssh_processEvent fuel c e = OutOfFuel.
Proof.
  intros fuel c e method rest Hs Hm Hpk Hpw.
  unfold _ssh_processEvent, from_Authentication, case_Authentication.
  rewrite Hs. rewrite (authentication_loop_unrecognized fuel c e method rest Hm Hpk Hpw).
  reflexivity.
Qed.

Lemma authentication_unrecognized_method_loops_witness :
  _ssh_processEvent 1000
    (client_in Authentication ["keyboard-interactive"; "password"])
    (scripted_engine [] [] [0] 1) = OutOfFuel.
Proof.
  apply (authentication_unrecognized_method_loops 1000
           (client_in Authentication ["keyboard-interactive"; "password"])
           (scripted_engine [] [] [0] 1) "keyboard-interactive" ["password"]).
  - reflexivity.
  - reflexivity.
  - discriminate.
  - discriminate.
Defined.

(** The run of the specification: "publickey" fails, "password" succeeds,
    and the session is Ready with "password" the remaining candidate. *)
Example publickey_fails_password_succeeds :
  exists c e,
    _ssh_processEvent 2 (client_in Authentication ["publickey"; "password"])
                      (scripted_engine [] [-18] [0] 1) = Done c e
    /\ m_sshState c = Ready /\ m_authenticationMethodes c = ["password"].
Proof. eexists. eexists. split; [reflexivity|]. split; reflexivity. Qed.

(** A "password" attempt that fails outright removes the candidate and
    returns at once: the next candidate is not tried in this call and the
    state is still Authentication.  Only the next call, finding the list
    empty and the session not authenticated, moves to Error. *)
Example password_failure_returns :
  exists c e,
    _ssh_processEvent 2 (client_in Authentication ["password"])
                      (scripted_engine [] [] [-18] 0) = Done c e
    /\ m_sshState c = Authentication /\ m_authenticationMethodes c = []
    /\ state_after (_ssh_processEvent 2 c e) = Some Error.
Proof. eexists. eexists. split; [reflexivity|]. repeat split; reflexivity. Qed.

(** ** C8: the Error state *)

Lemma socket_disconnectFromHost_in_state (w : World) (c : SshClient) :
  m_sshState (socket_disconnectFromHost_in w c)
  = if closes_at_once w c then FreeSession else m_sshState c.
Proof.
  unfold socket_disconnectFromHost_in, closes_at_once.
  replace (m_socket (socket_disconnectFromHost c)) with (m_socket c)
    by (destruct c; reflexivity).
  destruct (m_socket c); try (destruct c; reflexivity);
    destruct (bytesToWrite w (socket_disconnectFromHost c)); simpl;
    try (destruct c; reflexivity);
    unfold _connection_socketDisconnected; state_of_handler.
Qed.

(** C8, as the code has it.  In state Error the session stays in Error
    when the socket's connected and error notifications or the connection
    timer are delivered, and a [connectToHost] call is rejected (the state
    is not Unconnected) and only logs.  The process event and the
    keepalive probe ask the socket to disconnect; they leave the session
    in Error unless the socket emits [disconnected()] inside that call (it
    was neither unconnected nor still connecting, and had nothing left to
    write), and then the state is FreeSession when the handler returns;
    the process event logs and emits [sshError] in both cases.
    The disconnected notification of the event loop moves the session from
    Error to FreeSession as well, and a [disconnectFromHost] call starts
    the teardown.  From FreeSession a process event whose
    [libssh2_session_free] does not answer would-block releases the engine
    (both handles are null afterwards) and ends in Unconnected, where
    [connectToHost] is accepted again. *)
Theorem error_state_until_socket_disconnected :
  forall (w : World) (fuel : nat) (c : SshClient) (e : Engine),
    m_sshState c = Error ->
    (forall d : Delivery,
       d = SocketConnected \/ d = SocketError \/ d = ConnectionTimeout_timeout ->
       state_after (deliver_in w fuel d c e) = Some Error)
    /\ (forall (user host : string) (port : Z) (methodes : list string),
          snd (connectToHost user host port methodes c)
          = qCCritical "Allready connected" c
          /\ m_sshState (snd (connectToHost user host port methodes c)) = Error)
    /\ (exists c' : SshClient,
          deliver_in w fuel ProcessEvent c e = Done c' e
          /\ m_sshState c'
             = (if closes_at_once w c then FreeSession else Error)
          /\ exists before : list Effect,
               trace c' = before ++ [Warning "ssh socket connection error";
                                     Emit sshError])
    /\ (exists (c' : SshClient) (e' : Engine),
          deliver_in w fuel Keepalive_timeout c e = Done c' e'
          /\ (m_sshState c' = Error
              \/ (m_sshState c' = FreeSession
                  /\ m_session c <> nullptr
                  /\ exists msg : string,
                       closes_at_once w (qCWarning msg c) = true)))
    /\ state_after (deliver_in w fuel SocketDisconnected c e) = Some FreeSession
    /\ (m_sshState (disconnectFromHost c)
        = if Nat.eqb (List.length (m_channels c)) 0
          then DisconnectingSession else DisconnectingChannel)
    /\ (forall c1 : SshClient,
          m_sshState c1 = FreeSession ->
          shd (libssh2_session_free e) <> LIBSSH2_ERROR_EAGAIN ->
          exists (c2 : SshClient) (e2 : Engine),
            deliver_in w fuel ProcessEvent c1 e = Done c2 e2
            /\ m_sshState c2 = Unconnected
            /\ m_session c2 = nullptr /\ m_knownHosts c2 = nullptr
            /\ forall (user host : string) (port : Z) (methodes : list string),
                 m_sshState (snd (connectToHost user host port methodes c2))
                 = SocketConnection).
Proof.
  intros w fuel c e Hs.
  split; [|split; [|split; [|split; [|split; [|split]]]]].
  - intros d [Hd|[Hd|Hd]]; subst d; simpl.
    + unfold _connection_socketConnected.
      replace (m_sshState (set_socket ConnectedState c)) with Error
        by (destruct c; simpl in *; congruence).
      state_of_handler.
    + unfold _connection_socketError. state_of_handler.
    + unfold _connection_socketTimeout_in. state_of_handler.
  - intros user host port methodes. unfold connectToHost, sshState.
    rewrite Hs. simpl. split; [reflexivity|]. state_of_handler. exact Hs.
  - simpl. unfold _ssh_processEvent_in. rewrite Hs. unfold case_Error_in.
    eexists. split; [reflexivity|]. split.
    + state_of_handler.
      destruct (m_socket c) eqn:Hsock;
        try (rewrite socket_disconnectFromHost_in_state, Hs; reflexivity).
      unfold closes_at_once. rewrite Hsock. exact Hs.
    + match goal with
      | |- exists before, trace (emit _ (qCWarning _ ?x)) = _ =>
          exists (trace x); destruct x; simpl; rewrite <- app_assoc; reflexivity
      end.
  - simpl. unfold _sendKeepAlive_in.
    destruct (Z.eqb (m_session c) nullptr) eqn:Hnull; simpl.
    { eexists. eexists. split; [reflexivity|]. left. exact Hs. }
    apply Z.eqb_neq in Hnull.
    destruct (call_keepalive_send e) as [[ret keepalive] e1].
    destruct (Z.eqb ret LIBSSH2_ERROR_SOCKET_SEND).
    { eexists. eexists. split; [reflexivity|].
      rewrite socket_disconnectFromHost_in_state.
      destruct (closes_at_once w (qCWarning "Connection I/O error !!!" c)) eqn:Hc.
      - right. split; [reflexivity|]. split; [exact Hnull|].
        eexists. exact Hc.
      - left. state_of_handler. exact Hs. }
    destruct (call_currentMSecsSinceEpoch e1) as [now e2].
    match goal with |- context [if ?b then _ else _] => destruct b end.
    { eexists. eexists. split; [reflexivity|].
      rewrite socket_disconnectFromHost_in_state.
      destruct (closes_at_once w (qCWarning "Connection lost !!!" c)) eqn:Hc.
      - right. split; [reflexivity|]. split; [exact Hnull|].
        eexists. exact Hc.
      - left. state_of_handler. exact Hs. }
    eexists. eexists. split; [reflexivity|]. left. destruct c; exact Hs.
  - simpl. unfold _connection_socketDisconnected. state_of_handler.
  - unfold disconnectFromHost. rewrite Hs. simpl.
    destruct (Nat.eqb (List.length (m_channels c)) 0); state_of_handler.
  - intros c1 H1 Hfree. simpl. unfold _ssh_processEvent_in. rewrite H1.
    unfold case_FreeSession.
    destruct e; simpl in Hfree. unfold call_session_free.
    apply Z.eqb_neq in Hfree.
    destruct c1 as [st ? ? ? ? ? ses kh ? ? ? ? ? ? ? ? ?]; simpl in *. subst st.
    destruct (Z.eqb kh nullptr) eqn:Ekh;
      [apply Z.eqb_eq in Ekh; subst kh|]; simpl;
      (destruct (Z.eqb ses nullptr) eqn:Eses;
       [apply Z.eqb_eq in Eses; subst ses|]); simpl; rewrite ?Hfree;
      eexists; eexists; (split; [reflexivity|]);
      repeat split; reflexivity.
Qed.

Lemma error_state_until_socket_disconnected_witness :
  (exists c' : SshClient,
     deliver_in prompt_world 0 ProcessEvent (connected_client Error []) quiet_engine
     = Done c' quiet_engine
     /\ m_sshState c' = FreeSession
     /\ exists before : list Effect,
          trace c' = before ++ [Warning "ssh socket connection error";
                                Emit sshError])
  /\ (exists c' : SshClient,
        deliver_in prompt_world 0 ProcessEvent (client_in Error []) quiet_engine
        = Done c' quiet_engine
        /\ m_sshState c' = Error
        /\ exists before : list Effect,
             trace c' = before ++ [Warning "ssh socket connection error";
                                   Emit sshError]).
Proof.
  split.
  - exact (proj1 (proj2 (proj2
             (error_state_until_socket_disconnected prompt_world 0
                (connected_client Error []) quiet_engine eq_refl)))).
  - exact (proj1 (proj2 (proj2
             (error_state_until_socket_disconnected prompt_world 0
                (client_in Error []) quiet_engine eq_refl)))).
Defined.

(** C8, as the claim has it, fails.  A client in state Error on a
    connected socket with nothing left to write is in FreeSession after
    the process event, an internal event: the socket emits
    [disconnected()] inside [m_socket.disconnectFromHost()] (line 643) and
    the slot of lines 366-371 runs there; the process event that the slot
    queued brings the client to Unconnected.  The disconnected
    notification of the event loop leaves Error in the same way.  No
    [connectToHost] call is made, and one made in state Error does not
    re-arm the session. *)
Lemma error_state_left_without_connect :
  m_sshState (connected_client Error []) = Error
  /\ (exists c1 : SshClient,
        _ssh_processEvent_in prompt_world 0 (connected_client Error []) quiet_engine
        = Done c1 quiet_engine
        /\ m_sshState c1 = FreeSession
        /\ In (Emit sshEvent) (trace c1)
        /\ state_after (_ssh_processEvent_in prompt_world 0 c1 quiet_engine)
           = Some Unconnected)
  /\ state_after (deliver_in prompt_world 0 SocketDisconnected
                    (client_in Error []) quiet_engine)
     = Some FreeSession
  /\ m_sshState (snd (connectToHost "user" "host" 22 [] (client_in Error [])))
     = Error.
Proof.
  split; [reflexivity|]. split; [|split; reflexivity].
  eexists. split; [reflexivity|]. split; [reflexivity|].
  split; [simpl; tauto | reflexivity].
Qed.

(** ** C1: would-block *)

Lemma same_but_knownHosts_processEvent (c' c : SshClient) :
  same_but_knownHosts c' c ->
  forall (fuel : nat) (e : Engine),
    _ssh_processEvent fuel c' e = _ssh_processEvent fuel c e.
Proof.
  intros [->|[Hs ->]] fuel e; [reflexivity|].
  unfold _ssh_processEvent.
  replace (m_sshState (set_knownHosts nullptr c)) with (m_sshState c)
    by (destruct c; reflexivity).
  rewrite Hs. unfold case_FreeSession.
  destruct c as [? ? ? ? ? ? ? kh ? ? ? ? ? ? ? ? ?]; simpl.
  destruct (Z.eqb kh nullptr) eqn:E; [apply Z.eqb_eq in E; subst kh|];
    cbn; reflexivity.
Qed.

Lemma same_but_knownHosts_step_call (c' c : SshClient) :
  same_but_knownHosts c' c ->
  forall e : Engine, step_call c' e = step_call c e.
Proof.
  intros [->|[Hs ->]] e; [reflexivity|]. destruct c; reflexivity.
Qed.

(** One would-block answer to the call of the current step. *)
Lemma step_would_block (fuel : nat) (c : SshClient) (e e' : Engine) :
  step_call c e = Some (LIBSSH2_ERROR_EAGAIN, e') ->
  exists c' : SshClient,
    _ssh_processEvent (S fuel) c e = WouldBlock c' e'
    /\ same_but_knownHosts c' c.
Proof.
  unfold step_call, _ssh_processEvent. intros H.
  destruct (m_sshState c) eqn:Hs; try discriminate H.
  - (* HandShake *)
    exists c. split; [|left; reflexivity].
    unfold from_HandShake, case_HandShake.
    injection H as H. rewrite H. reflexivity.
  - (* GetAuthenticationMethodes *)
    exists c. split; [|left; reflexivity].
    unfold from_GetAuthenticationMethodes, case_GetAuthenticationMethodes.
    destruct (Nat.eqb (List.length (m_authenticationMethodes c)) 0);
      [|discriminate H].
    destruct (call_userauth_list e) as [[alist|] e1]; [discriminate H|].
    injection H as H. rewrite H. reflexivity.
  - (* Authentication *)
    exists c. split; [|left; reflexivity].
    unfold from_Authentication, case_Authentication.
    destruct (m_authenticationMethodes c) as [|method rest] eqn:Hm;
      [discriminate H|].
    simpl in H. simpl. rewrite Hm. simpl.
    destruct (String.eqb method "publickey").
    + injection H as H. rewrite H. reflexivity.
    + unfold try_password. rewrite Hm. simpl.
      destruct (String.eqb method "password"); [|discriminate H].
      injection H as H. rewrite H. reflexivity.
  - (* DisconnectingSession *)
    exists c. split; [|left; reflexivity].
    unfold case_DisconnectingSession.
    injection H as H. rewrite H. reflexivity.
  - (* FreeSession *)
    unfold case_FreeSession.
    destruct (call_session_free e) as [ret e1].
    destruct c as [? ? ? ? ? ? ses kh ? ? ? ? ? ? ? ? ?]; cbn in H, Hs |- *.
    destruct (Z.eqb ses nullptr) eqn:Es; cbn in H; [discriminate H|].
    injection H as -> ->.
    destruct (Z.eqb kh nullptr) eqn:Ekh; cbn; rewrite Es; cbn.
    + eexists. split; [reflexivity|]. left. reflexivity.
    + eexists. split; [reflexivity|]. right. subst. split; reflexivity.
Qed.

Lemma same_but_knownHosts_frame (c' c : SshClient) :
  same_but_knownHosts c' c ->
  m_sshState c' = m_sshState c
  /\ m_authenticationMethodes c' = m_authenticationMethodes c.
Proof.
  intros [->|[_ ->]]; [split; reflexivity|]. destruct c; split; reflexivity.
Qed.

Lemma would_block_times_same (n : nat) (c' c : SshClient) :
  same_but_knownHosts c' c ->
  forall e : Engine, would_block_times n c' e = would_block_times n c e.
Proof.
  intros Hsame. induction n as [|n IH]; intros e; simpl; [reflexivity|].
  rewrite (same_but_knownHosts_step_call c' c Hsame e).
  destruct (step_call c e) as [[ret e1]|]; [|reflexivity].
  destruct (Z.eqb ret LIBSSH2_ERROR_EAGAIN); [apply IH | reflexivity].
Qed.

Lemma retry_after_would_blocks (fuel n : nat) :
  forall (c : SshClient) (e e_n : Engine),
    would_block_times n c e = Some e_n ->
    retry (S fuel) n c e = _ssh_processEvent (S fuel) c e_n.
Proof.
  induction n as [|n IH]; intros c e e_n H.
  - injection H as <-. unfold retry.
    destruct (_ssh_processEvent (S fuel) c e); reflexivity.
  - cbn [would_block_times] in H.
    destruct (step_call c e) as [[ret e1]|] eqn:Hcall; [|discriminate H].
    destruct (Z.eqb ret LIBSSH2_ERROR_EAGAIN) eqn:Hret; [|discriminate H].
    apply Z.eqb_eq in Hret. subst ret.
    destruct (step_would_block fuel c e e1 Hcall) as (c' & Hrun & Hsame).
    cbn [retry]. rewrite Hrun.
    rewrite <- (would_block_times_same n c' c Hsame) in H.
    rewrite (IH c' e1 e_n H).
    apply same_but_knownHosts_processEvent. exact Hsame.
Qed.

(** C1: in each state whose step begins with a call of the protocol engine
    that can answer would-block (the handshake, the error code after a
    null method list, the attempt for the first candidate, the session
    disconnect, the session free), a would-block answer makes
    [_ssh_processEvent] return with the session state and the candidate
    list unchanged; running the handler again on what it left gives what
    an uninterrupted run gives on the same later answers.  The same holds
    for any number of would-block answers in a row. *)
Theorem would_block_resumption :
  forall (fuel : nat) (c : SshClient) (e e' : Engine),
    step_call c e = Some (LIBSSH2_ERROR_EAGAIN, e') ->
    (exists c' : SshClient,
        _ssh_processEvent (S fuel) c e = WouldBlock c' e'
        /\ m_sshState c' = m_sshState c
        /\ m_authenticationMethodes c' = m_authenticationMethodes c
        /\ _ssh_processEvent (S fuel) c' e' = _ssh_processEvent (S fuel) c e')
    /\ (forall (n : nat) (e_n : Engine),
          would_block_times n c e = Some e_n ->
          retry (S fuel) n c e = _ssh_processEvent (S fuel) c e_n).
Proof.
  intros fuel c e e' H. split.
  - destruct (step_would_block fuel c e e' H) as (c' & Hrun & Hsame).
    exists c'. split; [exact Hrun|].
    destruct (same_but_knownHosts_frame c' c Hsame) as [Hs Hm].
    split; [exact Hs|]. split; [exact Hm|].
    apply same_but_knownHosts_processEvent. exact Hsame.
  - intros n e_n Hn. apply retry_after_would_blocks. exact Hn.
Qed.

Lemma would_block_resumption_witness :
  (exists c' : SshClient,
      _ssh_processEvent 1 (client_in HandShake ["password"]) blocking_engine
      = WouldBlock c' (snd (call_session_handshake blocking_engine))
      /\ m_sshState c' = HandShake
      /\ m_authenticationMethodes c' = ["password"]
      /\ _ssh_processEvent 1 c' (snd (call_session_handshake blocking_engine))
         = _ssh_processEvent 1 (client_in HandShake ["password"])
             (snd (call_session_handshake blocking_engine)))
  /\ retry 1 1 (client_in Authentication ["password"]) blocking_engine
     = _ssh_processEvent 1 (client_in Authentication ["password"])
         (snd (call_userauth_password_ex blocking_engine))
  /\ retry 1 1 (client_in DisconnectingSession []) blocking_engine
     = _ssh_processEvent 1 (client_in DisconnectingSession [])
         (snd (call_session_disconnect_ex blocking_engine))
  /\ retry 1 1 (client_in FreeSession []) blocking_engine
     = _ssh_processEvent 1 (client_in FreeSession [])
         (snd (call_session_free blocking_engine)).
Proof.
  split; [|split; [|split]].
  - exact (proj1 (would_block_resumption 0 (client_in HandShake ["password"])
                    blocking_engine _ eq_refl)).
  - exact (proj2 (would_block_resumption 0 (client_in Authentication ["password"])
                    blocking_engine _ eq_refl) 1%nat _ eq_refl).
  - exact (proj2 (would_block_resumption 0 (client_in DisconnectingSession [])
                    blocking_engine _ eq_refl) 1%nat _ eq_refl).
  - exact (proj2 (would_block_resumption 0 (client_in FreeSession [])
                    blocking_engine _ eq_refl) 1%nat _ eq_refl).
Defined.

(** ** Every would-block return on the way to Ready is a blocked step

    The theorem above starts from a client whose step begins with the
    blocking call.  A pass that begins in an earlier state and falls
    through, or that removes failed candidates before an attempt blocks,
    returns in such a client: the lemmas below show it, so that the
    theorem applies to the client left by any blocked pass. *)

Lemma try_password_would_block (again : SshClient -> Engine -> Loop)
      (c : SshClient) (e : Engine) (c' : SshClient) (e' : Engine) :
  try_password again c e = LoopLeave (WouldBlock c' e') ->
  (c' = c /\ first (m_authenticationMethodes c) = Some "password"
   /\ call_userauth_password_ex e = (LIBSSH2_ERROR_EAGAIN, e'))
  \/ (exists e2 : Engine, again c e2 = LoopLeave (WouldBlock c' e')).
Proof.
  unfold try_password. intros H.
  destruct (first (m_authenticationMethodes c)) as [method|]; [|discriminate H].
  destruct (String.eqb method "password") eqn:Epw.
  - apply String.eqb_eq in Epw. subst method.
    destruct (call_userauth_password_ex e) as [ret e1].
    destruct (Z.eqb ret LIBSSH2_ERROR_EAGAIN) eqn:Eret.
    + apply Z.eqb_eq in Eret. subst ret. injection H as <- <-.
      left. repeat split; reflexivity.
    + destruct (ret <? 0); [discriminate H|].
      destruct (Z.eqb ret 0); [discriminate H|].
      right. exists e1. exact H.
  - right. exists e. exact H.
Qed.

(** When the loop leaves on a would-block, the state is the one it started
    in, the candidates left are the end of the list it started with (the
    ones before have failed outright), and the first of them is the method
    whose attempt blocked. *)
Lemma authentication_loop_would_block (fuel : nat) :
  forall (c : SshClient) (e : Engine) (c' : SshClient) (e' : Engine),
    authentication_loop fuel c e = LoopLeave (WouldBlock c' e') ->
    m_sshState c' = m_sshState c
    /\ (exists failed : list string,
           m_authenticationMethodes c = failed ++ m_authenticationMethodes c')
    /\ (exists e0 : Engine,
           (first (m_authenticationMethodes c') = Some "publickey"
            /\ call_userauth_publickey_frommemory e0 = (LIBSSH2_ERROR_EAGAIN, e'))
           \/ (first (m_authenticationMethodes c') = Some "password"
               /\ call_userauth_password_ex e0 = (LIBSSH2_ERROR_EAGAIN, e'))).
Proof.
  induction fuel as [|fuel IH]; intros c e c' e' H; [discriminate H|].
  cbn [authentication_loop] in H.
  destruct (m_authenticationMethodes c) as [|method rest] eqn:Hm;
    [discriminate H|].
  cbn [List.length Nat.eqb first hd_error] in H.
  destruct (String.eqb method "publickey") eqn:Epk.
  - apply String.eqb_eq in Epk. subst method.
    destruct (call_userauth_publickey_frommemory e) as [ret e1] eqn:Hcall.
    destruct (Z.eqb ret LIBSSH2_ERROR_EAGAIN) eqn:Eret.
    + apply Z.eqb_eq in Eret. subst ret. injection H as <- <-.
      split; [reflexivity|]. split.
      * exists []. rewrite Hm. reflexivity.
      * exists e. left. rewrite Hm. split; [reflexivity | exact Hcall].
    + destruct (Z.eqb ret 0); [destruct (ret <? 0); discriminate H|].
      destruct (ret <? 0).
      * apply try_password_would_block in H.
        destruct H as [(-> & Hfirst & Hpw)|[e2 H]].
        -- split; [destruct c; reflexivity|]. split.
           ++ exists ["publickey"]. destruct c; simpl in *. subst. reflexivity.
           ++ exists e1. right. split; assumption.
        -- apply IH in H. destruct H as (Hs & [failed Hf] & Hcall').
           split; [rewrite Hs; destruct c; reflexivity|]. split.
           ++ exists ("publickey" :: failed). rewrite <- app_comm_cons, <- Hf.
              destruct c; simpl in *. subst. reflexivity.
           ++ exact Hcall'.
      * apply try_password_would_block in H.
        destruct H as [(-> & Hfirst & Hpw)|[e2 H]].
        -- rewrite Hm in Hfirst. discriminate Hfirst.
        -- apply IH in H. rewrite Hm in H. exact H.
  - apply try_password_would_block in H.
    destruct H as [(-> & Hfirst & Hpw)|[e2 H]].
    + split; [reflexivity|]. split.
      * exists []. rewrite Hm. reflexivity.
      * exists e. right. split; assumption.
    + apply IH in H. rewrite Hm in H. exact H.
Qed.

Lemma from_Authentication_would_block (fuel : nat) (c : SshClient) (e : Engine)
      (c' : SshClient) (e' : Engine) :
  m_sshState c = Authentication ->
  from_Authentication fuel c e = WouldBlock c' e' ->
  exists e0 : Engine, step_call c' e0 = Some (LIBSSH2_ERROR_EAGAIN, e').
Proof.
  intros Hs H. unfold from_Authentication, case_Authentication in H.
  destruct (authentication_loop fuel c e) as [c1 e1|r] eqn:Hloop.
  - destruct (call_userauth_authenticated e1) as [authenticated e2].
    destruct (negb (Z.eqb authenticated 0)); simpl in H.
    + unfold from_Ready, case_Ready in H.
      destruct (call_currentMSecsSinceEpoch e2). discriminate H.
    + discriminate H.
  - simpl in H. subst r.
    apply authentication_loop_would_block in Hloop.
    destruct Hloop as (Hs' & _ & e0 & Hcall). exists e0.
    unfold step_call. rewrite Hs', Hs.
    destruct Hcall as [[-> ->]|[-> ->]]; reflexivity.
Qed.

Lemma from_GetAuthenticationMethodes_would_block (fuel : nat) (c : SshClient)
      (e : Engine) (c' : SshClient) (e' : Engine) :
  m_sshState c = GetAuthenticationMethodes ->
  from_GetAuthenticationMethodes fuel c e = WouldBlock c' e' ->
  exists e0 : Engine, step_call c' e0 = Some (LIBSSH2_ERROR_EAGAIN, e').
Proof.
  intros Hs H.
  unfold from_GetAuthenticationMethodes, case_GetAuthenticationMethodes in H.
  destruct (Nat.eqb (List.length (m_authenticationMethodes c)) 0) eqn:Hlen.
  - destruct (call_userauth_list e) as [[alist|] e1] eqn:Hlist.
    + simpl in H. apply from_Authentication_would_block in H; [exact H|].
      apply setSshState_state.
    + destruct (call_session_last_error e1) as [ret e2] eqn:Herr.
      destruct (Z.eqb ret LIBSSH2_ERROR_EAGAIN) eqn:Eret; [|discriminate H].
      apply Z.eqb_eq in Eret. subst ret. simpl in H. injection H as <- <-.
      exists e. unfold step_call. rewrite Hs, Hlen, Hlist, Herr. reflexivity.
  - simpl in H. apply from_Authentication_would_block in H; [exact H|].
    apply setSshState_state.
Qed.

Lemma from_HandShake_would_block (fuel : nat) (c : SshClient) (e : Engine)
      (c' : SshClient) (e' : Engine) :
  m_sshState c = HandShake ->
  from_HandShake fuel c e = WouldBlock c' e' ->
  exists e0 : Engine, step_call c' e0 = Some (LIBSSH2_ERROR_EAGAIN, e').
Proof.
  intros Hs H. unfold from_HandShake, case_HandShake in H.
  destruct (call_session_handshake e) as [ret e1] eqn:Hcall.
  destruct (Z.eqb ret LIBSSH2_ERROR_EAGAIN) eqn:Eret.
  - apply Z.eqb_eq in Eret. subst ret. simpl in H. injection H as <- <-.
    exists e. unfold step_call. rewrite Hs, Hcall. reflexivity.
  - destruct (negb (Z.eqb ret 0)); [discriminate H|].
    destruct (call_session_hostkey e1) as [[[key type]|] e2]; [|discriminate H].
    destruct (call_hostkey_hash e2) as [hash e3]. simpl in H.
    apply from_GetAuthenticationMethodes_would_block in H; [exact H|].
    apply setSshState_state.
Qed.

Lemma from_Initialize_would_block (fuel : nat) (c : SshClient) (e : Engine)
      (c' : SshClient) (e' : Engine) :
  from_Initialize fuel c e = WouldBlock c' e' ->
  exists e0 : Engine, step_call c' e0 = Some (LIBSSH2_ERROR_EAGAIN, e').
Proof.
  intros H. unfold from_Initialize, case_Initialize in H.
  destruct (call_session_init_ex e) as [session e1].
  destruct (Z.eqb (m_session (set_session session c)) nullptr); [discriminate H|].
  destruct (call_knownhost_init e1) as [knownHosts e2].
  match type of H with
  | context [if ?b then Leave Fault else _] => destruct b; [discriminate H|]
  end.
  simpl in H. apply from_HandShake_would_block in H; [exact H|].
  apply setSshState_state.
Qed.

(** In every state but DisconnectingSession, a pass that returns on a
    would-block leaves a client whose step begins with the call that
    blocked. *)
Lemma would_block_return_is_blocked_step (fuel : nat) (c : SshClient) (e : Engine)
      (c' : SshClient) (e' : Engine) :
  m_sshState c <> DisconnectingSession ->
  _ssh_processEvent fuel c e = WouldBlock c' e' ->
  exists e0 : Engine, step_call c' e0 = Some (LIBSSH2_ERROR_EAGAIN, e').
Proof.
  intros Hnot H. unfold _ssh_processEvent in H.
  destruct (m_sshState c) eqn:Hs; try discriminate H.
  - apply from_Initialize_would_block in H. exact H.
  - apply from_HandShake_would_block in H; assumption.
  - apply from_GetAuthenticationMethodes_would_block in H; assumption.
  - apply from_Authentication_would_block in H; assumption.
  - unfold from_Ready, case_Ready in H.
    destruct (call_currentMSecsSinceEpoch e). discriminate H.
  - unfold case_DisconnectingChannel in H.
    destruct (Z.of_nat (List.length (m_channels c)) >? 0); discriminate H.
  - contradiction.
  - unfold case_FreeSession in H.
    match type of H with
    | context [set_session nullptr ?x] => remember x as c1 eqn:Hc1
    end.
    destruct (negb (Z.eqb (m_session c1) nullptr)) eqn:Hses; [|discriminate H].
    destruct (call_session_free e) as [ret e1] eqn:Hcall.
    destruct (Z.eqb ret LIBSSH2_ERROR_EAGAIN) eqn:Eret; [|discriminate H].
    apply Z.eqb_eq in Eret. subst ret. injection H as <- <-.
    exists e. unfold step_call.
    assert (Hs1 : m_sshState c1 = FreeSession).
    { subst c1. destruct (negb (Z.eqb (m_knownHosts c) nullptr));
        [destruct c; exact Hs | exact Hs]. }
    rewrite Hs1, Hses, Hcall. reflexivity.
Qed.

(** ** The teardown under would-block

    The step of FreeSession also runs, by fallthrough, in a pass that
    began in DisconnectingSession.  Such a pass ends in Unconnected, or
    returns on a would-block in DisconnectingSession or FreeSession; the
    candidates are those it began with. *)

Lemma setSshState_methodes (s : SshState) (c : SshClient) :
  m_authenticationMethodes (setSshState s c) = m_authenticationMethodes c.
Proof. apply (setSshState_frame s c). Qed.

Lemma effect_methodes (x : Effect) (c : SshClient) :
  m_authenticationMethodes (effect x c) = m_authenticationMethodes c.
Proof. destruct c; reflexivity. Qed.

Lemma case_FreeSession_ends (c : SshClient) (e : Engine) :
  match case_FreeSession c e with
  | Done c' _ =>
      m_sshState c' = Unconnected
      /\ m_authenticationMethodes c' = m_authenticationMethodes c
  | WouldBlock c' _ =>
      m_sshState c' = m_sshState c
      /\ m_authenticationMethodes c' = m_authenticationMethodes c
  | Fault | OutOfFuel => False
  end.
Proof.
  unfold case_FreeSession.
  set (c1 := if negb (Z.eqb (m_knownHosts c) nullptr)
             then set_knownHosts nullptr c else c).
  assert (H1 : m_sshState c1 = m_sshState c
               /\ m_authenticationMethodes c1 = m_authenticationMethodes c).
  { subst c1. destruct (negb (Z.eqb (m_knownHosts c) nullptr));
      destruct c; split; reflexivity. }
  destruct H1 as [Hs1 Hm1].
  assert (Hfin : m_sshState (setSshState Unconnected
                               (emit sshDisconnected (set_session nullptr c1)))
                 = Unconnected
                 /\ m_authenticationMethodes
                      (setSshState Unconnected
                         (emit sshDisconnected (set_session nullptr c1)))
                    = m_authenticationMethodes c).
  { split; [apply setSshState_state|].
    rewrite setSshState_methodes. unfold emit. rewrite effect_methodes.
    rewrite <- Hm1. destruct c1; reflexivity. }
  destruct (negb (Z.eqb (m_session c1) nullptr)); [|exact Hfin].
  destruct (call_session_free e) as [ret e1].
  destruct (Z.eqb ret LIBSSH2_ERROR_EAGAIN); [split; assumption | exact Hfin].
Qed.

Lemma teardown_pass (fuel : nat) (c : SshClient) (e : Engine) :
  m_sshState c = DisconnectingSession \/ m_sshState c = FreeSession ->
  match _ssh_processEvent fuel c e with
  | Done c' _ =>
      m_sshState c' = Unconnected
      /\ m_authenticationMethodes c' = m_authenticationMethodes c
  | WouldBlock c' _ =>
      (m_sshState c' = DisconnectingSession \/ m_sshState c' = FreeSession)
      /\ m_authenticationMethodes c' = m_authenticationMethodes c
  | Fault | OutOfFuel => False
  end.
Proof.
  intros [Hs|Hs]; unfold _ssh_processEvent; rewrite Hs.
  - unfold case_DisconnectingSession.
    destruct (call_session_disconnect_ex e) as [ret e1].
    destruct (Z.eqb ret LIBSSH2_ERROR_EAGAIN).
    + simpl. split; [left; exact Hs | reflexivity].
    + assert (Hgo : forall c1 : SshClient,
                 (m_sshState c1 = DisconnectingSession \/ m_sshState c1 = FreeSession) ->
                 m_authenticationMethodes c1 = m_authenticationMethodes c ->
                 match case_FreeSession c1 e1 with
                 | Done c' _ =>
                     m_sshState c' = Unconnected
                     /\ m_authenticationMethodes c' = m_authenticationMethodes c
                 | WouldBlock c' _ =>
                     (m_sshState c' = DisconnectingSession
                      \/ m_sshState c' = FreeSession)
                     /\ m_authenticationMethodes c' = m_authenticationMethodes c
                 | Fault | OutOfFuel => False
                 end).
      { intros c1 Hs1 Hm1. pose proof (case_FreeSession_ends c1 e1) as H.
        destruct (case_FreeSession c1 e1) as [c' e'|c' e'| |]; try exact H.
        - destruct H as [H1 H2]. split; [exact H1 | congruence].
        - destruct H as [H1 H2]. split; [rewrite H1; exact Hs1 | congruence]. }
      assert (Hstay : m_sshState (socket_disconnectFromHost c) = DisconnectingSession)
        by (autorewrite with session_state; exact Hs).
      assert (Hfree : m_sshState (emit sshEvent (setSshState FreeSession c)) = FreeSession)
        by (autorewrite with session_state; reflexivity).
      assert (Hm1 : m_authenticationMethodes (socket_disconnectFromHost c)
                    = m_authenticationMethodes c) by apply effect_methodes.
      assert (Hm2 : m_authenticationMethodes (emit sshEvent (setSshState FreeSession c))
                    = m_authenticationMethodes c).
      { unfold emit. rewrite effect_methodes. apply setSshState_methodes. }
      destruct (m_socket c); simpl;
        first [ apply Hgo; [right; exact Hfree | exact Hm2]
              | apply Hgo; [left; exact Hstay | exact Hm1] ].
  - pose proof (case_FreeSession_ends c e) as H.
    destruct (case_FreeSession c e) as [c' e'|c' e'| |]; try exact H.
    destruct H as [H1 H2]. split; [right; congruence | exact H2].
Qed.

(** * Further properties of the handlers *)

(** ** Connecting *)

(** X1: a [connectToHost] call accepted in state Unconnected, followed by
    the process event it queues, starts the connection timer at 60000 ms,
    asks the socket to connect to the host and port of the call and leaves
    the client in WaitingSocketConnection, without any call of the
    protocol engine.  The pass runs on into the block of
    WaitingSocketConnection, so it also logs "Unknown data on socket". *)
Theorem connectToHost_then_processEvent :
  forall (fuel : nat) (user host : string) (port : Z) (methodes : list string)
         (c : SshClient) (e : Engine),
    m_sshState c = Unconnected ->
    exists c' : SshClient,
      _ssh_processEvent fuel (snd (connectToHost user host port methodes c)) e
      = Done c' e
      /\ m_sshState c' = WaitingSocketConnection
      /\ m_connectionTimeout c'
         = timer_start ConnectionTimeout (m_connectionTimeout c)
      /\ m_authenticationMethodes c' = methodes
      /\ m_session c' = m_session c
      /\ trace c'
         = trace c ++ [Emit (sshStateChanged SocketConnection); Emit sshEvent;
                       SocketConnectToHost host port;
                       Emit (sshStateChanged WaitingSocketConnection);
                       Warning "Unknown data on socket"].
Proof.
  intros fuel user host port methodes c e Hs.
  destruct c; simpl in Hs; subst. eexists. split; [reflexivity|].
  cbn. repeat rewrite <- app_assoc. repeat split; reflexivity.
Qed.

Lemma connectToHost_then_processEvent_witness :
  exists c' : SshClient,
    _ssh_processEvent 0 (snd (connectToHost "user" "host" 22 [] new_client))
                      quiet_engine = Done c' quiet_engine
    /\ m_sshState c' = WaitingSocketConnection.
Proof.
  destruct (connectToHost_then_processEvent 0 "user" "host" 22 [] new_client
              quiet_engine eq_refl) as (c' & Hrun & Hs & _).
  exists c'. split; assumption.
Defined.

(** ** The channel registry *)

Lemma close_all_trace (chs : list Z) (c : SshClient) :
  trace (fold_left (fun c ch => effect (ChannelClose ch) c) chs c)
  = trace c ++ map ChannelClose chs.
Proof.
  revert c. induction chs as [|ch chs IH]; intros c; simpl.
  - rewrite app_nil_r. reflexivity.
  - rewrite IH. destruct c; simpl. rewrite <- app_assoc. reflexivity.
Qed.

Lemma close_all_channels (chs : list Z) (c : SshClient) :
  m_channels (fold_left (fun c ch => effect (ChannelClose ch) c) chs c)
  = m_channels c.
Proof.
  revert c. induction chs as [|ch chs IH]; intros c; simpl.
  - reflexivity.
  - rewrite IH. destruct c; reflexivity.
Qed.

(** X2: a [disconnectFromHost] call in a state other than Unconnected
    while channels are registered, followed by the process event it
    queues, asks every registered channel to close, once each and in the
    order of registration, makes no call of the protocol engine, and
    leaves the state DisconnectingChannel and the registry as it was. *)
Theorem disconnectFromHost_closes_channels :
  forall (fuel : nat) (c : SshClient) (e : Engine),
    m_sshState c <> Unconnected -> m_channels c <> [] ->
    exists c' : SshClient,
      _ssh_processEvent fuel (disconnectFromHost c) e = Done c' e
      /\ m_sshState c' = DisconnectingChannel
      /\ m_channels c' = m_channels c
      /\ trace c'
         = trace (disconnectFromHost c) ++ map ChannelClose (m_channels c).
Proof.
  intros fuel c e Hs Hch.
  assert (Hd : m_sshState (disconnectFromHost c) = DisconnectingChannel).
  { unfold disconnectFromHost. apply SshState_eqb_neq in Hs. rewrite Hs.
    destruct (m_channels c); [congruence|]. simpl.
    autorewrite with session_state. reflexivity. }
  assert (Hc : m_channels (disconnectFromHost c) = m_channels c).
  { unfold disconnectFromHost. destruct (SshState_eqb (m_sshState c) Unconnected);
      [reflexivity|].
    destruct (Nat.eqb (List.length (m_channels c)) 0);
      match goal with
      | |- m_channels (emit _ (setSshState ?s _)) = _ =>
          pose proof (setSshState_frame s c) as (_ & _ & _ & _ & H & _);
          destruct (setSshState s c); simpl in *; exact H
      end. }
  unfold _ssh_processEvent. rewrite Hd. unfold case_DisconnectingChannel.
  rewrite Hc. destruct (m_channels c) as [|ch chs] eqn:E; [congruence|].
  replace (Z.of_nat (List.length (ch :: chs)) >? 0) with true
    by (symmetry; rewrite Z.gtb_ltb; apply Z.ltb_lt; cbn [List.length]; lia).
  eexists. split; [reflexivity|].
  rewrite close_all_state, close_all_channels, close_all_trace.
  repeat split; assumption.
Qed.

Lemma disconnectFromHost_closes_channels_witness :
  exists c' : SshClient,
    _ssh_processEvent 0
      (disconnectFromHost (set_channels [4; 5] (client_in Ready []))) quiet_engine
    = Done c' quiet_engine
    /\ trace c'
       = trace (disconnectFromHost (set_channels [4; 5] (client_in Ready [])))
         ++ [ChannelClose 4; ChannelClose 5].
Proof.
  destruct (disconnectFromHost_closes_channels 0
              (set_channels [4; 5] (client_in Ready [])) quiet_engine
              ltac:(simpl; discriminate) ltac:(simpl; discriminate))
    as (c' & Hrun & _ & _ & Ht).
  exists c'. split; assumption.
Defined.

Lemma removeOne_app_last (ch : Z) (l : list Z) :
  removeOne ch (l ++ [ch])
  = if in_dec Z.eq_dec ch l then removeOne ch l ++ [ch] else l.
Proof.
  induction l as [|y l IH]; simpl.
  - rewrite Z.eqb_refl. reflexivity.
  - destruct (Z.eqb ch y) eqn:E.
    + apply Z.eqb_eq in E. subst y.
      destruct (Z.eq_dec ch ch) as [H|H]; [|contradiction].
      reflexivity.
    + apply Z.eqb_neq in E.
      destruct (Z.eq_dec y ch) as [H|H]; [congruence|].
      rewrite IH. destruct (in_dec Z.eq_dec ch l); reflexivity.
Qed.

(** X3: outside DisconnectingChannel, registering a channel and then
    unregistering it gives the client back when the channel was not
    registered before.  When it was, the registry has no uniqueness: the
    call removes the earlier entry and keeps the new one at the end, so the
    registry holds the same channels in another order. *)
Theorem registerChannel_unregisterChannel :
  forall (channel : Z) (c : SshClient),
    m_sshState c <> DisconnectingChannel ->
    let c' := unregisterChannel channel (registerChannel channel c) in
    (~ In channel (m_channels c) -> c' = c)
    /\ (In channel (m_channels c) ->
        m_channels c' = removeOne channel (m_channels c) ++ [channel])
    /\ Permutation (m_channels c') (m_channels c)
    /\ trace c' = trace c /\ m_sshState c' = m_sshState c.
Proof.
  intros channel c Hs c'.
  assert (Hc' : c' = set_channels (removeOne channel (m_channels c ++ [channel])) c).
  { subst c'. rewrite unregisterChannel_bookkeeping.
    - unfold registerChannel. destruct c; reflexivity.
    - left. unfold registerChannel. destruct c; exact Hs. }
  rewrite removeOne_app_last in Hc'. clearbody c'. subst c'.
  destruct (in_dec Z.eq_dec channel (m_channels c)) as [Hin|Hnot].
  - split; [contradiction|]. split; [destruct c; reflexivity|].
    split; [|destruct c; split; reflexivity].
    replace (m_channels (set_channels (removeOne channel (m_channels c) ++ [channel]) c))
      with (removeOne channel (m_channels c) ++ [channel]) by (destruct c; reflexivity).
    eapply Permutation_trans; [apply Permutation_app_comm|].
    apply Permutation_sym. simpl. apply removeOne_In. exact Hin.
  - split; [intros _; destruct c; reflexivity|].
    split; [contradiction|].
    split; [destruct c; apply Permutation_refl | destruct c; split; reflexivity].
Qed.

Lemma registerChannel_unregisterChannel_witness :
  unregisterChannel 9 (registerChannel 9 (set_channels [1; 2] (client_in Ready [])))
  = set_channels [1; 2] (client_in Ready [])
  /\ m_channels (unregisterChannel 1
                   (registerChannel 1 (set_channels [1; 2] (client_in Ready []))))
     = [2; 1].
Proof.
  destruct (registerChannel_unregisterChannel 9
              (set_channels [1; 2] (client_in Ready []))
              ltac:(simpl; discriminate)) as (Hfresh & _).
  destruct (registerChannel_unregisterChannel 1
              (set_channels [1; 2] (client_in Ready []))
              ltac:(simpl; discriminate)) as (_ & Hdup & _).
  split.
  - apply Hfresh. simpl. intros [H|[H|[]]]; discriminate H.
  - apply Hdup. simpl. left. reflexivity.
Defined.

(** ** The channel-creation mutex, used twice *)

(** X4: taking the lock again does not count.  From a free lock, an
    identity that acquires it twice and releases it once leaves the lock
    free with no owner recorded, nothing is logged, and any identity can
    acquire it next. *)
Theorem channelCreationMutex_not_counting :
  forall (c : SshClient) (A : Z),
    channelCreationInProgress c = false ->
    let c1 := snd (takeChannelCreationMutex A c) in
    let c2 := snd (takeChannelCreationMutex A c1) in
    let c3 := releaseChannelCreationMutex A c2 in
    fst (takeChannelCreationMutex A c1) = true
    /\ channelCreationInProgress c3 = false
    /\ currentLockerForChannelCreation c3 = nullptr
    /\ trace c3 = trace c
    /\ (forall B : Z, fst (takeChannelCreationMutex B c3) = true).
Proof.
  intros c A Hfree.
  destruct c; simpl in Hfree; subst.
  unfold takeChannelCreationMutex, releaseChannelCreationMutex. cbn.
  rewrite Z.eqb_refl. cbn. rewrite Z.eqb_refl. cbn.
  repeat split; reflexivity.
Qed.

Lemma channelCreationMutex_not_counting_witness :
  channelCreationInProgress
    (releaseChannelCreationMutex 11
       (snd (takeChannelCreationMutex 11
               (snd (takeChannelCreationMutex 11 new_client))))) = false.
Proof.
  apply (channelCreationMutex_not_counting new_client 11). reflexivity.
Defined.

(** ** The keepalive probe at its edges *)

(** X5: without a session the keepalive slot does nothing at all: no
    probe, no clock reading, and the timer is not started again.  When the
    probe answers [LIBSSH2_ERROR_SOCKET_SEND] the socket is asked to
    disconnect, the clock is not read, and the timer is not started again
    either. *)
Theorem sendKeepAlive_no_probe :
  forall (c : SshClient) (e : Engine),
    (m_session c = nullptr -> _sendKeepAlive c e = (c, e))
    /\ (m_session c <> nullptr ->
        fst (shd (libssh2_keepalive_send e)) = LIBSSH2_ERROR_SOCKET_SEND ->
        fst (_sendKeepAlive c e)
        = socket_disconnectFromHost (qCWarning "Connection I/O error !!!" c)
        /\ m_keepalive (fst (_sendKeepAlive c e)) = m_keepalive c
        /\ currentMSecsSinceEpoch (snd (_sendKeepAlive c e))
           = currentMSecsSinceEpoch e).
Proof.
  intros c e. split.
  - intros Hs. unfold _sendKeepAlive. rewrite Hs. reflexivity.
  - intros Hs Hret. unfold _sendKeepAlive.
    apply Z.eqb_neq in Hs. rewrite Hs. cbn [negb].
    destruct e; simpl in Hret. unfold call_keepalive_send.
    destruct (shd libssh2_keepalive_send0) as [ret i]. simpl in Hret. subst ret.
    cbn. destruct c; repeat split; reflexivity.
Qed.

Lemma sendKeepAlive_no_probe_witness :
  _sendKeepAlive new_client (probe_engine 0 5 0) = (new_client, probe_engine 0 5 0)
  /\ fst (_sendKeepAlive (live_client 0) (probe_engine (-7) 5 0))
     = socket_disconnectFromHost
         (qCWarning "Connection I/O error !!!" (live_client 0)).
Proof.
  destruct (sendKeepAlive_no_probe new_client (probe_engine 0 5 0)) as [Hnone _].
  destruct (sendKeepAlive_no_probe (live_client 0) (probe_engine (-7) 5 0))
    as [_ Hsend].
  split.
  - apply Hnone. reflexivity.
  - apply Hsend; [simpl; discriminate | reflexivity].
Defined.

(** What the probe does when it was sent, for any advertised interval
    whose products fit the [int]. *)
Lemma sendKeepAlive_sent (c : SshClient) (e : Engine) (ret i now : Z) :
  m_session c <> nullptr ->
  shd (libssh2_keepalive_send e) = (ret, i) ->
  ret <> LIBSSH2_ERROR_SOCKET_SEND ->
  shd (currentMSecsSinceEpoch e) = now ->
  - 2 ^ 31 <= MAX_LOST_KEEP_ALIVE * i -> 1000 * (i - 1) <= INT_MAX ->
  - 2 ^ 63 <= now - m_lastProofOfLive c < 2 ^ 63 ->
  fst (_sendKeepAlive c e)
  = if Z.quot (now - m_lastProofOfLive c) 1000 >? MAX_LOST_KEEP_ALIVE * i
    then socket_disconnectFromHost (qCWarning "Connection lost !!!" c)
    else set_keepalive
           (timer_start (1000 * Z.max (i - 1) 2) (m_keepalive c)) c.
Proof.
  intros Hs Hsend Hret Hnow Hlow Hfit Hdiff.
  unfold INT_MAX in Hfit. unfold MAX_LOST_KEEP_ALIVE in *.
  unfold _sendKeepAlive.
  apply Z.eqb_neq in Hs. rewrite Hs. cbn [negb].
  destruct e; simpl in Hsend, Hnow. unfold call_keepalive_send.
  rewrite Hsend. apply Z.eqb_neq in Hret. rewrite Hret.
  unfold call_currentMSecsSinceEpoch. rewrite Hnow.
  rewrite int64_small by lia.
  unfold MAX_LOST_KEEP_ALIVE. rewrite int32_small by (unfold INT_MAX; lia).
  destruct (Z.quot (now - m_lastProofOfLive c) 1000 >? 6 * i); [reflexivity|].
  rewrite (int32_small (i - 1)) by (unfold INT_MAX; lia).
  destruct (i - 1 <? 2) eqn:E2; cbn [fst].
  - apply Z.ltb_lt in E2. rewrite Z.max_r by lia.
    rewrite int32_small by (unfold INT_MAX; lia). reflexivity.
  - apply Z.ltb_ge in E2. rewrite Z.max_l by lia.
    rewrite int32_small by (unfold INT_MAX; lia).
    rewrite (Z.mul_comm (i - 1) 1000). reflexivity.
Qed.

(** X6: a probe that was sent never starts the timer again sooner than 2
    seconds, whatever interval the engine advertises (zero and negative
    ones included, as long as the products fit the [int]): it either asks
    the socket to disconnect and leaves the timer alone, or starts the
    timer at [1000 * max (i - 1) 2 >= 2000] ms.  With an advertised
    interval of 0 one whole elapsed second is enough to disconnect. *)
Theorem sendKeepAlive_floor :
  forall (c : SshClient) (e : Engine) (ret i now : Z),
    m_session c <> nullptr ->
    shd (libssh2_keepalive_send e) = (ret, i) ->
    ret <> LIBSSH2_ERROR_SOCKET_SEND ->
    shd (currentMSecsSinceEpoch e) = now ->
    - 2 ^ 31 <= MAX_LOST_KEEP_ALIVE * i -> 1000 * (i - 1) <= INT_MAX ->
    - 2 ^ 63 <= now - m_lastProofOfLive c < 2 ^ 63 ->
    let elapsed := Z.quot (now - m_lastProofOfLive c) 1000 in
    let c' := fst (_sendKeepAlive c e) in
    ((elapsed > MAX_LOST_KEEP_ALIVE * i
      /\ m_keepalive c' = m_keepalive c
      /\ trace c' = trace c ++ [Warning "Connection lost !!!"; SocketDisconnectFromHost])
     \/ (elapsed <= MAX_LOST_KEEP_ALIVE * i
         /\ trace c' = trace c
         /\ timer_active (m_keepalive c') = true
         /\ timer_interval (m_keepalive c') = 1000 * Z.max (i - 1) 2
         /\ 2000 <= timer_interval (m_keepalive c')))
    /\ (i = 0 -> 1 <= elapsed ->
        In SocketDisconnectFromHost (trace c')).
Proof.
  intros c e ret i now Hs Hsend Hret Hnow Hlow Hfit Hdiff elapsed c'.
  assert (Hc' : c' = if elapsed >? MAX_LOST_KEEP_ALIVE * i
                     then socket_disconnectFromHost (qCWarning "Connection lost !!!" c)
                     else set_keepalive
                            (timer_start (1000 * Z.max (i - 1) 2) (m_keepalive c)) c).
  { subst c' elapsed. apply (sendKeepAlive_sent c e ret i now); assumption. }
  clearbody c'. subst c'.
  destruct (elapsed >? MAX_LOST_KEEP_ALIVE * i) eqn:E.
  - rewrite Z.gtb_ltb in E. apply Z.ltb_lt in E. split.
    + left. split; [lia|]. destruct c; simpl. rewrite <- app_assoc.
      split; reflexivity.
    + intros _ _. destruct c; simpl. apply in_or_app. right. left. reflexivity.
  - rewrite Z.gtb_ltb in E. apply Z.ltb_ge in E. split.
    + right. split; [exact E|].
      assert (Hfloor : 2000 <= 1000 * Z.max (i - 1) 2) by lia.
      destruct c; cbn [trace m_keepalive set_keepalive timer_start
                       timer_active timer_interval].
      repeat split; try reflexivity. exact Hfloor.
    + intros Hi He. unfold MAX_LOST_KEEP_ALIVE in E. lia.
Qed.

Lemma sendKeepAlive_floor_witness :
  In SocketDisconnectFromHost
     (trace (fst (_sendKeepAlive (live_client 0) (probe_engine 0 0 1000)))).
Proof.
  destruct (sendKeepAlive_floor (live_client 0) (probe_engine 0 0 1000) 0 0 1000
              ltac:(simpl; discriminate) eq_refl ltac:(discriminate) eq_refl
              ltac:(unfold MAX_LOST_KEEP_ALIVE; lia) ltac:(unfold INT_MAX; lia)
              ltac:(simpl; lia)) as [_ Hzero].
  apply Hzero; [reflexivity | vm_compute; discriminate].
Defined.

(** X7: data resets the deadline.  A process event in state Ready stores
    the clock reading [t] as the last proof of life; a probe sent
    afterwards at clock reading [now], with at most [6 * i] whole seconds
    between the two, does not disconnect: it starts the timer again and
    adds nothing to the trace but the data signal of the process event. *)
Theorem data_resets_keepalive_deadline :
  forall (fuel : nat) (c : SshClient) (e : Engine) (t now ret i : Z),
    m_sshState c = Ready -> m_session c <> nullptr ->
    shd (currentMSecsSinceEpoch e) = t ->
    shd (stl (currentMSecsSinceEpoch e)) = now ->
    shd (libssh2_keepalive_send e) = (ret, i) ->
    ret <> LIBSSH2_ERROR_SOCKET_SEND ->
    0 < i -> 1000 * (i - 1) <= INT_MAX ->
    - 2 ^ 63 <= now - t < 2 ^ 63 ->
    Z.quot (now - t) 1000 <= MAX_LOST_KEEP_ALIVE * i ->
    exists (c1 : SshClient) (e1 : Engine),
      _ssh_processEvent fuel c e = Done c1 e1
      /\ m_lastProofOfLive c1 = t
      /\ let c2 := fst (_sendKeepAlive c1 e1) in
         trace c2 = trace c ++ [Emit sshDataReceived]
         /\ timer_active (m_keepalive c2) = true
         /\ timer_interval (m_keepalive c2) = 1000 * Z.max (i - 1) 2
         /\ m_sshState c2 = Ready.
Proof.
  intros fuel c e t now ret i Hs Hses Ht Hnow Hsend Hret Hi Hfit Hdiff Hle.
  unfold _ssh_processEvent, from_Ready, case_Ready. rewrite Hs.
  destruct (call_currentMSecsSinceEpoch e) as [t' e1] eqn:Hcall.
  assert (Ht' : t' = t /\ shd (currentMSecsSinceEpoch e1) = now
                /\ shd (libssh2_keepalive_send e1) = (ret, i)).
  { destruct e; simpl in *. injection Hcall as <- <-. simpl.
    repeat split; assumption. }
  destruct Ht' as (-> & Hnow1 & Hsend1).
  eexists. eexists. split; [reflexivity|].
  split; [destruct c; reflexivity|].
  set (c1 := emit sshDataReceived (set_lastProofOfLive t c)).
  assert (Hl : m_lastProofOfLive c1 = t) by (destruct c; reflexivity).
  assert (Hs1 : m_session c1 <> nullptr) by (destruct c; exact Hses).
  rewrite (sendKeepAlive_sent c1 e1 ret i now Hs1 Hsend1 Hret Hnow1
             ltac:(unfold MAX_LOST_KEEP_ALIVE; lia) Hfit
             ltac:(rewrite Hl; exact Hdiff)).
  rewrite Hl.
  replace (Z.quot (now - t) 1000 >? MAX_LOST_KEEP_ALIVE * i) with false
    by (symmetry; rewrite Z.gtb_ltb; apply Z.ltb_ge; exact Hle).
  subst c1. destruct c; simpl in *. subst. repeat split; reflexivity.
Qed.

Lemma data_resets_keepalive_deadline_witness :
  exists (c1 : SshClient) (e1 : Engine),
    _ssh_processEvent 0 (client_in Ready []) (probe_engine 0 5 40000) = Done c1 e1
    /\ m_lastProofOfLive c1 = 40000
    /\ timer_interval (m_keepalive (fst (_sendKeepAlive c1 e1))) = 4000.
Proof.
  destruct (data_resets_keepalive_deadline 0 (client_in Ready [])
              (probe_engine 0 5 40000) 40000 40000 0 5
              eq_refl ltac:(simpl; discriminate) eq_refl eq_refl eq_refl
              ltac:(discriminate) ltac:(lia) ltac:(unfold INT_MAX; lia)
              ltac:(lia) ltac:(vm_compute; discriminate))
    as (c1 & e1 & Hrun & Hlast & _ & _ & Hint & _).
  exists c1, e1. split; [exact Hrun|]. split; [exact Hlast | exact Hint].
Defined.

(** ** Waiting for a state *)

(** X8: when [waitForState] returns, it returns true exactly when the
    client is in the awaited state, and false only with the client in
    state Error; so waiting for Error never returns false.  When the
    client is already in the awaited state or in Error, it returns at once
    without running the event loop. *)
Theorem waitForState_result :
  forall (state : SshState) (execs : list (SshClient -> SshClient))
         (c : SshClient) (reached : bool) (c' : SshClient),
    waitForState state execs c = Some (reached, c') ->
    (reached = true <-> m_sshState c' = state)
    /\ (reached = false -> m_sshState c' = Error)
    /\ (state = Error -> reached = true)
    /\ (m_sshState c = state \/ m_sshState c = Error -> c' = c).
Proof.
  intros state execs. induction execs as [|exec execs IH];
    intros c reached c' H; simpl in H; unfold sshState in H.
  - destruct (SshState_eqb (m_sshState c) Error) eqn:Eerr;
      destruct (SshState_eqb (m_sshState c) state) eqn:Est;
      simpl in H; try discriminate H; injection H as <- <-.
    + apply SshState_eqb_eq in Eerr, Est.
      repeat split; auto; congruence.
    + apply SshState_eqb_eq in Eerr. apply SshState_eqb_neq in Est.
      repeat split; auto; try congruence; discriminate.
    + apply SshState_eqb_eq in Est.
      repeat split; auto; congruence.
  - destruct (SshState_eqb (m_sshState c) Error) eqn:Eerr;
      destruct (SshState_eqb (m_sshState c) state) eqn:Est; simpl in H.
    + injection H as <- <-. apply SshState_eqb_eq in Eerr, Est.
      repeat split; auto; congruence.
    + injection H as <- <-. apply SshState_eqb_eq in Eerr.
      apply SshState_eqb_neq in Est.
      repeat split; auto; try congruence; discriminate.
    + injection H as <- <-. apply SshState_eqb_eq in Est.
      repeat split; auto; congruence.
    + apply SshState_eqb_neq in Eerr, Est.
      destruct (IH (exec c) reached c' H) as (H1 & H2 & H3 & _).
      repeat split; try apply H1; auto.
      intros [Hc|Hc]; contradiction.
Qed.

Lemma waitForState_result_witness :
  waitForState Unconnected [_connection_socketDisconnected;
                            fun c => set_sshState_field Unconnected c]
               (client_in Ready [])
  = Some (true, set_sshState_field Unconnected
                  (_connection_socketDisconnected (client_in Ready [])))
  /\ m_sshState (set_sshState_field Unconnected
                   (_connection_socketDisconnected (client_in Ready [])))
     = Unconnected.
Proof.
  assert (H : waitForState Unconnected
                [_connection_socketDisconnected;
                 fun c => set_sshState_field Unconnected c]
                (client_in Ready [])
              = Some (true, set_sshState_field Unconnected
                              (_connection_socketDisconnected (client_in Ready []))))
    by reflexivity.
  split; [exact H|].
  apply (waitForState_result _ _ _ _ _ H). reflexivity.
Defined.

(** ** What the passes toward Ready leave alone *)

Lemma quiet_stateChanged (s : SshState) : quiet (Emit (sshStateChanged s)).
Proof. split; discriminate. Qed.

Lemma extends_quietly_refl (c : SshClient) : extends_quietly c c.
Proof. exists []. split; [rewrite app_nil_r; reflexivity | constructor]. Qed.

Lemma extends_quietly_trans (c c1 c2 : SshClient) :
  extends_quietly c c1 -> extends_quietly c1 c2 -> extends_quietly c c2.
Proof.
  intros (a1 & H1 & Q1) (a2 & H2 & Q2). exists (a1 ++ a2). split.
  - rewrite H2, H1, app_assoc. reflexivity.
  - apply Forall_app. split; assumption.
Qed.

Lemma extends_quietly_effect (x : Effect) (c : SshClient) :
  quiet x -> extends_quietly c (effect x c).
Proof.
  intros Hq. exists [x]. split; [destruct c; reflexivity|].
  constructor; [exact Hq | constructor].
Qed.

Lemma extends_quietly_setSshState (s : SshState) (c : SshClient) :
  extends_quietly c (setSshState s c).
Proof.
  unfold setSshState. destruct (negb (SshState_eqb (m_sshState c) s)).
  - exists [Emit (sshStateChanged s)]. split; [destruct c; reflexivity|].
    constructor; [apply quiet_stateChanged | constructor].
  - apply extends_quietly_refl.
Qed.

Lemma extends_quietly_same_trace (c c' : SshClient) :
  trace c' = trace c -> extends_quietly c c'.
Proof.
  intros H. exists []. split; [rewrite app_nil_r; exact H | constructor].
Qed.

Lemma loop_frame_refl (c : SshClient) : loop_frame c c.
Proof. repeat split; try reflexivity. apply extends_quietly_refl. Qed.

Lemma loop_frame_trans (c c1 c2 : SshClient) :
  loop_frame c c1 -> loop_frame c1 c2 -> loop_frame c c2.
Proof.
  intros (A1 & A2 & A3 & A4 & A5) (B1 & B2 & B3 & B4 & B5).
  repeat split; try congruence.
  eapply extends_quietly_trans; eassumption.
Qed.

Lemma loop_frame_effect (x : Effect) (c : SshClient) :
  quiet x -> loop_frame c (effect x c).
Proof.
  intros Hq. repeat split; try (destruct c; reflexivity).
  apply extends_quietly_effect. exact Hq.
Qed.

Lemma loop_frame_setSshState (s : SshState) (c : SshClient) :
  loop_frame c (setSshState s c).
Proof.
  repeat split; try apply extends_quietly_setSshState;
    unfold setSshState; destruct (negb (SshState_eqb (m_sshState c) s));
    destruct c; reflexivity.
Qed.

Lemma loop_frame_set_methodes (l : list string) (c : SshClient) :
  loop_frame c (set_authenticationMethodes l c).
Proof.
  repeat split; try (destruct c; reflexivity).
  apply extends_quietly_same_trace. destruct c; reflexivity.
Qed.

Lemma set_methodes_state (l : list string) (c : SshClient) :
  m_sshState (set_authenticationMethodes l c) = m_sshState c.
Proof. destruct c; reflexivity. Qed.

Lemma quiet_Warning (msg : string) : quiet (Warning msg).
Proof. split; discriminate. Qed.

Lemma quiet_Critical (msg : string) : quiet (Critical msg).
Proof. split; discriminate. Qed.

Lemma loop_post_after (c c1 : SshClient) (r : Loop) :
  loop_frame c c1 -> m_sshState c1 = m_sshState c ->
  loop_post c1 r -> loop_post c r.
Proof.
  intros Hf Hs. destruct r as [c' e'|[c' e'|c' e'| |]]; simpl; try exact (fun H => H).
  - intros [H1 H2]. split; [eapply loop_frame_trans; eassumption|].
    rewrite <- Hs. exact H2.
  - intros [H1 H2]. split; [eapply loop_frame_trans; eassumption | congruence].
  - intros [H1 H2]. split; [eapply loop_frame_trans; eassumption | congruence].
Qed.

Lemma try_password_post (again : SshClient -> Engine -> Loop)
      (c : SshClient) (e : Engine) :
  (forall e2 : Engine, loop_post c (again c e2)) ->
  loop_post c (try_password again c e).
Proof.
  intros Hagain. unfold try_password.
  destruct (first (m_authenticationMethodes c)) as [method|]; [|exact I].
  destruct (String.eqb method "password"); [|apply Hagain].
  destruct (call_userauth_password_ex e) as [ret e1].
  destruct (Z.eqb ret LIBSSH2_ERROR_EAGAIN).
  { simpl. split; [apply loop_frame_refl | reflexivity]. }
  destruct (ret <? 0).
  { simpl. split.
    - eapply loop_frame_trans; [apply loop_frame_effect, quiet_Warning|].
      apply loop_frame_set_methodes.
    - rewrite set_methodes_state. apply effect_state. }
  destruct (Z.eqb ret 0); [|apply Hagain].
  simpl. split; [apply loop_frame_setSshState|].
  right. apply setSshState_state.
Qed.

Lemma authentication_loop_post (fuel : nat) :
  forall (c : SshClient) (e : Engine), loop_post c (authentication_loop fuel c e).
Proof.
  induction fuel as [|fuel IH]; intros c e; [exact I|].
  cbn [authentication_loop].
  destruct (Nat.eqb (List.length (m_authenticationMethodes c)) 0).
  { simpl. split; [apply loop_frame_refl | left; reflexivity]. }
  destruct (first (m_authenticationMethodes c)) as [method|]; [|exact I].
  destruct (String.eqb method "publickey");
    [|apply try_password_post; intros e2; apply IH].
  destruct (call_userauth_publickey_frommemory e) as [ret e1].
  destruct (Z.eqb ret LIBSSH2_ERROR_EAGAIN).
  { simpl. split; [apply loop_frame_refl | reflexivity]. }
  match goal with
  | |- context [if Z.eqb ret 0 then _ else try_password _ ?x _] =>
      set (c1 := x)
  end.
  assert (Hc1 : loop_frame c c1 /\ m_sshState c1 = m_sshState c).
  { subst c1. destruct (ret <? 0).
    - split.
      + eapply loop_frame_trans; [apply loop_frame_effect, quiet_Warning|].
        apply loop_frame_set_methodes.
      + rewrite set_methodes_state. apply effect_state.
    - split; [apply loop_frame_refl | reflexivity]. }
  destruct Hc1 as [Hf Hs].
  destruct (Z.eqb ret 0).
  - simpl. split.
    + eapply loop_frame_trans; [exact Hf|].
      eapply loop_frame_trans; [apply loop_frame_effect, quiet_Warning|].
      apply loop_frame_setSshState.
    + right. apply setSshState_state.
  - apply (loop_post_after c c1); [exact Hf | exact Hs|].
    apply try_password_post. intros e2. apply IH.
Qed.

Lemma pass_post_of_frame (c c' : SshClient) :
  loop_frame c c' ->
  session_open (m_sshState c') = true \/ m_sshState c' = Error ->
  pass_post c c' /\ m_hostKey c' = m_hostKey c.
Proof.
  intros (F1 & F2 & F3 & F4 & F5) Hs. split; [|exact F3].
  split; [exact F1|]. split; [exact F2|]. split; [exact Hs|].
  split; [left; rewrite F4; reflexivity | exact F5].
Qed.

Lemma pass_post_after (c c1 c' : SshClient) :
  m_session c1 = m_session c -> m_knownHosts c1 = m_knownHosts c ->
  timer_active (m_connectionTimeout c1) = timer_active (m_connectionTimeout c) ->
  extends_quietly c c1 ->
  pass_post c1 c' -> pass_post c c'.
Proof.
  intros H1 H2 H3 H4 (P1 & P2 & P3 & P4 & P5).
  split; [congruence|]. split; [congruence|]. split; [exact P3|]. split.
  - destruct P4 as [P4|P4]; [left; congruence | right; exact P4].
  - eapply extends_quietly_trans; eassumption.
Qed.

(** Solves [extends_quietly] between two clients written out as records. *)
Ltac solve_extends :=
  first
    [ apply extends_quietly_refl
    | apply extends_quietly_same_trace; reflexivity
    | eexists; split;
      [ cbn [trace]; repeat rewrite <- app_assoc; reflexivity
      | repeat constructor; discriminate ] ].

Lemma from_Authentication_post (fuel : nat) (c : SshClient) (e : Engine)
      (c' : SshClient) :
  m_sshState c = Authentication ->
  client_after (from_Authentication fuel c e) = Some c' ->
  pass_post c c' /\ m_hostKey c' = m_hostKey c.
Proof.
  intros Hs. unfold from_Authentication, case_Authentication.
  pose proof (authentication_loop_post fuel c e) as Hl.
  destruct (authentication_loop fuel c e) as [c1 e1|r].
  - destruct Hl as [(F1 & F2 & F3 & F4 & F5) Hst].
    destruct (call_userauth_authenticated e1) as [a e2].
    destruct (negb (Z.eqb a 0)); simpl.
    + unfold from_Ready, case_Ready.
      destruct (call_currentMSecsSinceEpoch e2) as [now e3]. simpl.
      intros H. injection H as <-.
      assert (Hc1 : forall c1 : SshClient,
                 let c2 := emit sshDataReceived
                             (set_lastProofOfLive now
                                (emit sshReady
                                   (setSshState Ready
                                      (set_keepalive
                                         (timer_start 1000
                                            (m_keepalive
                                               (set_keepalive
                                                  (timer_setSingleShot true
                                                     (m_keepalive
                                                        (set_connectionTimeout
                                                           (timer_stop (m_connectionTimeout c1)) c1)))
                                                  (set_connectionTimeout
                                                     (timer_stop (m_connectionTimeout c1)) c1))))
                                         (set_keepalive
                                            (timer_setSingleShot true
                                               (m_keepalive
                                                  (set_connectionTimeout
                                                     (timer_stop (m_connectionTimeout c1)) c1)))
                                            (set_connectionTimeout
                                               (timer_stop (m_connectionTimeout c1)) c1)))))) in
                 m_session c2 = m_session c1 /\ m_knownHosts c2 = m_knownHosts c1
                 /\ m_hostKey c2 = m_hostKey c1 /\ m_sshState c2 = Ready
                 /\ extends_quietly c1 c2).
      { intros [st ? ? ? ? ? ? ? ? ? ? ? ? ? ? ? ?]. unfold setSshState. cbn.
        destruct (SshState_eqb st Ready) eqn:E;
          [apply SshState_eqb_eq in E; subst st|]; cbn;
          (split; [reflexivity|]); (split; [reflexivity|]);
          (split; [reflexivity|]); (split; [reflexivity|]); solve_extends. }
      destruct (Hc1 c1) as (G1 & G2 & G3 & G4 & G5).
      split; [|congruence].
      split; [congruence|]. split; [congruence|]. split; [|split].
      * left. rewrite G4. reflexivity.
      * right. exact G4.
      * eapply extends_quietly_trans; eassumption.
    + intros H. injection H as <-.
      assert (Hf : loop_frame c (setSshState Error (qCWarning "Authentication failed" c1))).
      { eapply loop_frame_trans;
          [exact (conj F1 (conj F2 (conj F3 (conj F4 F5))))|].
        eapply loop_frame_trans; [apply loop_frame_effect, quiet_Warning|].
        apply loop_frame_setSshState. }
      apply pass_post_of_frame; [exact Hf|]. right. apply setSshState_state.
  - destruct r as [c1 e1|c1 e1| |]; simpl; intros H; try discriminate H;
      injection H as <-; destruct Hl as [Hf Hs1];
      (apply pass_post_of_frame; [exact Hf|]); left; rewrite Hs1, Hs; reflexivity.
Qed.

Lemma from_GetAuthenticationMethodes_post (fuel : nat) (c : SshClient)
      (e : Engine) (c' : SshClient) :
  m_sshState c = GetAuthenticationMethodes ->
  client_after (from_GetAuthenticationMethodes fuel c e) = Some c' ->
  pass_post c c' /\ m_hostKey c' = m_hostKey c.
Proof.
  intros Hs. unfold from_GetAuthenticationMethodes, case_GetAuthenticationMethodes.
  assert (Hgo : forall (c1 : SshClient) (e1 : Engine),
             loop_frame c c1 -> m_sshState c1 = Authentication ->
             client_after (from_Authentication fuel c1 e1) = Some c' ->
             pass_post c c' /\ m_hostKey c' = m_hostKey c).
  { intros c1 e1 (F1 & F2 & F3 & F4 & F5) Hs1 H.
    destruct (from_Authentication_post fuel c1 e1 c' Hs1 H) as [P Hk].
    split; [|congruence].
    apply (pass_post_after c c1 c'); try assumption. rewrite F4. reflexivity. }
  destruct (Nat.eqb (List.length (m_authenticationMethodes c)) 0).
  - destruct (call_userauth_list e) as [[alist|] e1].
    + simpl. apply Hgo; [|apply setSshState_state].
      eapply loop_frame_trans; [apply loop_frame_set_methodes|].
      apply loop_frame_setSshState.
    + destruct (call_session_last_error e1) as [ret e2].
      destruct (Z.eqb ret LIBSSH2_ERROR_EAGAIN); simpl; intros H; injection H as <-.
      * apply pass_post_of_frame; [apply loop_frame_refl|].
        left. rewrite Hs. reflexivity.
      * apply pass_post_of_frame.
        -- eapply loop_frame_trans; [apply loop_frame_setSshState|].
           apply loop_frame_effect. split; discriminate.
        -- right. unfold socket_disconnectFromHost.
           rewrite effect_state. apply setSshState_state.
  - simpl. apply Hgo; [apply loop_frame_setSshState | apply setSshState_state].
Qed.

Lemma handshake_done_frame (hash key : list Byte.byte) (type : Z) (c : SshClient) :
  let c1 := setSshState GetAuthenticationMethodes
              (set_hostKey (mkSshKey hash key (hostkey_type type)) c) in
  m_session c1 = m_session c /\ m_knownHosts c1 = m_knownHosts c
  /\ m_connectionTimeout c1 = m_connectionTimeout c
  /\ extends_quietly c c1.
Proof.
  unfold setSshState. destruct c as [st ? ? ? ? ? ? ? ? ? ? ? ? ? ? ? ?]. cbn.
  destruct (negb (SshState_eqb st GetAuthenticationMethodes)); cbn;
    (split; [reflexivity|]); (split; [reflexivity|]);
    (split; [reflexivity|]); solve_extends.
Qed.

Lemma initialize_done_frame (session knownHosts : Z) (c : SshClient) :
  let c0 := set_knownHosts knownHosts (set_session session c) in
  let c1 := setSshState HandShake
              (if negb (Nat.eqb (String.length (m_knowhostFiles c0)) 0)
               then effect (KnownhostReadfile (m_knowhostFiles c0)) c0
               else c0) in
  m_session c1 = session /\ m_knownHosts c1 = knownHosts
  /\ m_connectionTimeout c1 = m_connectionTimeout c
  /\ extends_quietly c c1.
Proof.
  unfold setSshState. destruct c as [st ? ? ? ? ? ? ? ? ? ? ? ? ? ? ? ?]. cbn.
  destruct (Nat.eqb (String.length m_knowhostFiles0) 0); cbn;
    destruct (negb (SshState_eqb st HandShake)); cbn;
    (split; [reflexivity|]); (split; [reflexivity|]);
    (split; [reflexivity|]); solve_extends.
Qed.

Lemma from_HandShake_post (fuel : nat) (c : SshClient) (e : Engine)
      (c' : SshClient) :
  m_sshState c = HandShake ->
  client_after (from_HandShake fuel c e) = Some c' ->
  pass_post c c'.
Proof.
  intros Hs. unfold from_HandShake, case_HandShake.
  destruct (call_session_handshake e) as [ret e1].
  destruct (Z.eqb ret LIBSSH2_ERROR_EAGAIN).
  { simpl. intros H. injection H as <-.
    apply pass_post_of_frame; [apply loop_frame_refl|].
    left. rewrite Hs. reflexivity. }
  assert (Herr : forall msg : string,
             pass_post c (socket_disconnectFromHost
                            (setSshState Error (qCCritical msg c)))).
  { intros msg. apply pass_post_of_frame.
    - eapply loop_frame_trans; [apply loop_frame_effect, quiet_Critical|].
      eapply loop_frame_trans; [apply loop_frame_setSshState|].
      apply loop_frame_effect. split; discriminate.
    - right. unfold socket_disconnectFromHost.
      rewrite effect_state. apply setSshState_state. }
  destruct (negb (Z.eqb ret 0)).
  { simpl. intros H. injection H as <-. apply Herr. }
  destruct (call_session_hostkey e1) as [[[key type]|] e2].
  - destruct (call_hostkey_hash e2) as [hash e3]. simpl. intros H.
    set (c1 := setSshState GetAuthenticationMethodes
                 (set_hostKey (mkSshKey hash key (hostkey_type type)) c)) in H.
    assert (Hs1 : m_sshState c1 = GetAuthenticationMethodes)
      by apply setSshState_state.
    destruct (from_GetAuthenticationMethodes_post fuel c1 e3 c' Hs1 H) as [P _].
    destruct (handshake_done_frame hash key type c) as (G1 & G2 & G3 & G4).
    fold c1 in G1, G2, G3, G4.
    apply (pass_post_after c c1 c'); try assumption. rewrite G3. reflexivity.
  - simpl. intros H. injection H as <-. apply Herr.
Qed.

(** A pass from Initialize: it ends in Error, or with both handles set and
    the session open. *)
Lemma from_Initialize_post (fuel : nat) (c : SshClient) (e : Engine)
      (c' : SshClient) :
  client_after (from_Initialize fuel c e) = Some c' ->
  (m_sshState c' = Error
   \/ (m_session c' <> nullptr /\ m_knownHosts c' <> nullptr
       /\ session_open (m_sshState c') = true))
  /\ (timer_active (m_connectionTimeout c')
      = timer_active (m_connectionTimeout c) \/ m_sshState c' = Ready)
  /\ extends_quietly c c'.
Proof.
  unfold from_Initialize, case_Initialize.
  destruct (call_session_init_ex e) as [session e1].
  replace (m_session (set_session session c)) with session
    by (destruct c; reflexivity).
  destruct (Z.eqb session nullptr) eqn:Eses.
  { simpl. intros H. injection H as <-.
    split; [left; unfold socket_disconnectFromHost; rewrite effect_state;
            apply setSshState_state|].
    unfold setSshState, socket_disconnectFromHost, qCCritical.
    destruct c as [st ? ? ? ? ? ? ? ? ? ? ? ? ? ? ? ?]. cbn.
    destruct (negb (SshState_eqb st Error)); cbn;
      (split; [left; reflexivity | solve_extends]). }
  destruct (call_knownhost_init e1) as [knownHosts e2].
  replace (m_knownHosts (set_knownHosts knownHosts (set_session session c)))
    with knownHosts by (destruct c; reflexivity).
  destruct (Z.eqb knownHosts nullptr) eqn:Ekh; [discriminate|].
  simpl. intros H.
  match type of H with
  | client_after (from_HandShake _ ?x _) = _ => set (c1 := x) in H
  end.
  assert (Hs1 : m_sshState c1 = HandShake) by apply setSshState_state.
  pose proof (from_HandShake_post fuel c1 e2 c' Hs1 H) as (P1 & P2 & P3 & P4 & P5).
  destruct (initialize_done_frame session knownHosts c) as (G1 & G2 & G3 & G4).
  fold c1 in G1, G2, G3, G4.
  apply Z.eqb_neq in Eses, Ekh.
  split; [|split].
  - destruct P3 as [P3|P3]; [right | left; exact P3].
    split; [congruence|]. split; [congruence | exact P3].
  - destruct P4 as [P4|P4]; [left; congruence | right; exact P4].
  - eapply extends_quietly_trans; eassumption.
Qed.

(** ** Failures on the way to Ready, with the socket reacting *)

Lemma pass_post_in_of_quiet (c c' : SshClient) :
  extends_quietly c c' ->
  session_open (m_sshState c') = true \/ m_sshState c' = Error ->
  pass_post_in c c'.
Proof.
  intros (added & Ht & Hq) Hs. split; [tauto|].
  exists added. split; [exact Ht|]. rewrite Forall_forall in Hq. split.
  - intros Hbad. destruct (Hq _ Hbad) as [H _]. congruence.
  - split.
    + intros Hbad. destruct (Hq _ Hbad) as [_ H]. congruence.
    + intros Hf. rewrite Hf in Hs. destruct Hs as [Hs|Hs]; discriminate Hs.
Qed.

Lemma pass_post_in_after (c c1 c' : SshClient) :
  extends_quietly c c1 -> pass_post_in c1 c' -> pass_post_in c c'.
Proof.
  intros (a1 & H1 & Q1) (Hs & a2 & H2 & N2 & E2). split; [exact Hs|].
  exists (a1 ++ a2). rewrite Forall_forall in Q1.
  split; [rewrite H2, H1, app_assoc; reflexivity|]. split.
  - intros Hbad. apply in_app_or in Hbad. destruct Hbad as [Hbad|Hbad].
    + destruct (Q1 _ Hbad) as [H _]. congruence.
    + exact (N2 Hbad).
  - split.
    + intros Hin. apply in_app_or in Hin. destruct Hin as [Hin|Hin].
      * destruct (Q1 _ Hin) as [_ H]. congruence.
      * apply E2. exact Hin.
    + intros Hf. apply in_or_app. right. apply E2. exact Hf.
Qed.

(** The end of every failure on the way to Ready: the state is Error and
    the socket is asked to disconnect. *)
Lemma disconnect_after_error (w : World) (c : SshClient) :
  m_sshState c = Error -> pass_post_in c (socket_disconnectFromHost_in w c).
Proof.
  intros Hs. unfold socket_disconnectFromHost_in, _connection_socketDisconnected,
    setSshState, pass_post_in.
  destruct c as [st ? ? ? ? ? ? ? ? ? ? ? ? sock ? ? tr]. simpl in Hs. subst st.
  cbn.
  destruct sock; cbn;
    try match goal with
        | |- context [bytesToWrite w ?x] => destruct (bytesToWrite w x); cbn
        end;
    (split; [tauto|]);
    first [ exists [SocketDisconnectFromHost]; split; [reflexivity|];
            split; [simpl; intros [H|[]]; discriminate H|];
            split; [simpl; intros [H|[]]; discriminate H | discriminate]
          | exists [SocketDisconnectFromHost; Warning "ssh socket disconnected";
                    Emit (sshStateChanged FreeSession); Emit sshEvent];
            split; [repeat rewrite <- app_assoc; reflexivity|];
            split; [simpl; intros [H|[H|[H|[H|[]]]]]; discriminate H|];
            split; [reflexivity | simpl; tauto] ].
Qed.

Lemma extends_quietly_set_session (v : Z) (c : SshClient) :
  extends_quietly c (set_session v c).
Proof. apply extends_quietly_same_trace. destruct c; reflexivity. Qed.

Lemma extends_quietly_set_knownHosts (v : Z) (c : SshClient) :
  extends_quietly c (set_knownHosts v c).
Proof. apply extends_quietly_same_trace. destruct c; reflexivity. Qed.

Lemma extends_quietly_set_hostKey (v : SshKey) (c : SshClient) :
  extends_quietly c (set_hostKey v c).
Proof. apply extends_quietly_same_trace. destruct c; reflexivity. Qed.

Lemma extends_quietly_set_methodes (v : list string) (c : SshClient) :
  extends_quietly c (set_authenticationMethodes v c).
Proof. apply extends_quietly_same_trace. destruct c; reflexivity. Qed.

(** Peels quiet steps off the client on the right. *)
Ltac quiet_peel :=
  unfold emit, qCWarning, qCCritical;
  repeat first
    [ apply extends_quietly_refl
    | eapply extends_quietly_trans; [|apply extends_quietly_setSshState]
    | eapply extends_quietly_trans;
      [|apply extends_quietly_effect; split; discriminate]
    | eapply extends_quietly_trans; [|apply extends_quietly_set_session]
    | eapply extends_quietly_trans; [|apply extends_quietly_set_knownHosts]
    | eapply extends_quietly_trans; [|apply extends_quietly_set_hostKey]
    | eapply extends_quietly_trans; [|apply extends_quietly_set_methodes] ].

Lemma from_Authentication_in_returns (fuel : nat) (c : SshClient) (e : Engine)
      (c' : SshClient) :
  client_after (from_Authentication_in fuel c e) = Some c' ->
  client_after (from_Authentication fuel c e) = Some c'.
Proof.
  unfold from_Authentication_in, case_Authentication_in, from_Authentication.
  destruct (Z.eqb (m_session c) nullptr); [|exact (fun H => H)].
  destruct (first (m_authenticationMethodes c)) as [method|];
    [|discriminate].
  destruct (recognized method); [discriminate | exact (fun H => H)].
Qed.

Lemma from_Authentication_in_post (fuel : nat) (c : SshClient) (e : Engine)
      (c' : SshClient) :
  m_sshState c = Authentication ->
  client_after (from_Authentication_in fuel c e) = Some c' ->
  pass_post_in c c'.
Proof.
  intros Hs H. apply from_Authentication_in_returns in H.
  destruct (from_Authentication_post fuel c e c' Hs H) as [(_ & _ & P3 & _ & P5) _].
  apply pass_post_in_of_quiet; assumption.
Qed.

Lemma from_GetAuthenticationMethodes_in_post (w : World) (fuel : nat)
      (c : SshClient) (e : Engine) (c' : SshClient) :
  m_sshState c = GetAuthenticationMethodes ->
  client_after (from_GetAuthenticationMethodes_in w fuel c e) = Some c' ->
  pass_post_in c c'.
Proof.
  intros Hs.
  unfold from_GetAuthenticationMethodes_in, case_GetAuthenticationMethodes_in.
  assert (Hgo : forall (c1 : SshClient) (e1 : Engine),
             extends_quietly c c1 -> m_sshState c1 = Authentication ->
             client_after (from_Authentication_in fuel c1 e1) = Some c' ->
             pass_post_in c c').
  { intros c1 e1 Hq Hs1 H. apply (pass_post_in_after c c1 c' Hq).
    apply (from_Authentication_in_post fuel c1 e1 c' Hs1 H). }
  destruct (Nat.eqb (List.length (m_authenticationMethodes c)) 0).
  - destruct (Z.eqb (m_session c) nullptr); [discriminate|].
    destruct (call_userauth_list e) as [[alist|] e1].
    + simpl. apply Hgo; [quiet_peel | apply setSshState_state].
    + destruct (call_session_last_error e1) as [ret e2].
      destruct (Z.eqb ret LIBSSH2_ERROR_EAGAIN); simpl; intros H; injection H as <-.
      * apply pass_post_in_of_quiet; [apply extends_quietly_refl|].
        left. rewrite Hs. reflexivity.
      * apply (pass_post_in_after c (setSshState Error c)); [quiet_peel|].
        apply disconnect_after_error. apply setSshState_state.
  - simpl. apply Hgo; [quiet_peel | apply setSshState_state].
Qed.

Lemma from_HandShake_in_post (w : World) (fuel : nat) (c : SshClient)
      (e : Engine) (c' : SshClient) :
  m_sshState c = HandShake ->
  client_after (from_HandShake_in w fuel c e) = Some c' ->
  pass_post_in c c'.
Proof.
  intros Hs. unfold from_HandShake_in, case_HandShake_in.
  destruct (Z.eqb (m_session c) nullptr); [discriminate|].
  destruct (call_session_handshake e) as [ret e1].
  destruct (Z.eqb ret LIBSSH2_ERROR_EAGAIN).
  { simpl. intros H. injection H as <-.
    apply pass_post_in_of_quiet; [apply extends_quietly_refl|].
    left. rewrite Hs. reflexivity. }
  assert (Herr : forall msg : string,
             pass_post_in c (socket_disconnectFromHost_in w
                               (setSshState Error (qCCritical msg c)))).
  { intros msg.
    apply (pass_post_in_after c (setSshState Error (qCCritical msg c)));
      [quiet_peel|].
    apply disconnect_after_error. apply setSshState_state. }
  destruct (negb (Z.eqb ret 0)).
  { simpl. intros H. injection H as <-. apply Herr. }
  destruct (call_session_hostkey e1) as [[[key type]|] e2].
  - destruct (call_hostkey_hash e2) as [hash e3].
    match goal with
    | |- context [if Z.eqb (m_knownHosts ?x) nullptr then _ else _] =>
        destruct (Z.eqb (m_knownHosts x) nullptr)
    end; [discriminate|].
    simpl. intros H.
    match type of H with
    | client_after (from_GetAuthenticationMethodes_in _ _ ?x _) = _ =>
        apply (pass_post_in_after c x c')
    end; [quiet_peel|].
    eapply from_GetAuthenticationMethodes_in_post; [|exact H].
    apply setSshState_state.
  - simpl. intros H. injection H as <-. apply Herr.
Qed.

Lemma from_Initialize_in_post (w : World) (fuel : nat) (c : SshClient)
      (e : Engine) (c' : SshClient) :
  client_after (from_Initialize_in w fuel c e) = Some c' ->
  pass_post_in c c'.
Proof.
  unfold from_Initialize_in, case_Initialize_in.
  destruct (call_session_init_ex e) as [session e1].
  destruct (Z.eqb (m_session (set_session session c)) nullptr).
  { simpl. intros H. injection H as <-.
    match goal with
    | |- pass_post_in _ (socket_disconnectFromHost_in _ ?x) =>
        apply (pass_post_in_after c x)
    end; [quiet_peel|].
    apply disconnect_after_error. apply setSshState_state. }
  destruct (call_knownhost_init e1) as [knownHosts e2].
  match goal with
  | |- context [if ?b && negb (QT_NO_DEBUG w) then _ else _] =>
      destruct (b && negb (QT_NO_DEBUG w))
  end; [discriminate|].
  match goal with
  | |- context [if negb ?b then _ else _] => destruct (negb b)
  end.
  - match goal with
    | |- context [if ?b then Leave Fault else _] => destruct b
    end; [discriminate|].
    simpl. intros H.
    match type of H with
    | client_after (from_HandShake_in _ _ ?x _) = _ =>
        apply (pass_post_in_after c x c')
    end; [quiet_peel|].
    eapply from_HandShake_in_post; [|exact H]. apply setSshState_state.
  - simpl. intros H.
    match type of H with
    | client_after (from_HandShake_in _ _ ?x _) = _ =>
        apply (pass_post_in_after c x c')
    end; [quiet_peel|].
    eapply from_HandShake_in_post; [|exact H]. apply setSshState_state.
Qed.

(** X9: a pass that begins in Initialize, HandShake,
    GetAuthenticationMethodes or Authentication and returns never emits
    [sshError], whatever the socket does when it is asked to disconnect.
    It leaves the session open or in state Error, and then no process
    event ([sshEvent]) is queued: the error signal is only sent by a later
    process event taken in state Error.  Or the failure's
    [m_socket.disconnectFromHost()] made the socket emit [disconnected()]
    at once: then the slot has run inside the pass, the state is
    FreeSession when the handler returns and the process event is queued;
    Error was set and left within the handler. *)
Theorem connect_pass_defers_error_signal :
  forall (w : World) (fuel : nat) (c : SshClient) (e : Engine) (c' : SshClient),
    In (m_sshState c)
       [Initialize; HandShake; GetAuthenticationMethodes; Authentication] ->
    client_after (_ssh_processEvent_in w fuel c e) = Some c' ->
    (session_open (m_sshState c') = true
     \/ m_sshState c' = Error \/ m_sshState c' = FreeSession)
    /\ exists added : list Effect,
         trace c' = trace c ++ added
         /\ ~ In (Emit sshError) added
         /\ (In (Emit sshEvent) added <-> m_sshState c' = FreeSession).
Proof.
  intros w fuel c e c' Hin H.
  unfold _ssh_processEvent_in in H.
  destruct Hin as [Hs|[Hs|[Hs|[Hs|[]]]]]; symmetry in Hs; rewrite Hs in H.
  - exact (from_Initialize_in_post w fuel c e c' H).
  - exact (from_HandShake_in_post w fuel c e c' Hs H).
  - exact (from_GetAuthenticationMethodes_in_post w fuel c e c' Hs H).
  - exact (from_Authentication_in_post fuel c e c' Hs H).
Qed.

Lemma connect_pass_defers_error_signal_witness :
  exists c' : SshClient,
    client_after (_ssh_processEvent_in prompt_world 1
                    (connected_client HandShake [])
                    (scripted_engine [-5] [] [] 0)) = Some c'
    /\ trace c' = [Critical "Handshake error"; Emit (sshStateChanged Error);
                   SocketDisconnectFromHost; Warning "ssh socket disconnected";
                   Emit (sshStateChanged FreeSession); Emit sshEvent]
    /\ (session_open (m_sshState c') = true
        \/ m_sshState c' = Error \/ m_sshState c' = FreeSession)
    /\ exists added : list Effect,
         trace c' = trace (connected_client HandShake []) ++ added
         /\ ~ In (Emit sshError) added
         /\ (In (Emit sshEvent) added <-> m_sshState c' = FreeSession).
Proof.
  eexists. split; [reflexivity|]. split; [reflexivity|].
  exact (connect_pass_defers_error_signal prompt_world 1
           (connected_client HandShake [])
           (scripted_engine [-5] [] [] 0) _
           (or_intror (or_introl eq_refl)) eq_refl).
Defined.

(** ** The teardown *)

Lemma teardown_pass_frame :
  forall (fuel : nat) (c : SshClient) (e : Engine),
    m_sshState c = DisconnectingSession \/ m_sshState c = FreeSession ->
    match _ssh_processEvent fuel c e with
    | Done c' _ =>
        m_sshState c' = Unconnected
        /\ m_session c' = nullptr /\ m_knownHosts c' = nullptr
        /\ m_channels c' = m_channels c
        /\ m_connectionTimeout c' = m_connectionTimeout c
        /\ m_keepalive c' = m_keepalive c
        /\ exists before : list Effect,
             trace c' = before ++ [Emit sshDisconnected;
                                   Emit (sshStateChanged Unconnected)]
    | WouldBlock c' _ =>
        (m_sshState c' = DisconnectingSession \/ m_sshState c' = FreeSession)
        /\ m_session c' = m_session c
        /\ m_channels c' = m_channels c
        /\ m_connectionTimeout c' = m_connectionTimeout c
        /\ m_keepalive c' = m_keepalive c
    | Fault | OutOfFuel => False
    end.
Proof.
  intros fuel c e Hs.
  assert (Hfree : forall (c : SshClient) (e : Engine),
             m_sshState c = DisconnectingSession \/ m_sshState c = FreeSession ->
             match case_FreeSession c e with
             | Done c' _ =>
                 m_sshState c' = Unconnected
                 /\ m_session c' = nullptr /\ m_knownHosts c' = nullptr
                 /\ m_channels c' = m_channels c
                 /\ m_connectionTimeout c' = m_connectionTimeout c
                 /\ m_keepalive c' = m_keepalive c
                 /\ exists before : list Effect,
                      trace c' = before ++ [Emit sshDisconnected;
                                            Emit (sshStateChanged Unconnected)]
             | WouldBlock c' _ =>
                 (m_sshState c' = DisconnectingSession \/ m_sshState c' = FreeSession)
                 /\ m_session c' = m_session c
                 /\ m_channels c' = m_channels c
                 /\ m_connectionTimeout c' = m_connectionTimeout c
                 /\ m_keepalive c' = m_keepalive c
             | Fault | OutOfFuel => False
             end).
  { clear. intros c e Hs. unfold case_FreeSession.
    destruct (call_session_free e) as [ret e1].
    destruct c as [st ? ? ? ? ? ses kh ? ? ? ? ? ? ? ? ?]. simpl in Hs.
    unfold setSshState.
    destruct Hs as [-> | ->]; cbn;
      (destruct (Z.eqb kh nullptr) eqn:Ekh;
       [apply Z.eqb_eq in Ekh; subst kh|]); cbn;
      (destruct (Z.eqb ses nullptr) eqn:Eses;
       [apply Z.eqb_eq in Eses; subst ses|]); cbn;
      try (destruct (Z.eqb ret LIBSSH2_ERROR_EAGAIN); cbn);
      repeat (split; [first [reflexivity | left; reflexivity | right; reflexivity]|]);
      first [ reflexivity
            | eexists; rewrite <- app_assoc; reflexivity ]. }
  unfold _ssh_processEvent. destruct Hs as [Hs|Hs]; rewrite Hs.
  - unfold case_DisconnectingSession.
    destruct (call_session_disconnect_ex e) as [ret e1].
    destruct (Z.eqb ret LIBSSH2_ERROR_EAGAIN).
    + simpl. repeat split; try reflexivity. left. exact Hs.
    + assert (Hgo : forall c1 : SshClient,
                 (m_sshState c1 = DisconnectingSession \/ m_sshState c1 = FreeSession) ->
                 m_session c1 = m_session c -> m_channels c1 = m_channels c ->
                 m_connectionTimeout c1 = m_connectionTimeout c ->
                 m_keepalive c1 = m_keepalive c ->
                 match case_FreeSession c1 e1 with
                 | Done c' _ =>
                     m_sshState c' = Unconnected
                     /\ m_session c' = nullptr /\ m_knownHosts c' = nullptr
                     /\ m_channels c' = m_channels c
                     /\ m_connectionTimeout c' = m_connectionTimeout c
                     /\ m_keepalive c' = m_keepalive c
                     /\ exists before : list Effect,
                          trace c' = before ++ [Emit sshDisconnected;
                                                Emit (sshStateChanged Unconnected)]
                 | WouldBlock c' _ =>
                     (m_sshState c' = DisconnectingSession
                      \/ m_sshState c' = FreeSession)
                     /\ m_session c' = m_session c
                     /\ m_channels c' = m_channels c
                     /\ m_connectionTimeout c' = m_connectionTimeout c
                     /\ m_keepalive c' = m_keepalive c
                 | Fault | OutOfFuel => False
                 end).
      { intros c1 Hs1 G1 G2 G3 G4. pose proof (Hfree c1 e1 Hs1) as H.
        destruct (case_FreeSession c1 e1) as [c' e'|c' e'| |]; try exact H.
        - destruct H as (H1 & H2 & H3 & H4 & H5 & H6 & H7).
          repeat (split; [congruence|]). exact H7.
        - destruct H as (H1 & H2 & H3 & H4 & H5).
          split; [exact H1|]. repeat split; congruence. }
      assert (Hdisc : forall c0 : SshClient,
                 m_sshState (socket_disconnectFromHost c0) = m_sshState c0
                 /\ m_session (socket_disconnectFromHost c0) = m_session c0
                 /\ m_channels (socket_disconnectFromHost c0) = m_channels c0
                 /\ m_connectionTimeout (socket_disconnectFromHost c0)
                    = m_connectionTimeout c0
                 /\ m_keepalive (socket_disconnectFromHost c0) = m_keepalive c0)
        by (intros c0; destruct c0; repeat split; reflexivity).
      assert (Hmove : forall c0 : SshClient,
                 let c1 := emit sshEvent (setSshState FreeSession c0) in
                 m_sshState c1 = FreeSession
                 /\ m_session c1 = m_session c0
                 /\ m_channels c1 = m_channels c0
                 /\ m_connectionTimeout c1 = m_connectionTimeout c0
                 /\ m_keepalive c1 = m_keepalive c0).
      { intros c0. unfold setSshState.
        destruct c0 as [st ? ? ? ? ? ? ? ? ? ? ? ? ? ? ? ?]. cbn.
        destruct (SshState_eqb st FreeSession) eqn:E;
          [apply SshState_eqb_eq in E; subst st|]; cbn;
          repeat split; reflexivity. }
      destruct (Hdisc c) as (D1 & D2 & D3 & D4 & D5).
      destruct (Hmove c) as (M1 & M2 & M3 & M4 & M5).
      destruct (m_socket c); simpl;
        first [ apply Hgo; [right; exact M1 | exact M2 | exact M3 | exact M4 | exact M5]
              | apply Hgo; [left; rewrite D1; exact Hs | exact D2 | exact D3
                            | exact D4 | exact D5] ].
  - apply Hfree. right. exact Hs.
Qed.

(** What [m_socket.disconnectFromHost()] leaves alone, the slot that may
    run inside it included. *)
Lemma socket_disconnectFromHost_in_frame (w : World) (c : SshClient) :
  m_session (socket_disconnectFromHost_in w c) = m_session c
  /\ m_knownHosts (socket_disconnectFromHost_in w c) = m_knownHosts c
  /\ m_channels (socket_disconnectFromHost_in w c) = m_channels c
  /\ m_connectionTimeout (socket_disconnectFromHost_in w c) = m_connectionTimeout c
  /\ m_keepalive (socket_disconnectFromHost_in w c) = m_keepalive c
  /\ m_authenticationMethodes (socket_disconnectFromHost_in w c)
     = m_authenticationMethodes c
  /\ m_hostKey (socket_disconnectFromHost_in w c) = m_hostKey c.
Proof.
  unfold socket_disconnectFromHost_in, _connection_socketDisconnected,
    setSshState.
  destruct c as [st ? ? ? ? ? ? ? ? ? ? ? ? sock ? ? ?]. cbn.
  destruct sock; cbn; try (repeat split; reflexivity);
    match goal with |- context [bytesToWrite w ?x] => destruct (bytesToWrite w x) end;
    cbn; try (repeat split; reflexivity);
    destruct (SshState_eqb st FreeSession); cbn; repeat split; reflexivity.
Qed.

Lemma case_FreeSession_frame (c : SshClient) (e : Engine) :
  m_sshState c = DisconnectingSession \/ m_sshState c = FreeSession ->
  match case_FreeSession c e with
  | Done c' _ =>
      m_sshState c' = Unconnected
      /\ m_session c' = nullptr /\ m_knownHosts c' = nullptr
      /\ m_channels c' = m_channels c
      /\ m_connectionTimeout c' = m_connectionTimeout c
      /\ m_keepalive c' = m_keepalive c
      /\ exists before : list Effect,
           trace c' = before ++ [Emit sshDisconnected;
                                 Emit (sshStateChanged Unconnected)]
  | WouldBlock c' _ =>
      (m_sshState c' = DisconnectingSession \/ m_sshState c' = FreeSession)
      /\ m_session c' = m_session c /\ m_session c' <> nullptr
      /\ m_channels c' = m_channels c
      /\ m_connectionTimeout c' = m_connectionTimeout c
      /\ m_keepalive c' = m_keepalive c
  | Fault | OutOfFuel => False
  end.
Proof.
  intros Hs. unfold case_FreeSession.
  destruct (call_session_free e) as [ret e1].
  destruct c as [st ? ? ? ? ? ses kh ? ? ? ? ? ? ? ? ?]. simpl in Hs.
  unfold setSshState.
  destruct Hs as [-> | ->]; cbn;
    (destruct (Z.eqb kh nullptr) eqn:Ekh;
     [apply Z.eqb_eq in Ekh; subst kh|]); cbn;
    (destruct (Z.eqb ses nullptr) eqn:Eses;
     [apply Z.eqb_eq in Eses; subst ses | apply Z.eqb_neq in Eses]); cbn;
    try (destruct (Z.eqb ret LIBSSH2_ERROR_EAGAIN); cbn);
    repeat (split; [first [reflexivity | left; reflexivity | right; reflexivity
                          | exact Eses]|]);
    first [ reflexivity
          | eexists; rewrite <- app_assoc; reflexivity ].
Qed.

Lemma teardown_pass_frame_in :
  forall (w : World) (fuel : nat) (c : SshClient) (e : Engine),
    m_sshState c = DisconnectingSession \/ m_sshState c = FreeSession ->
    m_sshState c = FreeSession \/ m_session c <> nullptr ->
    match _ssh_processEvent_in w fuel c e with
    | Done c' _ =>
        m_sshState c' = Unconnected
        /\ m_session c' = nullptr /\ m_knownHosts c' = nullptr
        /\ m_channels c' = m_channels c
        /\ m_connectionTimeout c' = m_connectionTimeout c
        /\ m_keepalive c' = m_keepalive c
        /\ exists before : list Effect,
             trace c' = before ++ [Emit sshDisconnected;
                                   Emit (sshStateChanged Unconnected)]
    | WouldBlock c' _ =>
        (m_sshState c' = DisconnectingSession \/ m_sshState c' = FreeSession)
        /\ m_session c' = m_session c /\ m_session c' <> nullptr
        /\ m_channels c' = m_channels c
        /\ m_connectionTimeout c' = m_connectionTimeout c
        /\ m_keepalive c' = m_keepalive c
    | Fault | OutOfFuel => False
    end.
Proof.
  intros w fuel c e Hs Hses.
  unfold _ssh_processEvent_in. destruct Hs as [Hs|Hs]; rewrite Hs;
    [|apply case_FreeSession_frame; right; exact Hs].
  destruct Hses as [Hses|Hses]; [rewrite Hs in Hses; discriminate Hses|].
  unfold case_DisconnectingSession_in.
  apply Z.eqb_neq in Hses. rewrite Hses. apply Z.eqb_neq in Hses.
  destruct (call_session_disconnect_ex e) as [ret e1].
  destruct (Z.eqb ret LIBSSH2_ERROR_EAGAIN).
  { simpl. repeat split; try reflexivity; [left; exact Hs | exact Hses]. }
  assert (Hgo : forall c1 : SshClient,
             (m_sshState c1 = DisconnectingSession \/ m_sshState c1 = FreeSession) ->
             m_session c1 = m_session c -> m_channels c1 = m_channels c ->
             m_connectionTimeout c1 = m_connectionTimeout c ->
             m_keepalive c1 = m_keepalive c ->
             match case_FreeSession c1 e1 with
             | Done c' _ =>
                 m_sshState c' = Unconnected
                 /\ m_session c' = nullptr /\ m_knownHosts c' = nullptr
                 /\ m_channels c' = m_channels c
                 /\ m_connectionTimeout c' = m_connectionTimeout c
                 /\ m_keepalive c' = m_keepalive c
                 /\ exists before : list Effect,
                      trace c' = before ++ [Emit sshDisconnected;
                                            Emit (sshStateChanged Unconnected)]
             | WouldBlock c' _ =>
                 (m_sshState c' = DisconnectingSession
                  \/ m_sshState c' = FreeSession)
                 /\ m_session c' = m_session c /\ m_session c' <> nullptr
                 /\ m_channels c' = m_channels c
                 /\ m_connectionTimeout c' = m_connectionTimeout c
                 /\ m_keepalive c' = m_keepalive c
             | Fault | OutOfFuel => False
             end).
  { intros c1 Hs1 G1 G2 G3 G4. pose proof (case_FreeSession_frame c1 e1 Hs1) as H.
    destruct (case_FreeSession c1 e1) as [c' e'|c' e'| |]; try exact H.
    - destruct H as (H1 & H2 & H3 & H4 & H5 & H6 & H7).
      repeat (split; [congruence|]). exact H7.
    - destruct H as (H1 & H2 & H3 & H4 & H5 & H6).
      split; [exact H1|]. repeat split; congruence. }
  assert (Hmove : forall c0 : SshClient,
             let c1 := emit sshEvent (setSshState FreeSession c0) in
             m_sshState c1 = FreeSession
             /\ m_session c1 = m_session c0
             /\ m_channels c1 = m_channels c0
             /\ m_connectionTimeout c1 = m_connectionTimeout c0
             /\ m_keepalive c1 = m_keepalive c0).
  { intros c0. unfold setSshState.
    destruct c0 as [st ? ? ? ? ? ? ? ? ? ? ? ? ? ? ? ?]. cbn.
    destruct (SshState_eqb st FreeSession) eqn:E;
      [apply SshState_eqb_eq in E; subst st|]; cbn;
      repeat split; reflexivity. }
  destruct (socket_disconnectFromHost_in_frame w c)
    as (D2 & _ & D3 & D4 & D5 & _).
  pose proof (socket_disconnectFromHost_in_state w c) as D1.
  destruct (Hmove c) as (M1 & M2 & M3 & M4 & M5).
  destruct (m_socket c); simpl;
    first [ apply Hgo; [right; exact M1 | exact M2 | exact M3 | exact M4 | exact M5]
          | apply Hgo; [| exact D2 | exact D3 | exact D4 | exact D5] ].
  rewrite D1. destruct (closes_at_once w c); [right; reflexivity | left; exact Hs].
Qed.

(** X10: a pass that begins in FreeSession, or in DisconnectingSession
    with a session, always returns, whatever the socket does when it is
    asked to disconnect.  It either returns on a would-block, with the
    session handle kept and the state one of these two, or ends in
    Unconnected with the session handle and the known-hosts handle null
    and [sshDisconnected] emitted just before the state change.  In both
    cases it leaves the channel registry, the connection timer and the
    keepalive timer as they are.  In DisconnectingSession without a
    session (a [disconnectFromHost] call that follows [connectToHost]
    before the session is initialised) the pass hands the null handle to
    [libssh2_session_disconnect_ex] (line 601), which is not guarded as
    the free of line 625 is. *)
Theorem teardown_releases_handles :
  forall (w : World) (fuel : nat) (c : SshClient) (e : Engine),
    m_sshState c = DisconnectingSession \/ m_sshState c = FreeSession ->
    (m_sshState c = DisconnectingSession -> m_session c = nullptr ->
     _ssh_processEvent_in w fuel c e = Fault)
    /\ (m_sshState c = FreeSession \/ m_session c <> nullptr ->
        (exists (c' : SshClient) (e' : Engine),
            _ssh_processEvent_in w fuel c e = Done c' e'
            \/ _ssh_processEvent_in w fuel c e = WouldBlock c' e')
        /\ (forall (c' : SshClient) (e' : Engine),
              _ssh_processEvent_in w fuel c e = Done c' e' ->
              m_sshState c' = Unconnected
              /\ m_session c' = nullptr /\ m_knownHosts c' = nullptr
              /\ exists before : list Effect,
                   trace c' = before ++ [Emit sshDisconnected;
                                         Emit (sshStateChanged Unconnected)])
        /\ (forall (c' : SshClient) (e' : Engine),
              _ssh_processEvent_in w fuel c e = WouldBlock c' e' ->
              (m_sshState c' = DisconnectingSession \/ m_sshState c' = FreeSession)
              /\ m_session c' = m_session c /\ m_session c' <> nullptr)
        /\ (forall c' : SshClient,
              client_after (_ssh_processEvent_in w fuel c e) = Some c' ->
              m_channels c' = m_channels c
              /\ m_connectionTimeout c' = m_connectionTimeout c
              /\ m_keepalive c' = m_keepalive c)).
Proof.
  intros w fuel c e Hs. split.
  - intros Hd Hnull. unfold _ssh_processEvent_in, case_DisconnectingSession_in.
    rewrite Hd, Hnull. reflexivity.
  - intros Hses. pose proof (teardown_pass_frame_in w fuel c e Hs Hses) as T.
    destruct (_ssh_processEvent_in w fuel c e) as [c1 e1|c1 e1| |];
      try contradiction.
    + destruct T as (T1 & T2 & T3 & T4 & T5 & T6 & T7).
      split; [exists c1, e1; left; reflexivity|]. split; [|split].
      * intros c' e' H. injection H as <- <-. repeat split; assumption.
      * intros c' e' H. discriminate H.
      * intros c' H. injection H as <-. repeat split; assumption.
    + destruct T as (T1 & T2 & T3 & T4 & T5 & T6).
      split; [exists c1, e1; right; reflexivity|]. split; [|split].
      * intros c' e' H. discriminate H.
      * intros c' e' H. injection H as <- <-. repeat split; assumption.
      * intros c' H. injection H as <-. repeat split; assumption.
Qed.

Lemma teardown_releases_handles_witness :
  (exists (c' : SshClient) (e' : Engine),
     _ssh_processEvent_in prompt_world 0
       (connected_client DisconnectingSession []) quiet_engine = Done c' e'
     /\ m_sshState c' = Unconnected /\ m_session c' = nullptr)
  /\ _ssh_processEvent_in prompt_world 0
       (disconnectFromHost (snd (connectToHost "user" "host" 22 [] new_client)))
       quiet_engine = Fault.
Proof.
  split.
  - destruct (proj2 (teardown_releases_handles prompt_world 0
                       (connected_client DisconnectingSession [])
                       quiet_engine (or_introl eq_refl)))
      as (_ & Hdone & _).
    + right. discriminate.
    + eexists. eexists. split; [reflexivity|].
      destruct (Hdone _ _ eq_refl) as (H1 & H2 & _). split; assumption.
  - exact (proj1 (teardown_releases_handles prompt_world 0
                    (disconnectFromHost
                       (snd (connectToHost "user" "host" 22 [] new_client)))
                    quiet_engine (or_introl eq_refl)) eq_refl eq_refl).
Defined.

(** ** Invariants of the whole client *)

(** Splits on the tests left in the goal, then closes [step_frame]. *)
Ltac split_tests :=
  repeat match goal with
         | |- context [if ?b then _ else _] => destruct b; cbn
         end.

Ltac close_frame :=
  split;
  [ first [ left; repeat split; reflexivity
          | right; split; [discriminate | reflexivity] ]
  | first [ left; reflexivity | right; reflexivity ] ].

Lemma request_frame (r : Request) (c : SshClient) : step_frame c (request r c).
Proof.
  destruct r; destruct c as [st ? ? ? ? ? ? ? ? ? chs ? ? ? locked owner ?];
    unfold request, connectToHost, disconnectFromHost, registerChannel,
      unregisterChannel, takeChannelCreationMutex, releaseChannelCreationMutex,
      setKownHostFile, setSshState, sshState, QMutex_tryLock, QMutex_unlock;
    destruct st; cbn; split_tests; close_frame.
Qed.

Lemma sendKeepAlive_frame (c : SshClient) (e : Engine) :
  step_frame c (fst (_sendKeepAlive c e)).
Proof.
  unfold _sendKeepAlive.
  destruct (negb (Z.eqb (m_session c) nullptr)).
  - destruct (call_keepalive_send e) as [[ret keepalive] e1].
    destruct (Z.eqb ret LIBSSH2_ERROR_SOCKET_SEND).
    + destruct c; split; [left; repeat split; reflexivity | left; reflexivity].
    + destruct (call_currentMSecsSinceEpoch e1) as [now e2].
      match goal with |- context [if ?b then _ else _] => destruct b end;
        destruct c; (split; [left; repeat split; reflexivity | left; reflexivity]).
  - split; [left; repeat split; reflexivity | left; reflexivity].
Qed.

Lemma notification_frame (fuel : nat) (d : Delivery) (c : SshClient) (e : Engine)
      (c' : SshClient) :
  d <> ProcessEvent ->
  client_after (deliver fuel d c e) = Some c' -> step_frame c c'.
Proof.
  intros Hd. destruct d; try contradiction; unfold deliver.
  - simpl. intros H. injection H as <-.
    destruct c as [st ? ? ? ? ? ? ? ? ? ? ? ? ? ? ? ?].
    unfold _connection_socketConnected, setSshState.
    destruct st; cbn; close_frame.
  - simpl. intros H. injection H as <-.
    destruct c as [st ? ? ? ? ? ? ? ? ? ? ? ? ? ? ? ?].
    unfold _connection_socketDisconnected, setSshState.
    destruct st; cbn; close_frame.
  - simpl. intros H. injection H as <-.
    destruct c as [st ? ? ? ? ? ? ? ? ? ? ? ? ? ? ? ?].
    unfold _connection_socketError, setSshState.
    destruct st; cbn; close_frame.
  - simpl. intros H. injection H as <-.
    destruct c as [st ? ? ? ? ? ? ? ? ? ? ? ? ? ? ? ?].
    unfold _connection_socketTimeout, setSshState.
    destruct st; cbn; close_frame.
  - pose proof (sendKeepAlive_frame c e) as H.
    destruct (_sendKeepAlive c e) as [c1 e1]. simpl in *.
    intros H'. injection H' as <-. exact H.
Qed.

Lemma close_all_frame (chs : list Z) (c : SshClient) :
  let c' := fold_left (fun c ch => effect (ChannelClose ch) c) chs c in
  m_session c' = m_session c /\ m_knownHosts c' = m_knownHosts c
  /\ m_connectionTimeout c' = m_connectionTimeout c.
Proof.
  revert c. induction chs as [|ch chs IH]; intros c; simpl.
  - repeat split; reflexivity.
  - destruct (IH (effect (ChannelClose ch) c)) as (H1 & H2 & H3).
    rewrite H1, H2, H3. destruct c; repeat split; reflexivity.
Qed.

Lemma processEvent_simple_frame (fuel : nat) (c : SshClient) (e : Engine)
      (c' : SshClient) :
  In (m_sshState c) [Unconnected; SocketConnection; WaitingSocketConnection;
                     Ready; DisconnectingChannel; Error] ->
  client_after (_ssh_processEvent fuel c e) = Some c' -> step_frame c c'.
Proof.
  intros Hin. unfold _ssh_processEvent.
  destruct Hin as [Hs|[Hs|[Hs|[Hs|[Hs|[Hs|[]]]]]]]; symmetry in Hs; rewrite Hs.
  - simpl. intros H. injection H as <-.
    destruct c; simpl in Hs; subst. cbn. close_frame.
  - simpl. intros H. injection H as <-.
    destruct c; simpl in Hs; subst. cbn. close_frame.
  - simpl. intros H. injection H as <-.
    destruct c; simpl in Hs; subst. cbn. close_frame.
  - unfold from_Ready, case_Ready.
    destruct (call_currentMSecsSinceEpoch e) as [now e1]. simpl.
    intros H. injection H as <-.
    destruct c; simpl in Hs; subst. cbn. close_frame.
  - unfold case_DisconnectingChannel.
    destruct (Z.of_nat (List.length (m_channels c)) >? 0); simpl;
      intros H; injection H as <-.
    + destruct (close_all_frame (m_channels c) c) as (H1 & H2 & H3).
      split; [left; rewrite close_all_state; repeat split; assumption
             | left; exact H3].
    + destruct c; simpl in Hs; subst. cbn. close_frame.
  - unfold case_Error. simpl. intros H. injection H as <-.
    destruct c as [? ? ? ? ? ? ? ? ? ? ? ? ? sock ? ? ?]; simpl in Hs; subst.
    destruct sock; cbn; close_frame.
Qed.

(** The handles and the state over a run, with the socket reacting and in
    either build. *)

Lemma same_handles_refl (c : SshClient) : same_handles c c.
Proof. split; reflexivity. Qed.

Lemma same_handles_trans (c c1 c2 : SshClient) :
  same_handles c c1 -> same_handles c1 c2 -> same_handles c c2.
Proof. intros [A1 A2] [B1 B2]. split; congruence. Qed.

Lemma same_handles_setSshState (s : SshState) (c : SshClient) :
  same_handles c (setSshState s c).
Proof.
  unfold setSshState. destruct (negb (SshState_eqb (m_sshState c) s));
    destruct c; split; reflexivity.
Qed.

Lemma same_handles_effect (x : Effect) (c : SshClient) :
  same_handles c (effect x c).
Proof. destruct c; split; reflexivity. Qed.

Lemma same_handles_set_methodes (l : list string) (c : SshClient) :
  same_handles c (set_authenticationMethodes l c).
Proof. destruct c; split; reflexivity. Qed.

Lemma same_handles_set_hostKey (k : SshKey) (c : SshClient) :
  same_handles c (set_hostKey k c).
Proof. destruct c; split; reflexivity. Qed.

Lemma same_handles_socket_disconnectFromHost_in (w : World) (c : SshClient) :
  same_handles c (socket_disconnectFromHost_in w c).
Proof.
  destruct (socket_disconnectFromHost_in_frame w c) as (H1 & H2 & _).
  split; assumption.
Qed.

Ltac handles_peel :=
  unfold emit, qCWarning, qCCritical;
  repeat first
    [ apply same_handles_refl
    | eapply same_handles_trans; [|apply same_handles_socket_disconnectFromHost_in]
    | eapply same_handles_trans; [|apply same_handles_setSshState]
    | eapply same_handles_trans; [|apply same_handles_effect]
    | eapply same_handles_trans; [|apply same_handles_set_methodes]
    | eapply same_handles_trans; [|apply same_handles_set_hostKey] ].

Lemma from_Authentication_in_handles (fuel : nat) (c : SshClient) (e : Engine)
      (c' : SshClient) :
  m_sshState c = Authentication ->
  client_after (from_Authentication_in fuel c e) = Some c' ->
  same_handles c c'.
Proof.
  intros Hs H. apply from_Authentication_in_returns in H.
  destruct (from_Authentication_post fuel c e c' Hs H) as [(P1 & P2 & _) _].
  split; assumption.
Qed.

Lemma from_GetAuthenticationMethodes_in_handles (w : World) (fuel : nat)
      (c : SshClient) (e : Engine) (c' : SshClient) :
  m_sshState c = GetAuthenticationMethodes ->
  client_after (from_GetAuthenticationMethodes_in w fuel c e) = Some c' ->
  same_handles c c'.
Proof.
  intros Hs.
  unfold from_GetAuthenticationMethodes_in, case_GetAuthenticationMethodes_in.
  assert (Hgo : forall (c1 : SshClient) (e1 : Engine),
             same_handles c c1 -> m_sshState c1 = Authentication ->
             client_after (from_Authentication_in fuel c1 e1) = Some c' ->
             same_handles c c').
  { intros c1 e1 Hh Hs1 H. apply (same_handles_trans c c1 c' Hh).
    apply (from_Authentication_in_handles fuel c1 e1 c' Hs1 H). }
  destruct (Nat.eqb (List.length (m_authenticationMethodes c)) 0).
  - destruct (Z.eqb (m_session c) nullptr); [discriminate|].
    destruct (call_userauth_list e) as [[alist|] e1].
    + simpl. apply Hgo; [handles_peel | apply setSshState_state].
    + destruct (call_session_last_error e1) as [ret e2].
      destruct (Z.eqb ret LIBSSH2_ERROR_EAGAIN); simpl; intros H;
        injection H as <-; handles_peel.
  - simpl. apply Hgo; [handles_peel | apply setSshState_state].
Qed.

(** A pass from HandShake keeps the handles; it goes past the handshake
    only with a known-hosts collection, which [libssh2_knownhost_check]
    reads. *)
Lemma from_HandShake_in_handles (w : World) (fuel : nat) (c : SshClient)
      (e : Engine) (c' : SshClient) :
  m_sshState c = HandShake ->
  client_after (from_HandShake_in w fuel c e) = Some c' ->
  same_handles c c'
  /\ (m_sshState c' = HandShake \/ session_open (m_sshState c') = false
      \/ m_knownHosts c <> nullptr).
Proof.
  intros Hs. unfold from_HandShake_in, case_HandShake_in.
  destruct (Z.eqb (m_session c) nullptr); [discriminate|].
  destruct (call_session_handshake e) as [ret e1].
  destruct (Z.eqb ret LIBSSH2_ERROR_EAGAIN).
  { simpl. intros H. injection H as <-.
    split; [apply same_handles_refl | left; exact Hs]. }
  assert (Herr : forall msg : string,
             let c1 := socket_disconnectFromHost_in w
                         (setSshState Error (qCCritical msg c)) in
             same_handles c c1
             /\ (m_sshState c1 = HandShake \/ session_open (m_sshState c1) = false
                 \/ m_knownHosts c <> nullptr)).
  { intros msg c1. subst c1. split; [handles_peel|]. right. left.
    rewrite socket_disconnectFromHost_in_state.
    destruct (closes_at_once w _); [reflexivity|].
    rewrite setSshState_state. reflexivity. }
  destruct (negb (Z.eqb ret 0)).
  { simpl. intros H. injection H as <-. apply Herr. }
  destruct (call_session_hostkey e1) as [[[key type]|] e2].
  - destruct (call_hostkey_hash e2) as [hash e3].
    replace (m_knownHosts (set_hostKey (mkSshKey hash key (hostkey_type type)) c))
      with (m_knownHosts c) by (destruct c; reflexivity).
    destruct (Z.eqb (m_knownHosts c) nullptr) eqn:Ekh; [discriminate|].
    apply Z.eqb_neq in Ekh. simpl. intros H. split; [|right; right; exact Ekh].
    match type of H with
    | client_after (from_GetAuthenticationMethodes_in _ _ ?x _) = _ =>
        apply (same_handles_trans c x c')
    end; [handles_peel|].
    eapply from_GetAuthenticationMethodes_in_handles; [|exact H].
    apply setSshState_state.
  - simpl. intros H. injection H as <-. apply Herr.
Qed.

(** A pass from Initialize: when it leaves the session open, the session
    handle is set, and the known-hosts handle too unless the build has
    no [Q_ASSERT] and the handshake has not completed. *)
Lemma from_Initialize_in_handles (w : World) (fuel : nat) (c : SshClient)
      (e : Engine) (c' : SshClient) :
  client_after (from_Initialize_in w fuel c e) = Some c' ->
  session_open (m_sshState c') = true ->
  m_session c' <> nullptr
  /\ (m_knownHosts c' <> nullptr
      \/ (QT_NO_DEBUG w = true /\ m_sshState c' = HandShake)).
Proof.
  unfold from_Initialize_in, case_Initialize_in.
  destruct (call_session_init_ex e) as [session e1].
  replace (m_session (set_session session c)) with session
    by (destruct c; reflexivity).
  destruct (Z.eqb session nullptr) eqn:Eses.
  { simpl. intros H. injection H as <-.
    rewrite socket_disconnectFromHost_in_state.
    destruct (closes_at_once w _); [discriminate|].
    rewrite setSshState_state. discriminate. }
  apply Z.eqb_neq in Eses.
  destruct (call_knownhost_init e1) as [knownHosts e2].
  replace (m_knownHosts (set_knownHosts knownHosts (set_session session c)))
    with knownHosts by (destruct c; reflexivity).
  assert (Hgo : forall c1 : SshClient,
             m_session c1 = session -> m_knownHosts c1 = knownHosts ->
             m_sshState c1 = HandShake ->
             knownHosts <> nullptr \/ QT_NO_DEBUG w = true ->
             client_after (from_HandShake_in w fuel c1 e2) = Some c' ->
             session_open (m_sshState c') = true ->
             m_session c' <> nullptr
             /\ (m_knownHosts c' <> nullptr
                 \/ (QT_NO_DEBUG w = true /\ m_sshState c' = HandShake))).
  { intros c1 G1 G2 Hs1 Hkh H Hopen.
    destruct (from_HandShake_in_handles w fuel c1 e2 c' Hs1 H) as [[P1 P2] P3].
    split; [congruence|].
    destruct P3 as [P3|[P3|P3]].
    - destruct Hkh as [Hkh|Hkh]; [left; congruence | right; split; assumption].
    - rewrite P3 in Hopen. discriminate Hopen.
    - left. congruence. }
  destruct (Z.eqb knownHosts nullptr) eqn:Ekh;
    [apply Z.eqb_eq in Ekh | apply Z.eqb_neq in Ekh];
    destruct (QT_NO_DEBUG w) eqn:Ebuild; simpl; try discriminate;
    match goal with
    | |- context [Nat.eqb ?n 0] => destruct (Nat.eqb n 0)
    end; simpl; try discriminate;
    intros H;
    match type of H with
    | client_after (from_HandShake_in _ _ ?x _) = _ =>
        apply (Hgo x);
        [ unfold setSshState; destruct c;
          match goal with
          | |- context [negb ?b] => destruct (negb b)
          end; reflexivity
        | unfold setSshState; destruct c;
          match goal with
          | |- context [negb ?b] => destruct (negb b)
          end; reflexivity
        | apply setSshState_state
        | first [ left; exact Ekh | right; reflexivity ]
        | exact H ]
    end.
Qed.

Lemma handles_inv_in_kept (w : World) (c c' : SshClient) :
  handles_inv_in w c -> keeps_handles c c' -> handles_inv_in w c'.
Proof.
  intros (I1 & I2 & I3) [(Hs & H1 & H2)|[Hn Ho]]; unfold handles_inv_in.
  - rewrite Hs, H1, H2. exact (conj I1 (conj I2 I3)).
  - split; [intros H; contradiction|].
    split; intros H; rewrite Ho in H; discriminate H.
Qed.

Lemma socket_disconnectFromHost_in_keeps (w : World) (c : SshClient) :
  keeps_handles c (socket_disconnectFromHost_in w c).
Proof.
  destruct (same_handles_socket_disconnectFromHost_in w c) as [H1 H2].
  pose proof (socket_disconnectFromHost_in_state w c) as Hs.
  destruct (closes_at_once w c).
  - right. rewrite Hs. split; [discriminate | reflexivity].
  - left. repeat split; assumption.
Qed.

Lemma keeps_handles_trans (c c1 c2 : SshClient) :
  keeps_handles c c1 -> keeps_handles c1 c2 -> keeps_handles c c2.
Proof.
  intros [(A1 & A2 & A3)|A] [(B1 & B2 & B3)|B].
  - left. repeat split; congruence.
  - right. exact B.
  - right. rewrite B1. exact A.
  - right. exact B.
Qed.

(** A step that changes nothing the invariant reads. *)
Lemma keeps_handles_same (c c' : SshClient) :
  m_sshState c' = m_sshState c -> same_handles c c' -> keeps_handles c c'.
Proof. intros Hs [H1 H2]. left. repeat split; assumption. Qed.

(** A step that ends in a state that is neither Unconnected nor open. *)
Lemma keeps_handles_closed (c c' : SshClient) (s : SshState) :
  m_sshState c' = s -> s <> Unconnected -> session_open s = false ->
  keeps_handles c c'.
Proof. intros Hs Hn Ho. right. rewrite Hs. split; assumption. Qed.

Lemma sendKeepAlive_in_keeps (w : World) (c : SshClient) (e : Engine) :
  keeps_handles c (fst (_sendKeepAlive_in w c e)).
Proof.
  unfold _sendKeepAlive_in.
  destruct (negb (Z.eqb (m_session c) nullptr));
    [|apply keeps_handles_same; [reflexivity | apply same_handles_refl]].
  destruct (call_keepalive_send e) as [[ret keepalive] e1].
  assert (Hw : forall msg : string,
             keeps_handles c (socket_disconnectFromHost_in w (qCWarning msg c))).
  { intros msg. eapply keeps_handles_trans;
      [|apply socket_disconnectFromHost_in_keeps].
    apply keeps_handles_same; [apply effect_state | apply same_handles_effect]. }
  destruct (Z.eqb ret LIBSSH2_ERROR_SOCKET_SEND); [apply Hw|].
  destruct (call_currentMSecsSinceEpoch e1) as [now e2].
  match goal with |- context [if ?b then _ else _] => destruct b end;
    [apply Hw|].
  simpl. left. destruct c; repeat split; reflexivity.
Qed.

Lemma notification_in_keeps (w : World) (fuel : nat) (d : Delivery)
      (c : SshClient) (e : Engine) (c' : SshClient) :
  d <> ProcessEvent ->
  client_after (deliver_in w fuel d c e) = Some c' -> keeps_handles c c'.
Proof.
  intros Hd. destruct d; try contradiction; unfold deliver_in.
  - simpl. intros H. injection H as <-.
    unfold _connection_socketConnected.
    destruct (SshState_eqb (m_sshState (set_socket ConnectedState c))
                           WaitingSocketConnection).
    + apply (keeps_handles_closed _ _ Initialize);
        [state_of_handler | discriminate | reflexivity].
    + apply (keeps_handles_closed _ _ Error);
        [state_of_handler | discriminate | reflexivity].
  - simpl. intros H. injection H as <-.
    apply (keeps_handles_closed _ _ FreeSession);
      [unfold _connection_socketDisconnected; state_of_handler
      | discriminate | reflexivity].
  - simpl. intros H. injection H as <-.
    apply (keeps_handles_closed _ _ Error);
      [unfold _connection_socketError; state_of_handler
      | discriminate | reflexivity].
  - simpl. intros H. injection H as <-.
    apply (keeps_handles_closed _ _ Error);
      [unfold _connection_socketTimeout_in; state_of_handler
      | discriminate | reflexivity].
  - pose proof (sendKeepAlive_in_keeps w c e) as H.
    destruct (_sendKeepAlive_in w c e) as [c1 e1]. simpl in *.
    intros H'. injection H' as <-. exact H.
Qed.

Lemma processEvent_in_simple_keeps (w : World) (fuel : nat) (c : SshClient)
      (e : Engine) (c' : SshClient) :
  In (m_sshState c) [Unconnected; SocketConnection; WaitingSocketConnection;
                     Ready; DisconnectingChannel; Error] ->
  client_after (_ssh_processEvent_in w fuel c e) = Some c' -> keeps_handles c c'.
Proof.
  intros Hin. unfold _ssh_processEvent_in.
  destruct Hin as [Hs|[Hs|[Hs|[Hs|[Hs|[Hs|[]]]]]]]; symmetry in Hs; rewrite Hs.
  - simpl. intros H. injection H as <-.
    apply keeps_handles_same; [apply effect_state | apply same_handles_effect].
  - simpl. intros H. injection H as <-.
    apply (keeps_handles_closed _ _ WaitingSocketConnection);
      [state_of_handler | discriminate | reflexivity].
  - simpl. intros H. injection H as <-.
    apply keeps_handles_same; [apply effect_state | apply same_handles_effect].
  - unfold from_Ready, case_Ready.
    destruct (call_currentMSecsSinceEpoch e) as [now e1]. simpl.
    intros H. injection H as <-. left. destruct c; repeat split; reflexivity.
  - unfold case_DisconnectingChannel.
    destruct (Z.of_nat (List.length (m_channels c)) >? 0); simpl;
      intros H; injection H as <-.
    + destruct (close_all_frame (m_channels c) c) as (H1 & H2 & H3).
      left. rewrite close_all_state. repeat split; assumption.
    + apply (keeps_handles_closed _ _ DisconnectingSession);
        [apply setSshState_state | discriminate | reflexivity].
  - unfold case_Error_in. simpl. intros H. injection H as <-.
    assert (Hx : forall x : SshClient,
               m_sshState x = Error \/ m_sshState x = FreeSession ->
               keeps_handles c (emit sshError
                                  (qCWarning "ssh socket connection error" x))).
    { intros x [Hx|Hx].
      - apply (keeps_handles_closed _ _ Error);
          [state_of_handler; exact Hx | discriminate | reflexivity].
      - apply (keeps_handles_closed _ _ FreeSession);
          [state_of_handler; exact Hx | discriminate | reflexivity]. }
    destruct (m_socket c); apply Hx;
      first [ left; exact Hs
            | rewrite socket_disconnectFromHost_in_state;
              destruct (closes_at_once w c); [right; reflexivity | left; exact Hs] ].
Qed.

(** One event keeps the handles as the invariant wants them. *)
Lemma step_in_handles_inv (w : World) (fuel : nat) (ev : Event) (c : SshClient)
      (e : Engine) (c' : SshClient) :
  handles_inv_in w c -> client_after (step_in w fuel ev c e) = Some c' ->
  handles_inv_in w c'.
Proof.
  intros Hinv H. destruct ev as [[d|r]|s].
  - destruct d;
      try (apply (handles_inv_in_kept w c c' Hinv);
           refine (notification_in_keeps w fuel _ c e c' _ H); discriminate).
    simpl in H. pose proof H as H0. unfold _ssh_processEvent_in in H.
    destruct (m_sshState c) eqn:Hs;
      try (apply (handles_inv_in_kept w c c' Hinv);
           refine (processEvent_in_simple_keeps w fuel c e c' _ H0);
           rewrite Hs; simpl; tauto).
    + pose proof (from_Initialize_in_post w fuel c e c' H) as [P _].
      pose proof (from_Initialize_in_handles w fuel c e c' H) as Q.
      split; [|split].
      * intros H'. rewrite H' in P. destruct P as [P|[P|P]]; discriminate P.
      * intros Ho. exact (proj1 (Q Ho)).
      * intros Ho Hb. destruct (Q Ho) as [_ [Q2|[Q2 Q3]]]; [exact Q2|].
        destruct Hb as [Hb|Hb]; [congruence | contradiction].
    + pose proof (from_HandShake_in_post w fuel c e c' Hs H) as [P _].
      destruct (from_HandShake_in_handles w fuel c e c' Hs H) as [[Q1 Q2] Q3].
      destruct Hinv as (_ & I2 & I3). rewrite Hs in I2, I3.
      specialize (I2 eq_refl). specialize (I3 eq_refl).
      split; [|split].
      * intros H'. rewrite H' in P. destruct P as [P|[P|P]]; discriminate P.
      * intros _. congruence.
      * intros Ho Hb. rewrite Q2.
        destruct Q3 as [Q3|[Q3|Q3]];
          [|rewrite Q3 in Ho; discriminate Ho | exact Q3].
        destruct Hb as [Hb|Hb]; [apply I3; left; exact Hb | contradiction].
    + pose proof (from_GetAuthenticationMethodes_in_post w fuel c e c' Hs H)
        as [P _].
      destruct (from_GetAuthenticationMethodes_in_handles w fuel c e c' Hs H)
        as [Q1 Q2].
      destruct Hinv as (_ & I2 & I3). rewrite Hs in I2, I3.
      specialize (I2 eq_refl). specialize (I3 eq_refl).
      split; [|split].
      * intros H'. rewrite H' in P. destruct P as [P|[P|P]]; discriminate P.
      * intros _. congruence.
      * intros _ _. rewrite Q2. apply I3. right. discriminate.
    + pose proof (from_Authentication_in_post fuel c e c' Hs H) as [P _].
      destruct (from_Authentication_in_handles fuel c e c' Hs H) as [Q1 Q2].
      destruct Hinv as (_ & I2 & I3). rewrite Hs in I2, I3.
      specialize (I2 eq_refl). specialize (I3 eq_refl).
      split; [|split].
      * intros H'. rewrite H' in P. destruct P as [P|[P|P]]; discriminate P.
      * intros _. congruence.
      * intros _ _. rewrite Q2. apply I3. right. discriminate.
    + destruct (Z.eqb (m_session c) nullptr) eqn:Eses.
      { unfold case_DisconnectingSession_in in H. rewrite Eses in H.
        discriminate H. }
      apply Z.eqb_neq in Eses.
      pose proof (teardown_pass_frame_in w fuel c e (or_introl Hs)
                    (or_intror Eses)) as T.
      unfold _ssh_processEvent_in in T. rewrite Hs in T.
      destruct (andThen (case_DisconnectingSession_in w c e) case_FreeSession)
        as [c1 e1|c1 e1| |]; simpl in H; try discriminate H; injection H as <-.
      * destruct T as (T1 & T2 & T3 & _). unfold handles_inv_in. rewrite T1.
        split; [intros _; split; assumption|]. split; discriminate.
      * destruct T as (T & _).
        split; [|split]; intros H'; destruct T as [T|T]; rewrite T in H';
          discriminate H'.
    + pose proof (teardown_pass_frame_in w fuel c e (or_intror Hs)
                    (or_introl Hs)) as T.
      unfold _ssh_processEvent_in in T. rewrite Hs in T.
      destruct (case_FreeSession c e)
        as [c1 e1|c1 e1| |]; simpl in H; try discriminate H; injection H as <-.
      * destruct T as (T1 & T2 & T3 & _). unfold handles_inv_in. rewrite T1.
        split; [intros _; split; assumption|]. split; discriminate.
      * destruct T as (T & _).
        split; [|split]; intros H'; destruct T as [T|T]; rewrite T in H';
          discriminate H'.
  - simpl in H. injection H as <-.
    apply (handles_inv_in_kept w c _ Hinv). apply (proj1 (request_frame r c)).
  - simpl in H. injection H as <-.
    apply (handles_inv_in_kept w c _ Hinv). left.
    destruct c; repeat split; reflexivity.
Qed.

Lemma run_in_handles_inv (w : World) (fuel : nat) (events : list Event) :
  forall (c : SshClient) (e : Engine) (c' : SshClient) (e' : Engine),
    handles_inv_in w c -> run_in w fuel events c e = Done c' e' ->
    handles_inv_in w c'.
Proof.
  induction events as [|ev events IH]; intros c e c' e' Hinv H; simpl in H.
  - injection H as <- <-. exact Hinv.
  - destruct (step_in w fuel ev c e) as [c1 e1|c1 e1| |] eqn:Hstep;
      try discriminate H;
      (apply (IH c1 e1 c' e'); [|exact H]);
      apply (step_in_handles_inv w fuel ev c e c1 Hinv); rewrite Hstep;
      reflexivity.
Qed.

(** X11: whatever the event loop delivers, the caller requests, the engine
    answers and the socket does (its state changes between the handlers,
    and its slots run inside [m_socket.disconnectFromHost()] and
    [m_socket.connectToHost()]), a client that started as a new one has
    both the session handle and the known-hosts handle null whenever it is
    in state Unconnected, and the session handle not null whenever it is
    in HandShake, GetAuthenticationMethodes, Authentication or Ready.  The
    known-hosts handle is not null in GetAuthenticationMethodes,
    Authentication and Ready, where [libssh2_knownhost_check] has read it,
    and in HandShake as well when [Q_ASSERT] is active (line 412); built
    with [QT_NO_DEBUG] the client can wait in HandShake without it. *)
Theorem handles_follow_the_state :
  forall (w : World) (fuel : nat) (events : list Event) (e : Engine)
         (c' : SshClient) (e' : Engine),
    run_in w fuel events new_client e = Done c' e' ->
    (m_sshState c' = Unconnected ->
     m_session c' = nullptr /\ m_knownHosts c' = nullptr)
    /\ (session_open (m_sshState c') = true -> m_session c' <> nullptr)
    /\ (session_open (m_sshState c') = true ->
        QT_NO_DEBUG w = false \/ m_sshState c' <> HandShake ->
        m_knownHosts c' <> nullptr).
Proof.
  intros w fuel events e c' e' H.
  apply (run_in_handles_inv w fuel events new_client e c' e'); [|exact H].
  split; [intros _; split; reflexivity|]. split; intros H'; discriminate H'.
Qed.

Lemma handles_follow_the_state_witness :
  exists (c' : SshClient) (e' : Engine),
    run_in prompt_world 2
      [Handled (Requested (ConnectToHost "user" "host" 22 ["password"]));
       Handled (Delivered ProcessEvent);
       Handled (Delivered SocketConnected);
       Handled (Delivered ProcessEvent)]
      new_client (scripted_engine [] [] [0] 1) = Done c' e'
    /\ m_sshState c' = Ready
    /\ m_socket c' = ConnectedState
    /\ m_session c' <> nullptr /\ m_knownHosts c' <> nullptr.
Proof.
  eexists. eexists. split; [reflexivity|]. split; [reflexivity|].
  split; [reflexivity|].
  destruct (handles_follow_the_state prompt_world 2
              [Handled (Requested (ConnectToHost "user" "host" 22 ["password"]));
               Handled (Delivered ProcessEvent);
               Handled (Delivered SocketConnected);
               Handled (Delivered ProcessEvent)]
              (scripted_engine [] [] [0] 1) _ _ eq_refl) as (_ & H2 & H3).
  split; [exact (H2 eq_refl) | apply (H3 eq_refl); left; reflexivity].
Defined.

(** The exception is real: in a build with [QT_NO_DEBUG], a
    [libssh2_knownhost_init] that returns null and a handshake that would
    block leave the client in HandShake with no known-hosts collection;
    in a build with [Q_ASSERT] the same pass stops at line 412. *)
Example handshake_without_known_hosts :
  (exists (c' : SshClient) (e' : Engine),
     _ssh_processEvent_in release_world 1 (connected_client Initialize [])
                          starved_engine = WouldBlock c' e'
     /\ m_sshState c' = HandShake /\ m_knownHosts c' = nullptr)
  /\ _ssh_processEvent_in prompt_world 1 (connected_client Initialize [])
                          starved_engine = Fault.
Proof.
  split; [|reflexivity].
  eexists. eexists. split; [reflexivity|]. split; reflexivity.
Qed.

(** X12: no failure and no teardown stops the connection timer.  Once it
    runs, it is still running after every delivery and every request,
    unless the handler left the client in Ready (the pass in which the
    authentication succeeded is the only place where it is stopped).  So
    after a failed connection the timeout slot is still armed. *)
Theorem connection_timer_stopped_only_at_Ready :
  forall (fuel : nat) (i : Input) (c : SshClient) (e : Engine) (c' : SshClient),
    timer_active (m_connectionTimeout c) = true ->
    client_after (step fuel i c e) = Some c' ->
    timer_active (m_connectionTimeout c') = true \/ m_sshState c' = Ready.
Proof.
  intros fuel i c e c' Hon H.
  assert (Hframe : step_frame c c' ->
                   timer_active (m_connectionTimeout c') = true
                   \/ m_sshState c' = Ready).
  { intros [_ [Hsame|Hrun]]; left; [rewrite Hsame; exact Hon | exact Hrun]. }
  assert (Hpost : timer_active (m_connectionTimeout c')
                  = timer_active (m_connectionTimeout c) \/ m_sshState c' = Ready ->
                  timer_active (m_connectionTimeout c') = true
                  \/ m_sshState c' = Ready).
  { intros [Hsame|Hr]; [left; rewrite Hsame; exact Hon | right; exact Hr]. }
  destruct i as [d|r].
  - destruct d;
      try (apply Hframe;
           refine (notification_frame fuel _ c e c' _ H); discriminate).
    simpl in H. pose proof H as H0. unfold _ssh_processEvent in H.
    destruct (m_sshState c) eqn:Hs;
      try (apply Hframe;
           refine (processEvent_simple_frame fuel c e c' _ H0);
           rewrite Hs; simpl; tauto).
    + apply Hpost. apply (from_Initialize_post fuel c e c' H).
    + apply Hpost. apply (from_HandShake_post fuel c e c' Hs H).
    + apply Hpost.
      apply (proj1 (from_GetAuthenticationMethodes_post fuel c e c' Hs H)).
    + apply Hpost. apply (proj1 (from_Authentication_post fuel c e c' Hs H)).
    + pose proof (teardown_pass_frame fuel c e (or_introl Hs)) as T.
      destruct (_ssh_processEvent fuel c e) as [c1 e1|c1 e1| |];
        simpl in H0; try discriminate H0; injection H0 as <-; left.
      * destruct T as (_ & _ & _ & _ & T & _). rewrite T. exact Hon.
      * destruct T as (_ & _ & _ & T & _). rewrite T. exact Hon.
    + pose proof (teardown_pass_frame fuel c e (or_intror Hs)) as T.
      destruct (_ssh_processEvent fuel c e) as [c1 e1|c1 e1| |];
        simpl in H0; try discriminate H0; injection H0 as <-; left.
      * destruct T as (_ & _ & _ & _ & T & _). rewrite T. exact Hon.
      * destruct T as (_ & _ & _ & T & _). rewrite T. exact Hon.
  - simpl in H. injection H as <-. apply Hframe. apply request_frame.
Qed.

Lemma connection_timer_stopped_only_at_Ready_witness :
  exists c' : SshClient,
    client_after
      (step 1 (Delivered ProcessEvent)
         (set_connectionTimeout (mkTimer true 60000 false) (client_in HandShake []))
         (scripted_engine [-5] [] [] 0)) = Some c'
    /\ m_sshState c' = Error
    /\ timer_active (m_connectionTimeout c') = true.
Proof.
  eexists. split; [reflexivity|]. split; [reflexivity|].
  destruct (connection_timer_stopped_only_at_Ready 1 (Delivered ProcessEvent)
              (set_connectionTimeout (mkTimer true 60000 false)
                 (client_in HandShake []))
              (scripted_engine [-5] [] [] 0) _ eq_refl eq_refl) as [H|H].
  - exact H.
  - discriminate H.
Defined.

(** ** The authentication loop on lists it knows *)

Lemma nonpositive_after_publickey (e : Engine) :
  nonpositive_answers e ->
  fst (call_userauth_publickey_frommemory e) <= 0
  /\ nonpositive_answers (snd (call_userauth_publickey_frommemory e)).
Proof.
  intros [Hpk Hpw]. destruct e; simpl in *. split; [apply Hpk|].
  split; simpl; intros k; [apply (Hpk (S k)) | apply Hpw].
Qed.

Lemma nonpositive_after_password (e : Engine) :
  nonpositive_answers e ->
  fst (call_userauth_password_ex e) <= 0
  /\ nonpositive_answers (snd (call_userauth_password_ex e)).
Proof.
  intros [Hpk Hpw]. destruct e; simpl in *. split; [apply Hpw|].
  split; simpl; intros k; [apply Hpk | apply (Hpw (S k))].
Qed.

Lemma try_password_terminates (again : SshClient -> Engine -> Loop)
      (c : SshClient) (e : Engine) :
  nonpositive_answers e ->
  (first (m_authenticationMethodes c) <> Some "password" ->
   again c e <> LoopLeave OutOfFuel) ->
  try_password again c e <> LoopLeave OutOfFuel.
Proof.
  intros Hnon Hagain. unfold try_password.
  destruct (first (m_authenticationMethodes c)) as [method|] eqn:Hfirst;
    [|discriminate].
  destruct (String.eqb method "password") eqn:Epw.
  - destruct (nonpositive_after_password e Hnon) as [Hret _].
    destruct (call_userauth_password_ex e) as [ret e1]. simpl in Hret.
    destruct (Z.eqb ret LIBSSH2_ERROR_EAGAIN); [discriminate|].
    destruct (ret <? 0) eqn:Eneg; [discriminate|].
    destruct (Z.eqb ret 0) eqn:E0; [discriminate|].
    apply Z.ltb_ge in Eneg. apply Z.eqb_neq in E0. lia.
  - apply Hagain. intros H. injection H as ->. discriminate Epw.
Qed.

Lemma authentication_loop_terminates (n : nat) :
  forall (fuel : nat) (c : SshClient) (e : Engine),
    (List.length (m_authenticationMethodes c) <= n)%nat -> (n < fuel)%nat ->
    forallb recognized (m_authenticationMethodes c) = true ->
    nonpositive_answers e ->
    authentication_loop fuel c e <> LoopLeave OutOfFuel.
Proof.
  induction n as [|n IH]; intros fuel c e Hlen Hfuel Hrec Hnon;
    (destruct fuel as [|fuel]; [lia|]); cbn [authentication_loop];
    destruct (m_authenticationMethodes c) as [|method rest] eqn:Hm;
    try discriminate; simpl in Hlen; try lia.
  cbn [List.length Nat.eqb first hd_error].
  simpl in Hrec. apply andb_prop in Hrec. destruct Hrec as [Hrec1 Hrec].
  destruct (String.eqb method "publickey") eqn:Epk.
  - destruct (nonpositive_after_publickey e Hnon) as [Hret Hnon1].
    destruct (call_userauth_publickey_frommemory e) as [ret e1].
    simpl in Hret, Hnon1.
    destruct (Z.eqb ret LIBSSH2_ERROR_EAGAIN); [discriminate|].
    destruct (Z.eqb ret 0) eqn:E0; [discriminate|].
    destruct (ret <? 0) eqn:Eneg;
      [|apply Z.ltb_ge in Eneg; apply Z.eqb_neq in E0; lia].
    apply try_password_terminates; [exact Hnon1|]. intros _.
    apply IH; try assumption; try lia.
    + destruct c; simpl in *. subst. simpl. lia.
    + destruct c; simpl in *. subst. exact Hrec.
  - apply try_password_terminates; [exact Hnon|]. intros Hfirst.
    exfalso. apply Hfirst. rewrite Hm. simpl.
    unfold recognized in Hrec1. rewrite Epk in Hrec1. simpl in Hrec1.
    apply String.eqb_eq in Hrec1. subst. reflexivity.
Qed.

(** The outcomes in which the handler returns. *)
Lemma try_password_returns (again : SshClient -> Engine -> Loop)
      (c : SshClient) (e : Engine) :
  nonpositive_answers e ->
  first (m_authenticationMethodes c) <> None ->
  (first (m_authenticationMethodes c) <> Some "password" ->
   again c e <> LoopLeave Fault) ->
  try_password again c e <> LoopLeave Fault.
Proof.
  intros Hnon Hfirst Hagain. unfold try_password.
  destruct (first (m_authenticationMethodes c)) as [method|] eqn:Hf;
    [|contradiction].
  destruct (String.eqb method "password") eqn:Epw.
  - destruct (nonpositive_after_password e Hnon) as [Hret _].
    destruct (call_userauth_password_ex e) as [ret e1]. simpl in Hret.
    destruct (Z.eqb ret LIBSSH2_ERROR_EAGAIN); [discriminate|].
    destruct (ret <? 0) eqn:Eneg; [discriminate|].
    destruct (Z.eqb ret 0) eqn:E0; [discriminate|].
    apply Z.ltb_ge in Eneg. apply Z.eqb_neq in E0. lia.
  - apply Hagain. intros H. injection H as ->. discriminate Epw.
Qed.

Lemma authentication_loop_returns (fuel : nat) :
  forall (c : SshClient) (e : Engine),
    nonpositive_answers e ->
    In "password" (m_authenticationMethodes c)
    \/ m_authenticationMethodes c = [] ->
    authentication_loop fuel c e <> LoopLeave Fault.
Proof.
  induction fuel as [|fuel IH]; intros c e Hnon Hin; [discriminate|].
  cbn [authentication_loop].
  destruct (m_authenticationMethodes c) as [|method rest] eqn:Hm;
    [discriminate|].
  destruct Hin as [Hin|Hin]; [|discriminate Hin].
  cbn [List.length Nat.eqb first hd_error].
  destruct (String.eqb method "publickey") eqn:Epk.
  - apply String.eqb_eq in Epk. subst method.
    destruct Hin as [Hin|Hin]; [discriminate Hin|].
    destruct (nonpositive_after_publickey e Hnon) as [Hret Hnon1].
    destruct (call_userauth_publickey_frommemory e) as [ret e1].
    simpl in Hret, Hnon1.
    destruct (Z.eqb ret LIBSSH2_ERROR_EAGAIN); [discriminate|].
    destruct (Z.eqb ret 0) eqn:E0; [discriminate|].
    destruct (ret <? 0) eqn:Eneg;
      [|apply Z.ltb_ge in Eneg; apply Z.eqb_neq in E0; lia].
    assert (Hset : forall (l : list string) (x : SshClient),
               m_authenticationMethodes (set_authenticationMethodes l x) = l)
      by (intros l x; destruct x; reflexivity).
    apply try_password_returns; [exact Hnon1| |].
    + rewrite Hset. simpl. destruct rest; [contradiction Hin | discriminate].
    + intros _. apply IH; [exact Hnon1|]. left. rewrite Hset. exact Hin.
  - apply try_password_returns; [exact Hnon| |].
    + rewrite Hm. discriminate.
    + intros _. apply IH; [exact Hnon|]. left. rewrite Hm. exact Hin.
Qed.

(** X13: when every candidate is "publickey" or "password" and the engine
    answers the attempts with return codes (zero or negative), the
    authentication loop ends within one iteration per candidate: with more
    fuel than candidates, a process event in state Authentication does not
    run out of fuel.  When "password" is among the candidates, or the list
    is empty, the handler returns.  It ends in [Fault] only on a list made
    of "publickey" alone, where the failed attempt for the last one
    empties the list that the same iteration reads. *)
Theorem authentication_terminates_on_known_methods :
  forall (fuel : nat) (c : SshClient) (e : Engine),
    m_sshState c = Authentication ->
    forallb recognized (m_authenticationMethodes c) = true ->
    nonpositive_answers e ->
    (List.length (m_authenticationMethodes c) < fuel)%nat ->
    _ssh_processEvent fuel c e <> OutOfFuel
    /\ (In "password" (m_authenticationMethodes c)
        \/ m_authenticationMethodes c = [] ->
        exists (c' : SshClient) (e' : Engine),
          _ssh_processEvent fuel c e = Done c' e'
          \/ _ssh_processEvent fuel c e = WouldBlock c' e')
    /\ (_ssh_processEvent fuel c e = Fault ->
        m_authenticationMethodes c <> []
        /\ Forall (eq "publickey") (m_authenticationMethodes c)).
Proof.
  intros fuel c e Hs Hrec Hnon Hfuel.
  assert (Hfuelled : _ssh_processEvent fuel c e <> OutOfFuel).
  { unfold _ssh_processEvent, from_Authentication, case_Authentication.
    rewrite Hs.
    pose proof (authentication_loop_terminates
                  (List.length (m_authenticationMethodes c)) fuel c e
                  (Nat.le_refl _) Hfuel Hrec Hnon) as Hloop.
    destruct (authentication_loop fuel c e) as [c1 e1|r].
    - destruct (call_userauth_authenticated e1) as [a e2].
      destruct (negb (Z.eqb a 0)); simpl; [|discriminate].
      unfold from_Ready, case_Ready.
      destruct (call_currentMSecsSinceEpoch e2). discriminate.
    - simpl. intros H. apply Hloop. rewrite H. reflexivity. }
  assert (Hreturns : In "password" (m_authenticationMethodes c)
                     \/ m_authenticationMethodes c = [] ->
                     exists (c' : SshClient) (e' : Engine),
                       _ssh_processEvent fuel c e = Done c' e'
                       \/ _ssh_processEvent fuel c e = WouldBlock c' e').
  { intros Hin.
    pose proof (authentication_loop_returns fuel c e Hnon Hin) as Hloop.
    destruct (_ssh_processEvent fuel c e) as [c' e'|c' e'| |] eqn:Hr.
    - exists c', e'. left. reflexivity.
    - exists c', e'. right. reflexivity.
    - exfalso. revert Hr.
      unfold _ssh_processEvent, from_Authentication, case_Authentication.
      rewrite Hs.
      destruct (authentication_loop fuel c e) as [c1 e1|r].
      + destruct (call_userauth_authenticated e1) as [a e2].
        destruct (negb (Z.eqb a 0)); simpl; [|discriminate].
        unfold from_Ready, case_Ready.
        destruct (call_currentMSecsSinceEpoch e2). discriminate.
      + simpl. intros H. apply Hloop. rewrite H. reflexivity.
    - contradiction. }
  split; [exact Hfuelled|]. split; [exact Hreturns|].
  intros Hfault.
  assert (Hno : ~ (In "password" (m_authenticationMethodes c)
                   \/ m_authenticationMethodes c = [])).
  { intros Hin. destruct (Hreturns Hin) as (c' & e' & [H|H]);
      rewrite H in Hfault; discriminate Hfault. }
  split; [intros H; apply Hno; right; exact H|].
  apply Forall_forall. intros method Hin.
  rewrite forallb_forall in Hrec. specialize (Hrec method Hin).
  unfold recognized in Hrec. apply orb_prop in Hrec.
  destruct Hrec as [H|H]; apply String.eqb_eq in H; subst method.
  - reflexivity.
  - exfalso. apply Hno. left. exact Hin.
Qed.

Lemma authentication_terminates_on_known_methods_witness :
  exists (c' : SshClient) (e' : Engine),
    _ssh_processEvent 3 (client_in Authentication ["publickey"; "password"])
                      (scripted_engine [] [-18] [-18] 0) = Done c' e'
    /\ m_authenticationMethodes c' = []
    /\ m_sshState c' = Authentication.
Proof.
  assert (Hnon : nonpositive_answers (scripted_engine [] [-18] [-18] 0)).
  { split; intros [|[|k]]; simpl; unfold sconst; lia. }
  assert (Hfuel : (List.length
                     (m_authenticationMethodes
                        (client_in Authentication ["publickey"; "password"]))
                   < 3)%nat) by (simpl; lia).
  destruct (proj1 (proj2 (authentication_terminates_on_known_methods 3
                            (client_in Authentication ["publickey"; "password"])
                            (scripted_engine [] [-18] [-18] 0)
                            eq_refl eq_refl Hnon Hfuel))
                  (or_introl (or_intror (or_introl eq_refl))))
    as (c' & e' & H).
  exists c', e'.
  destruct H as [H|H]; vm_compute in H.
  - injection H as <- <-. repeat split; reflexivity.
  - discriminate H.
Defined.

(** ** Ready needs the engine's word *)

Lemma try_password_engine (again : SshClient -> Engine -> Loop)
      (c : SshClient) (e : Engine) (c1 : SshClient) (e1 : Engine) :
  (forall e2 : Engine,
      libssh2_userauth_authenticated e2 = libssh2_userauth_authenticated e ->
      again c e2 = LoopEnd c1 e1 ->
      libssh2_userauth_authenticated e1 = libssh2_userauth_authenticated e) ->
  try_password again c e = LoopEnd c1 e1 ->
  libssh2_userauth_authenticated e1 = libssh2_userauth_authenticated e.
Proof.
  intros Hagain. unfold try_password.
  destruct (first (m_authenticationMethodes c)) as [method|]; [|discriminate].
  destruct (String.eqb method "password"); [|apply Hagain; reflexivity].
  assert (Hcall : libssh2_userauth_authenticated (snd (call_userauth_password_ex e))
                  = libssh2_userauth_authenticated e) by (destruct e; reflexivity).
  destruct (call_userauth_password_ex e) as [ret e2]. simpl in Hcall.
  destruct (Z.eqb ret LIBSSH2_ERROR_EAGAIN); [discriminate|].
  destruct (ret <? 0); [discriminate|].
  destruct (Z.eqb ret 0).
  - intros H. injection H as <- <-. exact Hcall.
  - apply Hagain. exact Hcall.
Qed.

(** The loop does not ask the engine whether the user is authenticated. *)
Lemma authentication_loop_engine (fuel : nat) :
  forall (c : SshClient) (e : Engine) (c1 : SshClient) (e1 : Engine),
    authentication_loop fuel c e = LoopEnd c1 e1 ->
    libssh2_userauth_authenticated e1 = libssh2_userauth_authenticated e.
Proof.
  induction fuel as [|fuel IH]; intros c e c1 e1; [discriminate|].
  cbn [authentication_loop].
  destruct (Nat.eqb (List.length (m_authenticationMethodes c)) 0).
  { intros H. injection H as <- <-. reflexivity. }
  destruct (first (m_authenticationMethodes c)) as [method|]; [|discriminate].
  destruct (String.eqb method "publickey").
  - assert (Hcall : libssh2_userauth_authenticated
                      (snd (call_userauth_publickey_frommemory e))
                    = libssh2_userauth_authenticated e) by (destruct e; reflexivity).
    destruct (call_userauth_publickey_frommemory e) as [ret e2]. simpl in Hcall.
    destruct (Z.eqb ret LIBSSH2_ERROR_EAGAIN); [discriminate|].
    destruct (Z.eqb ret 0).
    + intros H. injection H as <- <-. exact Hcall.
    + intros H. rewrite <- Hcall.
      apply (try_password_engine _ _ _ _ _
               (fun e3 He3 H3 => eq_trans (IH _ _ _ _ H3) He3) H).
  - apply try_password_engine. intros e2 He2 H2.
    rewrite (IH _ _ _ _ H2). exact He2.
Qed.

Lemma from_Authentication_needs_confirmation (fuel : nat) (c : SshClient)
      (e : Engine) (c' : SshClient) :
  m_sshState c = Authentication ->
  shd (libssh2_userauth_authenticated e) = 0 ->
  client_after (from_Authentication fuel c e) = Some c' ->
  m_sshState c' <> Ready.
Proof.
  intros Hs Hno. unfold from_Authentication, case_Authentication.
  pose proof (authentication_loop_post fuel c e) as Hpost.
  destruct (authentication_loop fuel c e) as [c1 e1|r] eqn:Hloop.
  - apply authentication_loop_engine in Hloop.
    assert (Ha : fst (call_userauth_authenticated e1) = 0).
    { destruct e1; simpl in *. rewrite Hloop. exact Hno. }
    destruct (call_userauth_authenticated e1) as [a e2]. simpl in Ha. subst a.
    simpl. intros H. injection H as <-.
    rewrite setSshState_state. discriminate.
  - destruct r as [c1 e1|c1 e1| |]; simpl; intros H; try discriminate H;
      injection H as <-; destruct Hpost as [_ Hs1]; rewrite Hs1, Hs; discriminate.
Qed.

(** X14: the session becomes Ready only on the engine's word.  When the
    next answer of [libssh2_userauth_authenticated] is 0, a pass that
    begins in Initialize, HandShake, GetAuthenticationMethodes or
    Authentication does not end in Ready, whatever the attempts returned
    (an attempt that returned 0 included). *)
Theorem ready_needs_authenticated :
  forall (fuel : nat) (c : SshClient) (e : Engine) (c' : SshClient),
    In (m_sshState c)
       [Initialize; HandShake; GetAuthenticationMethodes; Authentication] ->
    shd (libssh2_userauth_authenticated e) = 0 ->
    client_after (_ssh_processEvent fuel c e) = Some c' ->
    m_sshState c' <> Ready.
Proof.
  intros fuel c e c' Hin Hno H.
  assert (Hauth : forall (c1 : SshClient) (e1 : Engine),
             m_sshState c1 = Authentication ->
             libssh2_userauth_authenticated e1 = libssh2_userauth_authenticated e ->
             client_after (from_Authentication fuel c1 e1) = Some c' ->
             m_sshState c' <> Ready).
  { intros c1 e1 Hs1 He1. apply from_Authentication_needs_confirmation;
      [exact Hs1 | rewrite He1; exact Hno]. }
  assert (Hget : forall (c1 : SshClient) (e1 : Engine),
             libssh2_userauth_authenticated e1 = libssh2_userauth_authenticated e ->
             client_after (from_GetAuthenticationMethodes fuel c1 e1) = Some c' ->
             m_sshState c1 = GetAuthenticationMethodes ->
             m_sshState c' <> Ready).
  { intros c1 e1 He1 H1 Hs1.
    unfold from_GetAuthenticationMethodes, case_GetAuthenticationMethodes in H1.
    destruct (Nat.eqb (List.length (m_authenticationMethodes c1)) 0).
    - assert (Hl : libssh2_userauth_authenticated (snd (call_userauth_list e1))
                   = libssh2_userauth_authenticated e1) by (destruct e1; reflexivity).
      destruct (call_userauth_list e1) as [[alist|] e2]; simpl in Hl.
      + simpl in H1. refine (Hauth _ e2 _ _ H1); [apply setSshState_state | congruence].
      + destruct (call_session_last_error e2) as [ret e3].
        destruct (Z.eqb ret LIBSSH2_ERROR_EAGAIN); simpl in H1;
          injection H1 as <-.
        * rewrite Hs1. discriminate.
        * unfold socket_disconnectFromHost.
          rewrite effect_state, setSshState_state. discriminate.
    - simpl in H1. refine (Hauth _ e1 _ _ H1); [apply setSshState_state | exact He1]. }
  assert (Hhs : forall (c1 : SshClient) (e1 : Engine),
             libssh2_userauth_authenticated e1 = libssh2_userauth_authenticated e ->
             client_after (from_HandShake fuel c1 e1) = Some c' ->
             m_sshState c1 = HandShake ->
             m_sshState c' <> Ready).
  { intros c1 e1 He1 H1 Hs1. unfold from_HandShake, case_HandShake in H1.
    assert (Hh : libssh2_userauth_authenticated (snd (call_session_handshake e1))
                 = libssh2_userauth_authenticated e1) by (destruct e1; reflexivity).
    destruct (call_session_handshake e1) as [ret e2]; simpl in Hh.
    destruct (Z.eqb ret LIBSSH2_ERROR_EAGAIN).
    { simpl in H1. injection H1 as <-. rewrite Hs1. discriminate. }
    destruct (negb (Z.eqb ret 0)).
    { simpl in H1. injection H1 as <-. unfold socket_disconnectFromHost.
      rewrite effect_state, setSshState_state. discriminate. }
    assert (Hk : libssh2_userauth_authenticated (snd (call_session_hostkey e2))
                 = libssh2_userauth_authenticated e2) by (destruct e2; reflexivity).
    destruct (call_session_hostkey e2) as [[[key type]|] e3]; simpl in Hk.
    - assert (Hx : libssh2_userauth_authenticated (snd (call_hostkey_hash e3))
                   = libssh2_userauth_authenticated e3) by (destruct e3; reflexivity).
      destruct (call_hostkey_hash e3) as [hash e4]; simpl in Hx. simpl in H1.
      refine (Hget _ e4 _ H1 _); [congruence | apply setSshState_state].
    - simpl in H1. injection H1 as <-. unfold socket_disconnectFromHost.
      rewrite effect_state, setSshState_state. discriminate. }
  unfold _ssh_processEvent in H.
  destruct Hin as [Hs|[Hs|[Hs|[Hs|[]]]]]; symmetry in Hs; rewrite Hs in H.
  - unfold from_Initialize, case_Initialize in H.
    assert (Hi : libssh2_userauth_authenticated (snd (call_session_init_ex e))
                 = libssh2_userauth_authenticated e) by (destruct e; reflexivity).
    destruct (call_session_init_ex e) as [session e1]; simpl in Hi.
    match type of H with
    | context [if ?b then Leave (Done _ _) else _] => destruct b
    end.
    { simpl in H. injection H as <-. unfold socket_disconnectFromHost.
      rewrite effect_state, setSshState_state. discriminate. }
    assert (Hk : libssh2_userauth_authenticated (snd (call_knownhost_init e1))
                 = libssh2_userauth_authenticated e1) by (destruct e1; reflexivity).
    destruct (call_knownhost_init e1) as [knownHosts e2]; simpl in Hk.
    match type of H with
    | context [if ?b then Leave Fault else _] => destruct b; [discriminate H|]
    end.
    simpl in H. refine (Hhs _ e2 _ H _); [congruence | apply setSshState_state].
  - apply (Hhs c e); [reflexivity | exact H | exact Hs].
  - apply (Hget c e); [reflexivity | exact H | exact Hs].
  - apply (Hauth c e); [exact Hs | reflexivity | exact H].
Qed.

Lemma ready_needs_authenticated_witness :
  exists c' : SshClient,
    client_after (_ssh_processEvent 2 (client_in Authentication ["password"])
                    (scripted_engine [] [] [0] 0)) = Some c'
    /\ m_sshState c' = Error.
Proof.
  eexists. split; [reflexivity|].
  pose proof (ready_needs_authenticated 2 (client_in Authentication ["password"])
                (scripted_engine [] [] [0] 0) _
                ltac:(simpl; tauto) eq_refl eq_refl) as H.
  reflexivity.
Defined.

(** ** The host key of the handshake *)

(** X15: after a handshake that succeeded, the client holds the key bytes
    and the hash the engine gave, whatever the rest of the pass does.  A
    key of type RSA or DSS is then handed to [libssh2_knownhost_add] byte
    for byte by [addKnownHost]; a key of any other type is recorded with
    the unknown type, and [addKnownHost] refuses it without consulting the
    library. *)
Theorem handshake_host_key_and_addKnownHost :
  forall (fuel : nat) (c : SshClient) (e : Engine) (key : list Byte.byte)
         (type : Z) (c' : SshClient),
    m_sshState c = HandShake ->
    shd (libssh2_session_handshake e) = 0 ->
    shd (libssh2_session_hostkey e) = Some (key, type) ->
    client_after (_ssh_processEvent fuel c e) = Some c' ->
    m_hostKey c' = mkSshKey (shd (libssh2_hostkey_hash e)) key (hostkey_type type)
    /\ (type <> LIBSSH2_HOSTKEY_TYPE_RSA -> type <> LIBSSH2_HOSTKEY_TYPE_DSS ->
        forall (add : Z -> string -> list Byte.byte -> Z -> Z) (hostname : string),
          addKnownHost add hostname (m_hostKey c') c' = false)
    /\ (type = LIBSSH2_HOSTKEY_TYPE_RSA \/ type = LIBSSH2_HOSTKEY_TYPE_DSS ->
        forall (add : Z -> string -> list Byte.byte -> Z -> Z) (hostname : string),
        exists typemask : Z,
          addKnownHost add hostname (m_hostKey c') c'
          = bool_of_int (add (m_knownHosts c) hostname key typemask)).
Proof.
  intros fuel c e key type c' Hs Hhs Hkey H.
  assert (Hk : m_hostKey c'
               = mkSshKey (shd (libssh2_hostkey_hash e)) key (hostkey_type type)
               /\ m_knownHosts c' = m_knownHosts c).
  { unfold _ssh_processEvent in H. rewrite Hs in H.
    unfold from_HandShake, case_HandShake in H.
    assert (Hcalls : call_session_handshake e = (0, snd (call_session_handshake e))
                     /\ call_session_hostkey (snd (call_session_handshake e))
                        = (Some (key, type),
                           snd (call_session_hostkey (snd (call_session_handshake e))))
                     /\ fst (call_hostkey_hash
                               (snd (call_session_hostkey
                                       (snd (call_session_handshake e)))))
                        = shd (libssh2_hostkey_hash e)).
    { destruct e; simpl in *. rewrite Hhs, Hkey. repeat split; reflexivity. }
    destruct Hcalls as (C1 & C2 & C3).
    rewrite C1 in H. cbn [Z.eqb negb LIBSSH2_ERROR_EAGAIN] in H.
    change (Z.eqb 0 LIBSSH2_ERROR_EAGAIN) with false in H.
    cbv iota in H. rewrite C2 in H.
    destruct (call_hostkey_hash
                (snd (call_session_hostkey (snd (call_session_handshake e)))))
      as [hash e3]. simpl in C3. subst hash. simpl in H.
    match type of H with
    | client_after (from_GetAuthenticationMethodes _ ?x _) = _ => set (c1 := x) in H
    end.
    assert (Hs1 : m_sshState c1 = GetAuthenticationMethodes)
      by apply setSshState_state.
    destruct (from_GetAuthenticationMethodes_post fuel c1 _ c' Hs1 H)
      as ((P1 & P2 & _) & Pk).
    rewrite Pk, P2. subst c1. unfold setSshState.
    destruct c as [st ? ? ? ? ? ? ? ? ? ? ? ? ? ? ? ?]. cbn.
    destruct (negb (SshState_eqb st GetAuthenticationMethodes)); split; reflexivity. }
  destruct Hk as [Hk Hkh]. split; [exact Hk|]. split.
  - intros Hrsa Hdss add hostname. unfold addKnownHost. rewrite Hk. simpl.
    unfold hostkey_type. apply Z.eqb_neq in Hrsa, Hdss. rewrite Hrsa, Hdss.
    reflexivity.
  - intros Htype add hostname. unfold addKnownHost. rewrite Hk, Hkh. simpl.
    unfold hostkey_type. destruct Htype as [-> | ->]; simpl;
      eexists; reflexivity.
Qed.

Lemma handshake_host_key_and_addKnownHost_witness :
  exists c' : SshClient,
    client_after
      (_ssh_processEvent 2 (client_in HandShake ["password"])
         (mkEngine (sconst 1) (sconst 1) (sconst 0)
            (sconst (Some ([], 4))) (sconst [])
            (sconst None) (sconst 0) (sconst 0) (sconst 0) (sconst 1)
            (sconst 0) (sconst 0) (sconst (0, 5)) (sconst 0))) = Some c'
    /\ addKnownHost (fun _ _ _ _ => 0) "host" (m_hostKey c') c' = false
    /\ key_type (m_hostKey c') = UnknownType.
Proof.
  eexists. split; [reflexivity|].
  destruct (handshake_host_key_and_addKnownHost 2
              (client_in HandShake ["password"])
              (mkEngine (sconst 1) (sconst 1) (sconst 0)
                 (sconst (Some ([], 4))) (sconst [])
                 (sconst None) (sconst 0) (sconst 0) (sconst 0) (sconst 1)
                 (sconst 0) (sconst 0) (sconst (0, 5)) (sconst 0))
              [] 4 _ eq_refl eq_refl eq_refl eq_refl) as (Hk & Hno & _).
  split.
  - apply Hno; discriminate.
  - rewrite Hk. reflexivity.
Defined.

(** ** The candidate list *)

Lemma split_not_nil (sep : ascii) (s : string) : split sep s <> [].
Proof.
  destruct s as [|ch rest]; simpl; [discriminate|].
  destruct (Ascii.eqb ch sep); [discriminate|].
  destruct (split sep rest); discriminate.
Qed.

Lemma concat_cons_nonempty (sep x : string) (l : list string) :
  l <> [] -> String.concat sep (x :: l) = (x ++ sep ++ String.concat sep l)%string.
Proof. destruct l; [congruence | reflexivity]. Qed.

Lemma split_concat (sep : ascii) (s : string) :
  String.concat (String sep EmptyString) (split sep s) = s.
Proof.
  induction s as [|ch rest IH]; simpl; [reflexivity|].
  destruct (Ascii.eqb ch sep) eqn:E.
  - apply Ascii.eqb_eq in E. subst ch.
    rewrite concat_cons_nonempty by apply split_not_nil.
    rewrite IH. reflexivity.
  - pose proof (split_not_nil sep rest) as Hne.
    destruct (split sep rest) as [|piece pieces]; [congruence|].
    destruct pieces as [|p2 pieces].
    + simpl in *. rewrite IH. reflexivity.
    + rewrite <- IH.
      rewrite (concat_cons_nonempty _ (String ch piece)) by discriminate.
      rewrite (concat_cons_nonempty _ piece) by discriminate.
      reflexivity.
Qed.

Lemma split_no_separator (sep : ascii) (s : string) :
  Forall (fun piece => ~ In sep (list_ascii_of_string piece)) (split sep s).
Proof.
  induction s as [|ch rest IH]; simpl.
  - constructor; [intros [] | constructor].
  - destruct (Ascii.eqb ch sep) eqn:E.
    + constructor; [intros [] | exact IH].
    + apply Ascii.eqb_neq in E.
      destruct (split sep rest) as [|piece pieces].
      * constructor; [|constructor]. simpl. intros [H|[]]. congruence.
      * inversion IH as [|? ? Hp Hps]; subst.
        constructor; [|exact Hps]. simpl. intros [H|H]; [congruence | auto].
Qed.

(** X16: the step of GetAuthenticationMethodes.  A list the caller gave is
    kept as it is and the engine is not asked.  With no list, the answer of
    [libssh2_userauth_list] is cut at the commas: the candidates joined by
    commas give the answer back, none of them contains a comma, and there
    is at least one (an empty answer gives one empty candidate). *)
Theorem getAuthenticationMethodes_candidates :
  forall (c : SshClient) (e : Engine),
    (m_authenticationMethodes c <> [] ->
     case_GetAuthenticationMethodes c e
     = Fallthrough (setSshState Authentication c) e)
    /\ (forall alist : string,
          m_authenticationMethodes c = [] ->
          shd (libssh2_userauth_list e) = Some alist ->
          exists (c1 : SshClient) (e1 : Engine),
            case_GetAuthenticationMethodes c e = Fallthrough c1 e1
            /\ m_sshState c1 = Authentication
            /\ String.concat "," (m_authenticationMethodes c1) = alist
            /\ m_authenticationMethodes c1 <> []
            /\ Forall (fun method => ~ In ","%char (list_ascii_of_string method))
                      (m_authenticationMethodes c1)).
Proof.
  intros c e. split.
  - intros Hne. unfold case_GetAuthenticationMethodes.
    destruct (m_authenticationMethodes c); [congruence | reflexivity].
  - intros alist Hnil Hlist. unfold case_GetAuthenticationMethodes.
    rewrite Hnil. simpl.
    assert (Hcall : call_userauth_list e = (Some alist, snd (call_userauth_list e)))
      by (destruct e; simpl in *; rewrite Hlist; reflexivity).
    rewrite Hcall. eexists. eexists. split; [reflexivity|].
    split; [apply setSshState_state|].
    rewrite setSshState_methodes.
    replace (m_authenticationMethodes
               (set_authenticationMethodes (split "," alist) c))
      with (split "," alist) by (destruct c; reflexivity).
    split; [apply split_concat|]. split; [apply split_not_nil|].
    apply split_no_separator.
Qed.

Lemma getAuthenticationMethodes_candidates_witness :
  case_GetAuthenticationMethodes (client_in GetAuthenticationMethodes ["password"])
                                 quiet_engine
  = Fallthrough (setSshState Authentication
                   (client_in GetAuthenticationMethodes ["password"])) quiet_engine.
Proof.
  apply (getAuthenticationMethodes_candidates
           (client_in GetAuthenticationMethodes ["password"]) quiet_engine).
  simpl. discriminate.
Defined.

(** ** The whole way in one pass *)

(** X17: when every step completes at once, one process event takes the
    client from Initialize to Ready.  With a session and a known-hosts
    store created, the handshake done, a host key given, and the first
    candidate ("publickey" or "password") accepted and confirmed by
    [libssh2_userauth_authenticated], the pass ends in Ready with the
    handles and the host key stored, the candidate list untouched, the
    clock reading as last proof of life, the connection timer stopped and
    the keepalive timer armed once at 1000 ms; [sshReady] is emitted
    after the state change and before [sshDataReceived]. *)
Theorem connect_in_one_pass :
  forall (fuel : nat) (c : SshClient) (e : Engine) (method : string)
         (rest : list string) (key : list Byte.byte) (type : Z),
    m_sshState c = Initialize ->
    m_authenticationMethodes c = method :: rest ->
    (method = "publickey" /\ shd (libssh2_userauth_publickey_frommemory e) = 0
     \/ method = "password" /\ shd (libssh2_userauth_password_ex e) = 0) ->
    shd (libssh2_session_init_ex e) <> nullptr ->
    shd (libssh2_knownhost_init e) <> nullptr ->
    shd (libssh2_session_handshake e) = 0 ->
    shd (libssh2_session_hostkey e) = Some (key, type) ->
    shd (libssh2_userauth_authenticated e) <> 0 ->
    exists (c' : SshClient) (e' : Engine),
      _ssh_processEvent (S fuel) c e = Done c' e'
      /\ m_sshState c' = Ready
      /\ m_session c' = shd (libssh2_session_init_ex e)
      /\ m_knownHosts c' = shd (libssh2_knownhost_init e)
      /\ m_hostKey c'
         = mkSshKey (shd (libssh2_hostkey_hash e)) key (hostkey_type type)
      /\ m_authenticationMethodes c' = method :: rest
      /\ m_lastProofOfLive c' = shd (currentMSecsSinceEpoch e)
      /\ timer_active (m_connectionTimeout c') = false
      /\ m_keepalive c' = mkTimer true 1000 true
      /\ exists before : list Effect,
           trace c' = before ++ [Emit (sshStateChanged Ready); Emit sshReady;
                                 Emit sshDataReceived].
Proof.
  intros fuel c e method rest key type Hs Hm Hauth Hinit Hkh Hhs Hkey Hok.
  destruct e as [i k h hk hh ul le pk pw au di fr ka cl].
  destruct c as [st ms ? ? ? file ? ? ? ? ? ? ? ? ? ? tr].
  unfold shd in *. simpl in *. subst st ms.
  apply Z.eqb_neq in Hinit, Hkh, Hok.
  unfold _ssh_processEvent, from_Initialize, case_Initialize,
    call_session_init_ex, call_knownhost_init, shd. cbn.
  rewrite Hinit. cbn. rewrite Hkh. cbn.
  unfold from_HandShake, case_HandShake, call_session_handshake,
    call_session_hostkey, call_hostkey_hash, shd. cbn.
  rewrite Hhs. cbn. rewrite Hkey. cbn.
  destruct (Nat.eqb (String.length file) 0);
    unfold setSshState; cbn;
    unfold from_GetAuthenticationMethodes, case_GetAuthenticationMethodes,
      setSshState; cbn;
    unfold from_Authentication, case_Authentication; cbn [authentication_loop];
    cbn.
  all: destruct Hauth as [[-> Hz]|[-> Hz]]; cbn.
  all: unfold try_password, call_userauth_publickey_frommemory,
       call_userauth_password_ex, shd; cbn; rewrite Hz; cbn.
  all: unfold setSshState, call_userauth_authenticated, shd; cbn;
     rewrite Hok; cbn.
  all: unfold from_Ready, case_Ready, call_currentMSecsSinceEpoch, shd; cbn.
  all: eexists; eexists; (split; [reflexivity|]); cbn.
  all: repeat (split; [reflexivity|]).
  all: match goal with
       | |- exists before, ((?x ++ [_]) ++ [_]) ++ [_] = _ =>
           exists x; rewrite <- !app_assoc; reflexivity
       end.
Qed.

Lemma connect_in_one_pass_witness :
  exists (c' : SshClient) (e' : Engine),
    _ssh_processEvent 1 (client_in Initialize ["password"])
                      (scripted_engine [] [] [0] 1) = Done c' e'
    /\ m_sshState c' = Ready.
Proof.
  destruct (connect_in_one_pass 0 (client_in Initialize ["password"])
              (scripted_engine [] [] [0] 1) "password" [] [] LIBSSH2_HOSTKEY_TYPE_RSA
              eq_refl eq_refl (or_intror (conj eq_refl eq_refl))
              ltac:(discriminate) ltac:(discriminate) eq_refl eq_refl
              ltac:(discriminate))
    as (c' & e' & Hrun & Hs & _).
  exists c', e'. split; assumption.
Defined.

(** ** Signals follow the state, and the callers' fields are theirs *)

Lemma last_state_app (init : SshState) (a b : list Effect) :
  last_state init (a ++ b) = last_state (last_state init a) b.
Proof.
  revert init. induction a as [|x a IH]; intros init; simpl; [reflexivity|].
  destruct x as [[| | | | |]| | | | | |]; apply IH.
Qed.

Lemma changes_only_app (init : SshState) (a b : list Effect) :
  changes_only init a -> changes_only (last_state init a) b ->
  changes_only init (a ++ b).
Proof.
  revert init. induction a as [|x a IH]; intros init Ha Hb; simpl in *; [exact Hb|].
  destruct x as [[| s | | | |]| | | | | |]; try (apply IH; assumption).
  destruct Ha as [Hs Ha]. split; [exact Hs | apply IH; assumption].
Qed.

Lemma kept_refl (c : SshClient) : kept c c.
Proof. split; [repeat split; reflexivity | exact (fun H => H)]. Qed.

Lemma kept_trans (c c1 c2 : SshClient) : kept c c1 -> kept c1 c2 -> kept c c2.
Proof.
  intros [(A1 & A2 & A3 & A4 & A5 & A6 & A7) HA]
         [(B1 & B2 & B3 & B4 & B5 & B6 & B7) HB].
  split; [repeat split; congruence | auto].
Qed.

Lemma kept_setSshState (s : SshState) (c : SshClient) : kept c (setSshState s c).
Proof.
  unfold setSshState.
  destruct (SshState_eqb (m_sshState c) s) eqn:E; simpl; [apply kept_refl|].
  apply SshState_eqb_neq in E.
  split; [destruct c; repeat split; reflexivity|].
  unfold signals_state. intros [H1 H2]. destruct c; simpl in *. split.
  - rewrite last_state_app. reflexivity.
  - apply changes_only_app; [exact H2|]. simpl. rewrite H1.
    split; [congruence | exact I].
Qed.

Lemma kept_effect (x : Effect) (c : SshClient) :
  not_state_signal x -> kept c (effect x c).
Proof.
  intros Hx. split; [destruct c; repeat split; reflexivity|].
  unfold signals_state. intros [H1 H2]. destruct c; simpl in *.
  assert (Hl : forall init, last_state init [x] = init).
  { intros init. destruct x as [[| s | | | |]| | | | | |]; try reflexivity.
    exfalso. exact (Hx s eq_refl). }
  assert (Hc : forall init, changes_only init [x]).
  { intros init. destruct x as [[| s | | | |]| | | | | |]; try exact I.
    exfalso. exact (Hx s eq_refl). }
  split.
  - rewrite last_state_app, Hl. exact H1.
  - apply changes_only_app; [exact H2 | apply Hc].
Qed.

(** A step that changes neither the trace, nor the state, nor a field of
    the callers. *)
Lemma kept_silent (c c' : SshClient) :
  caller_frame c c' -> trace c' = trace c -> m_sshState c' = m_sshState c ->
  kept c c'.
Proof.
  intros Hf Ht Hs. split; [exact Hf|].
  unfold signals_state. rewrite Ht, Hs. exact (fun H => H).
Qed.

Lemma kept_set_methodes (l : list string) (c : SshClient) :
  kept c (set_authenticationMethodes l c).
Proof. apply kept_silent; destruct c; repeat split; reflexivity. Qed.

Lemma kept_set_session (v : Z) (c : SshClient) : kept c (set_session v c).
Proof. apply kept_silent; destruct c; repeat split; reflexivity. Qed.

Lemma kept_set_knownHosts (v : Z) (c : SshClient) : kept c (set_knownHosts v c).
Proof. apply kept_silent; destruct c; repeat split; reflexivity. Qed.

Lemma kept_set_hostKey (v : SshKey) (c : SshClient) : kept c (set_hostKey v c).
Proof. apply kept_silent; destruct c; repeat split; reflexivity. Qed.

Lemma kept_set_lastProofOfLive (v : Z) (c : SshClient) :
  kept c (set_lastProofOfLive v c).
Proof. apply kept_silent; destruct c; repeat split; reflexivity. Qed.

Lemma kept_set_keepalive (v : QTimer) (c : SshClient) : kept c (set_keepalive v c).
Proof. apply kept_silent; destruct c; repeat split; reflexivity. Qed.

Lemma kept_set_connectionTimeout (v : QTimer) (c : SshClient) :
  kept c (set_connectionTimeout v c).
Proof. apply kept_silent; destruct c; repeat split; reflexivity. Qed.

Lemma kept_close_all (l : list Z) (c : SshClient) :
  kept c (fold_left (fun c ch => effect (ChannelClose ch) c) l c).
Proof.
  revert c. induction l as [|ch l IH]; intros c; simpl; [apply kept_refl|].
  eapply kept_trans; [|apply IH].
  apply kept_effect. intros s. discriminate.
Qed.

(** Peels the setters off the client on the right, from the outside in. *)
Ltac kept_peel :=
  unfold emit, qCWarning, qCCritical, socket_disconnectFromHost;
  repeat first
    [ apply kept_refl
    | apply kept_close_all
    | eapply kept_trans; [|apply kept_setSshState]
    | eapply kept_trans; [|apply kept_effect; intros ?; discriminate]
    | eapply kept_trans; [|apply kept_set_methodes]
    | eapply kept_trans; [|apply kept_set_session]
    | eapply kept_trans; [|apply kept_set_knownHosts]
    | eapply kept_trans; [|apply kept_set_hostKey]
    | eapply kept_trans; [|apply kept_set_lastProofOfLive]
    | eapply kept_trans; [|apply kept_set_keepalive]
    | eapply kept_trans; [|apply kept_set_connectionTimeout] ].

(** Splits the handler on every test it makes, then peels. *)
Ltac kept_cases :=
  repeat match goal with
         | |- context [match ?x with _ => _ end] => destruct x
         end;
  cbn [step_kept loop_kept outcome_kept client_after];
  try exact I; kept_peel.

Lemma outcome_kept_trans (c c1 : SshClient) (r : Outcome) :
  kept c c1 -> outcome_kept c1 r -> outcome_kept c r.
Proof.
  unfold outcome_kept. intros H. destruct (client_after r); [|exact (fun x => x)].
  apply kept_trans. exact H.
Qed.

Lemma andThen_kept (c : SshClient) (s : Step) (k : SshClient -> Engine -> Outcome) :
  step_kept c s -> (forall c1 e1, outcome_kept c1 (k c1 e1)) ->
  outcome_kept c (andThen s k).
Proof.
  intros Hs Hk. destruct s as [c1 e1|r]; simpl in *; [|exact Hs].
  eapply outcome_kept_trans; [exact Hs | apply Hk].
Qed.

Lemma case_Unconnected_kept (c : SshClient) (e : Engine) :
  outcome_kept c (case_Unconnected c e).
Proof. unfold case_Unconnected. kept_cases. Qed.

Lemma case_SocketConnection_kept (c : SshClient) (e : Engine) :
  step_kept c (case_SocketConnection c e).
Proof. unfold case_SocketConnection. kept_cases. Qed.

Lemma case_WaitingSocketConnection_kept (c : SshClient) (e : Engine) :
  outcome_kept c (case_WaitingSocketConnection c e).
Proof. unfold case_WaitingSocketConnection. kept_cases. Qed.

Lemma case_Initialize_kept (c : SshClient) (e : Engine) :
  step_kept c (case_Initialize c e).
Proof. unfold case_Initialize. kept_cases. Qed.

Lemma case_HandShake_kept (c : SshClient) (e : Engine) :
  step_kept c (case_HandShake c e).
Proof. unfold case_HandShake. kept_cases. Qed.

Lemma case_GetAuthenticationMethodes_kept (c : SshClient) (e : Engine) :
  step_kept c (case_GetAuthenticationMethodes c e).
Proof. unfold case_GetAuthenticationMethodes. kept_cases. Qed.

Lemma loop_kept_trans (c c1 : SshClient) (l : Loop) :
  kept c c1 -> loop_kept c1 l -> loop_kept c l.
Proof.
  intros H. destruct l as [c2 e2|r]; simpl.
  - apply kept_trans. exact H.
  - apply outcome_kept_trans. exact H.
Qed.

Lemma try_password_kept (again : SshClient -> Engine -> Loop)
      (c : SshClient) (e : Engine) :
  (forall c1 e1, loop_kept c1 (again c1 e1)) ->
  loop_kept c (try_password again c e).
Proof.
  intros Hagain. unfold try_password.
  repeat match goal with
         | |- context [match ?x with _ => _ end] => destruct x
         end;
  try apply Hagain;
  cbn [step_kept loop_kept outcome_kept client_after];
  try exact I; kept_peel.
Qed.

Lemma authentication_loop_kept (fuel : nat) :
  forall c e, loop_kept c (authentication_loop fuel c e).
Proof.
  induction fuel as [|fuel IH]; intros c e; simpl; [exact I|].
  destruct (Nat.eqb (List.length (m_authenticationMethodes c)) 0);
    [simpl; apply kept_refl|].
  destruct (first (m_authenticationMethodes c)) as [method|]; [|exact I].
  destruct (String.eqb method "publickey"); [|apply try_password_kept; exact IH].
  destruct (call_userauth_publickey_frommemory e) as [ret e1].
  destruct (Z.eqb ret LIBSSH2_ERROR_EAGAIN); [simpl; apply kept_refl|].
  destruct (ret <? 0).
  - destruct (Z.eqb ret 0).
    + cbn [loop_kept]. kept_peel.
    + eapply loop_kept_trans; [|apply try_password_kept; exact IH]. kept_peel.
  - destruct (Z.eqb ret 0).
    + cbn [loop_kept]. kept_peel.
    + apply try_password_kept; exact IH.
Qed.

Lemma case_Authentication_kept (fuel : nat) (c : SshClient) (e : Engine) :
  step_kept c (case_Authentication fuel c e).
Proof.
  unfold case_Authentication.
  pose proof (authentication_loop_kept fuel c e) as H.
  destruct (authentication_loop fuel c e) as [c1 e1|r]; simpl in H; [|exact H].
  destruct (call_userauth_authenticated e1) as [authenticated e2].
  destruct (negb (Z.eqb authenticated 0));
    cbn [step_kept outcome_kept client_after];
    (eapply kept_trans; [exact H|]); kept_peel.
Qed.

Lemma case_Ready_kept (c : SshClient) (e : Engine) :
  outcome_kept c (case_Ready c e).
Proof. unfold case_Ready. kept_cases. Qed.

Lemma case_DisconnectingChannel_kept (c : SshClient) (e : Engine) :
  outcome_kept c (case_DisconnectingChannel c e).
Proof. unfold case_DisconnectingChannel. kept_cases. Qed.

Lemma case_DisconnectingSession_kept (c : SshClient) (e : Engine) :
  step_kept c (case_DisconnectingSession c e).
Proof. unfold case_DisconnectingSession. kept_cases. Qed.

Lemma case_FreeSession_kept (c : SshClient) (e : Engine) :
  outcome_kept c (case_FreeSession c e).
Proof. unfold case_FreeSession. kept_cases. Qed.

Lemma case_Error_kept (c : SshClient) (e : Engine) :
  outcome_kept c (case_Error c e).
Proof. unfold case_Error. kept_cases. Qed.

Lemma processEvent_kept (fuel : nat) (c : SshClient) (e : Engine) :
  outcome_kept c (_ssh_processEvent fuel c e).
Proof.
  assert (HR : forall c1 e1, outcome_kept c1 (from_Ready c1 e1))
    by exact case_Ready_kept.
  assert (HA : forall c1 e1, outcome_kept c1 (from_Authentication fuel c1 e1)).
  { intros c1 e1. apply andThen_kept; [apply case_Authentication_kept | exact HR]. }
  assert (HG : forall c1 e1,
             outcome_kept c1 (from_GetAuthenticationMethodes fuel c1 e1)).
  { intros c1 e1. apply andThen_kept;
      [apply case_GetAuthenticationMethodes_kept | exact HA]. }
  assert (HH : forall c1 e1, outcome_kept c1 (from_HandShake fuel c1 e1)).
  { intros c1 e1. apply andThen_kept; [apply case_HandShake_kept | exact HG]. }
  assert (HI : forall c1 e1, outcome_kept c1 (from_Initialize fuel c1 e1)).
  { intros c1 e1. apply andThen_kept; [apply case_Initialize_kept | exact HH]. }
  unfold _ssh_processEvent. destruct (m_sshState c).
  - apply case_Unconnected_kept.
  - apply andThen_kept;
      [apply case_SocketConnection_kept | exact case_WaitingSocketConnection_kept].
  - apply case_WaitingSocketConnection_kept.
  - apply HI.
  - apply HH.
  - apply HG.
  - apply HA.
  - apply HR.
  - apply case_DisconnectingChannel_kept.
  - apply andThen_kept;
      [apply case_DisconnectingSession_kept | exact case_FreeSession_kept].
  - apply case_FreeSession_kept.
  - apply case_Error_kept.
Qed.

Lemma sendKeepAlive_kept (c : SshClient) (e : Engine) :
  kept c (fst (_sendKeepAlive c e)).
Proof.
  unfold _sendKeepAlive.
  repeat match goal with
         | |- context [match ?x with _ => _ end] => destruct x
         end;
  cbn [fst]; kept_peel.
Qed.

Lemma deliver_kept (fuel : nat) (d : Delivery) (c : SshClient) (e : Engine) :
  outcome_kept c (deliver fuel d c e).
Proof.
  destruct d; simpl.
  - apply processEvent_kept.
  - unfold outcome_kept, _connection_socketConnected; simpl.
    destruct (SshState_eqb (m_sshState c) WaitingSocketConnection); kept_peel.
  - unfold outcome_kept, _connection_socketDisconnected; simpl. kept_peel.
  - unfold outcome_kept, _connection_socketError; simpl. kept_peel.
  - unfold outcome_kept, _connection_socketTimeout; simpl. kept_peel.
  - pose proof (sendKeepAlive_kept c e) as H.
    destruct (_sendKeepAlive c e) as [c1 e1]. exact H.
Qed.

Lemma signals_silent (c c' : SshClient) :
  trace c' = trace c -> m_sshState c' = m_sshState c ->
  signals_state c -> signals_state c'.
Proof.
  intros Ht Hs. unfold signals_state. rewrite Ht, Hs. exact (fun H => H).
Qed.

Lemma signals_effect (x : Effect) (c : SshClient) :
  not_state_signal x -> signals_state c -> signals_state (effect x c).
Proof. intros Hx. exact (proj2 (kept_effect x c Hx)). Qed.

Lemma signals_setSshState (s : SshState) (c : SshClient) :
  signals_state c -> signals_state (setSshState s c).
Proof. exact (proj2 (kept_setSshState s c)). Qed.

Lemma request_signals (r : Request) (c : SshClient) :
  signals_state c -> signals_state (request r c).
Proof.
  intros H. destruct r; simpl.
  - unfold connectToHost.
    destruct (negb (SshState_eqb (sshState c) Unconnected)); simpl.
    + apply signals_effect; [intros s; discriminate | exact H].
    + apply signals_effect; [intros s; discriminate|].
      apply signals_setSshState.
      revert H. apply signals_silent; destruct c; reflexivity.
  - unfold disconnectFromHost.
    destruct (SshState_eqb (m_sshState c) Unconnected); [exact H|].
    apply signals_effect; [intros s; discriminate|].
    destruct (Nat.eqb (List.length (m_channels c)) 0);
      apply signals_setSshState; exact H.
  - revert H. apply signals_silent; destruct c; reflexivity.
  - unfold unregisterChannel.
    assert (H1 : signals_state (set_channels (removeOne channel (m_channels c)) c)).
    { revert H. apply signals_silent; destruct c; reflexivity. }
    destruct (SshState_eqb _ DisconnectingChannel && Nat.eqb _ 0); [|exact H1].
    apply signals_effect; [intros s; discriminate|].
    apply signals_setSshState.
    revert H1. apply signals_silent;
      destruct (set_channels (removeOne channel (m_channels c)) c); reflexivity.
  - revert H. apply signals_silent;
      unfold takeChannelCreationMutex, QMutex_tryLock;
      destruct c as [? ? ? ? ? ? ? ? ? ? ? ? ? ? lock owner ?];
      destruct lock; simpl; try reflexivity;
      destruct (Z.eqb owner identifier); reflexivity.
  - unfold releaseChannelCreationMutex.
    destruct (Z.eqb (currentLockerForChannelCreation c) identifier).
    + revert H. apply signals_silent; destruct c; reflexivity.
    + apply signals_effect; [intros s; discriminate | exact H].
  - revert H. apply signals_silent; destruct c; reflexivity.
Qed.

Lemma caller_frame_trans (c c1 c2 : SshClient) :
  caller_frame c c1 -> caller_frame c1 c2 -> caller_frame c c2.
Proof.
  intros (A1 & A2 & A3 & A4 & A5 & A6 & A7) (B1 & B2 & B3 & B4 & B5 & B6 & B7).
  repeat split; congruence.
Qed.

Lemma run_deliveries_frame (fuel : nat) (ds : list Delivery) :
  forall (c : SshClient) (e : Engine) (c' : SshClient) (e' : Engine),
    run fuel (map Delivered ds) c e = Done c' e' -> caller_frame c c'.
Proof.
  induction ds as [|d ds IH]; intros c e c' e' H; simpl in H.
  - injection H as <- <-. repeat split; reflexivity.
  - pose proof (deliver_kept fuel d c e) as K. unfold outcome_kept in K.
    destruct (deliver fuel d c e) as [c1 e1|c1 e1| |];
      try discriminate H; simpl in K;
      exact (caller_frame_trans c c1 c' (proj1 K) (IH c1 e1 c' e' H)).
Qed.

(** The same with the socket reacting. *)

Lemma kept_set_socket (v : SocketState) (c : SshClient) : kept c (set_socket v c).
Proof. apply kept_silent; destruct c; repeat split; reflexivity. Qed.

Lemma kept_socketDisconnected (c : SshClient) :
  kept c (_connection_socketDisconnected c).
Proof. unfold _connection_socketDisconnected. kept_peel. Qed.

Lemma kept_socketError (c : SshClient) : kept c (_connection_socketError c).
Proof. unfold _connection_socketError. kept_peel. Qed.

Lemma kept_socketConnected (c : SshClient) :
  kept c (_connection_socketConnected c).
Proof.
  unfold _connection_socketConnected.
  destruct (SshState_eqb (m_sshState c) WaitingSocketConnection); kept_peel.
Qed.

Lemma kept_socket_disconnectFromHost_in (w : World) (c : SshClient) :
  kept c (socket_disconnectFromHost_in w c).
Proof.
  unfold socket_disconnectFromHost_in.
  destruct (m_socket (socket_disconnectFromHost c)); try (kept_peel; fail);
    destruct (bytesToWrite w (socket_disconnectFromHost c));
    first [ eapply kept_trans; [|apply kept_set_socket]
          | eapply kept_trans; [|apply kept_socketDisconnected];
            eapply kept_trans; [|apply kept_set_socket] ];
    kept_peel.
Qed.

Lemma kept_socket_connectToHost_in (w : World) (c : SshClient) :
  kept c (socket_connectToHost_in w c).
Proof.
  unfold socket_connectToHost_in.
  destruct (connectToHost_reaction w _) as [state [| |]];
    first [ eapply kept_trans; [|apply kept_socketError]
          | eapply kept_trans; [|apply kept_socketConnected]
          | idtac ];
    (eapply kept_trans; [|apply kept_set_socket]); kept_peel.
Qed.

Ltac kept_peel_in :=
  unfold emit, qCWarning, qCCritical;
  repeat first
    [ apply kept_refl
    | eapply kept_trans; [|apply kept_socket_disconnectFromHost_in]
    | eapply kept_trans; [|apply kept_socket_connectToHost_in]
    | eapply kept_trans; [|apply kept_setSshState]
    | eapply kept_trans; [|apply kept_effect; intros ?; discriminate]
    | eapply kept_trans; [|apply kept_set_methodes]
    | eapply kept_trans; [|apply kept_set_session]
    | eapply kept_trans; [|apply kept_set_knownHosts]
    | eapply kept_trans; [|apply kept_set_hostKey]
    | eapply kept_trans; [|apply kept_set_lastProofOfLive]
    | eapply kept_trans; [|apply kept_set_keepalive]
    | eapply kept_trans; [|apply kept_set_connectionTimeout]
    | eapply kept_trans; [|apply kept_set_socket] ].

Ltac kept_cases_in :=
  repeat match goal with
         | |- context [match ?x with _ => _ end] => destruct x
         end;
  cbn [step_kept loop_kept outcome_kept client_after];
  try exact I; kept_peel_in.

Lemma case_SocketConnection_in_kept (w : World) (c : SshClient) (e : Engine) :
  step_kept c (case_SocketConnection_in w c e).
Proof. unfold case_SocketConnection_in. kept_cases_in. Qed.

Lemma case_Initialize_in_kept (w : World) (c : SshClient) (e : Engine) :
  step_kept c (case_Initialize_in w c e).
Proof. unfold case_Initialize_in. kept_cases_in. Qed.

Lemma case_HandShake_in_kept (w : World) (c : SshClient) (e : Engine) :
  step_kept c (case_HandShake_in w c e).
Proof. unfold case_HandShake_in. kept_cases_in. Qed.

Lemma case_GetAuthenticationMethodes_in_kept (w : World) (c : SshClient)
      (e : Engine) :
  step_kept c (case_GetAuthenticationMethodes_in w c e).
Proof. unfold case_GetAuthenticationMethodes_in. kept_cases_in. Qed.

Lemma case_Authentication_in_kept (fuel : nat) (c : SshClient) (e : Engine) :
  step_kept c (case_Authentication_in fuel c e).
Proof.
  unfold case_Authentication_in.
  destruct (Z.eqb (m_session c) nullptr); [|apply case_Authentication_kept].
  destruct (first (m_authenticationMethodes c)) as [method|]; [|exact I].
  destruct (recognized method); [exact I | apply case_Authentication_kept].
Qed.

Lemma case_DisconnectingSession_in_kept (w : World) (c : SshClient) (e : Engine) :
  step_kept c (case_DisconnectingSession_in w c e).
Proof. unfold case_DisconnectingSession_in. kept_cases_in. Qed.

Lemma case_Error_in_kept (w : World) (c : SshClient) (e : Engine) :
  outcome_kept c (case_Error_in w c e).
Proof. unfold case_Error_in. kept_cases_in. Qed.

Lemma processEvent_in_kept (w : World) (fuel : nat) (c : SshClient) (e : Engine) :
  outcome_kept c (_ssh_processEvent_in w fuel c e).
Proof.
  assert (HR : forall c1 e1, outcome_kept c1 (from_Ready c1 e1))
    by exact case_Ready_kept.
  assert (HA : forall c1 e1, outcome_kept c1 (from_Authentication_in fuel c1 e1)).
  { intros c1 e1. apply andThen_kept; [apply case_Authentication_in_kept | exact HR]. }
  assert (HG : forall c1 e1,
             outcome_kept c1 (from_GetAuthenticationMethodes_in w fuel c1 e1)).
  { intros c1 e1. apply andThen_kept;
      [apply case_GetAuthenticationMethodes_in_kept | exact HA]. }
  assert (HH : forall c1 e1, outcome_kept c1 (from_HandShake_in w fuel c1 e1)).
  { intros c1 e1. apply andThen_kept; [apply case_HandShake_in_kept | exact HG]. }
  assert (HI : forall c1 e1, outcome_kept c1 (from_Initialize_in w fuel c1 e1)).
  { intros c1 e1. apply andThen_kept; [apply case_Initialize_in_kept | exact HH]. }
  unfold _ssh_processEvent_in. destruct (m_sshState c).
  - apply case_Unconnected_kept.
  - apply andThen_kept;
      [apply case_SocketConnection_in_kept
      | exact case_WaitingSocketConnection_kept].
  - apply case_WaitingSocketConnection_kept.
  - apply HI.
  - apply HH.
  - apply HG.
  - apply HA.
  - apply HR.
  - apply case_DisconnectingChannel_kept.
  - apply andThen_kept;
      [apply case_DisconnectingSession_in_kept | exact case_FreeSession_kept].
  - apply case_FreeSession_kept.
  - apply case_Error_in_kept.
Qed.

Lemma sendKeepAlive_in_kept (w : World) (c : SshClient) (e : Engine) :
  kept c (fst (_sendKeepAlive_in w c e)).
Proof.
  unfold _sendKeepAlive_in.
  repeat match goal with
         | |- context [match ?x with _ => _ end] => destruct x
         end;
  cbn [fst]; kept_peel_in.
Qed.

Lemma deliver_in_kept (w : World) (fuel : nat) (d : Delivery) (c : SshClient)
      (e : Engine) :
  outcome_kept c (deliver_in w fuel d c e).
Proof.
  destruct d; simpl.
  - apply processEvent_in_kept.
  - unfold outcome_kept; simpl.
    eapply kept_trans; [apply kept_set_socket | apply kept_socketConnected].
  - unfold outcome_kept; simpl.
    eapply kept_trans; [apply kept_set_socket | apply kept_socketDisconnected].
  - unfold outcome_kept; simpl. apply kept_socketError.
  - unfold outcome_kept, _connection_socketTimeout_in; simpl. kept_peel_in.
  - pose proof (sendKeepAlive_in_kept w c e) as H.
    destruct (_sendKeepAlive_in w c e) as [c1 e1]. exact H.
Qed.

Lemma step_in_signals (w : World) (fuel : nat) (ev : Event) (c : SshClient)
      (e : Engine) (c' : SshClient) :
  signals_state c -> client_after (step_in w fuel ev c e) = Some c' ->
  signals_state c'.
Proof.
  intros H Hc. destruct ev as [[d|r]|s]; simpl in Hc.
  - pose proof (deliver_in_kept w fuel d c e) as K. unfold outcome_kept in K.
    rewrite Hc in K. exact (proj2 K H).
  - injection Hc as <-. apply request_signals. exact H.
  - injection Hc as <-. exact (proj2 (kept_set_socket s c) H).
Qed.

Lemma run_in_signals (w : World) (fuel : nat) (events : list Event) :
  forall (c : SshClient) (e : Engine) (c' : SshClient) (e' : Engine),
    signals_state c -> run_in w fuel events c e = Done c' e' -> signals_state c'.
Proof.
  induction events as [|ev events IH]; intros c e c' e' Hinv H; simpl in H.
  - injection H as <- <-. exact Hinv.
  - destruct (step_in w fuel ev c e) as [c1 e1|c1 e1| |] eqn:Hstep;
      try discriminate H;
      (apply (IH c1 e1 c' e'); [|exact H]);
      apply (step_in_signals w fuel ev c e c1 Hinv); rewrite Hstep; reflexivity.
Qed.

(** X18: a listener of [sshStateChanged] always knows the state.  Whatever
    the event loop delivers, the callers request, the engine answers and
    the socket does (its state changes between the handlers, and the
    slots it runs inside [m_socket.disconnectFromHost()] and
    [m_socket.connectToHost()]), in a debug or a release build, the state
    of a client that started as a new one is the state carried by the
    last [sshStateChanged] signal it emitted (Unconnected when it emitted
    none), and no such signal repeats the state of the one before it:
    every handler changes the state through [setSshState] only. *)
Theorem state_changes_are_signalled :
  forall (w : World) (fuel : nat) (events : list Event) (e : Engine)
         (c' : SshClient) (e' : Engine),
    run_in w fuel events new_client e = Done c' e' ->
    last_state Unconnected (trace c') = m_sshState c'
    /\ changes_only Unconnected (trace c').
Proof.
  intros w fuel events e c' e' H.
  apply (run_in_signals w fuel events new_client e c' e'); [|exact H].
  split; [reflexivity | exact I].
Qed.

Lemma state_changes_are_signalled_witness :
  exists (c' : SshClient) (e' : Engine),
    run_in prompt_world 2
      [Handled (Requested (ConnectToHost "user" "host" 22 ["password"]));
       Handled (Delivered ProcessEvent);
       SocketState_changed ConnectingState;
       Handled (Delivered SocketConnected);
       Handled (Delivered ProcessEvent);
       Handled (Requested DisconnectFromHost);
       Handled (Delivered ProcessEvent)]
      new_client (scripted_engine [] [] [0] 1) = Done c' e'
    /\ m_sshState c' = Unconnected
    /\ m_socket c' = UnconnectedState
    /\ last_state Unconnected (trace c') = Unconnected.
Proof.
  eexists. eexists. split; [reflexivity|]. split; [reflexivity|].
  split; [reflexivity|].
  refine (proj1 (state_changes_are_signalled prompt_world 2
                   [Handled (Requested (ConnectToHost "user" "host" 22 ["password"]));
                    Handled (Delivered ProcessEvent);
                    SocketState_changed ConnectingState;
                    Handled (Delivered SocketConnected);
                    Handled (Delivered ProcessEvent);
                    Handled (Requested DisconnectFromHost);
                    Handled (Delivered ProcessEvent)]
                   (scripted_engine [] [] [0] 1) _ _ eq_refl)).
Defined.

(** X19: the event loop leaves to the callers what is theirs.  No process
    event, socket notification or timer, in any state and whatever the
    engine answers, changes the channel-creation lock, its owner, the
    registry, the stored host, port and user name or the known-hosts file
    name.  So an identity that owns the lock still owns it after any
    sequence of deliveries, a teardown or a failure among them, and the
    channels registered at a disconnection are still registered when the
    client is Unconnected again. *)
Theorem event_loop_keeps_callers_fields :
  forall (fuel : nat) (ds : list Delivery) (c : SshClient) (e : Engine)
         (c' : SshClient) (e' : Engine),
    run fuel (map Delivered ds) c e = Done c' e' ->
    caller_frame c c' /\ (forall A : Z, owns c A -> owns c' A).
Proof.
  intros fuel ds c e c' e' H.
  pose proof (run_deliveries_frame fuel ds c e c' e' H) as F.
  split; [exact F|].
  destruct F as (F1 & F2 & _). intros A [O1 O2]. split; congruence.
Qed.

Lemma event_loop_keeps_callers_fields_witness :
  exists (c' : SshClient) (e' : Engine),
    run 2 (map Delivered [SocketDisconnected; ProcessEvent])
        (snd (takeChannelCreationMutex 7 (registerChannel 5 (client_in Ready []))))
        (scripted_engine [] [] [] 1) = Done c' e'
    /\ m_sshState c' = Unconnected
    /\ m_channels c' = [5]
    /\ owns c' 7.
Proof.
  eexists. eexists. split; [reflexivity|]. split; [reflexivity|].
  split; [reflexivity|].
  refine (proj2 (event_loop_keeps_callers_fields 2
                   [SocketDisconnected; ProcessEvent]
                   (snd (takeChannelCreationMutex 7
                           (registerChannel 5 (client_in Ready []))))
                   (scripted_engine [] [] [] 1) _ _ eq_refl) 7 _).
  split; reflexivity.
Defined.
